(** * Point location and interpolation on high-order meshes: fem/gslib.cpp

    A shallow embedding of the class [FindPointsGSLIB] (methods [Setup],
    [FindPoints], [Interpolate], [FreeData], [GetNodeValues],
    [GetQuadHexNodalCoordinates], [GetSimplexNodalCoordinates]).

    - [double] values are an abstract type [R]: the class only copies them.
      The literals of the reference tables are kept as the fractions written
      in the source ([1./3.] is [1#3]).
    - C++ objects reached through pointers ([findpts_data_2 *], [comm *],
      [IntegrationRule *], [Mesh *]) live in a heap keyed by address; a NULL
      pointer is [None].
    - The mesh, finite-element and grid-function classes and the gslib search
      engine are collaborators.  What the class reads from a mesh is the
      record [Mesh]; what it asks of the others is the class [Collaborators].
    - A method is a function from the program state to an [outcome]: it
      returns, it aborts through [MFEM_VERIFY]/[MFEM_ABORT], or it faults
      (an access that C++ leaves undefined). *)

From Stdlib Require Import ZArith QArith List String Lia.
From stdpp Require Import base option list gmap.

Local Open Scope nat_scope.

(** ** Collaborator data *)

Module Geometry.
(** [Geometry::Type]: the kinds the class names, and the two others. *)
Inductive t := POINT | SEGMENT | TRIANGLE | SQUARE | TETRAHEDRON | CUBE | PRISM.
End Geometry.

Record IntegrationPoint (R : Type) := {
  ip_x : R;
  ip_y : R;
  ip_z : R;
  ip_weight : R
}.
Arguments ip_x {R}.
Arguments ip_y {R}.
Arguments ip_z {R}.
Arguments ip_weight {R}.

(** [const FiniteElement *fe = ...->GetFE(0)]. *)
Record FiniteElement (R : Type) := {
  GetOrder : Z;
  GetGeomType : Geometry.t;
  GetDof : nat;
  (** [dynamic_cast<const TensorBasisElement *>(fe)] followed by
      [GetDofMap()]; [None] when the cast yields NULL. *)
  GetDofMap : option (list nat);
  (** [fe->GetNodes()], the integration rule of the element's nodes. *)
  GetNodesIR : list (IntegrationPoint R)
}.
Arguments GetOrder {R}.
Arguments GetGeomType {R}.
Arguments GetDof {R}.
Arguments GetDofMap {R}.
Arguments GetNodesIR {R}.

(** What [FindPointsGSLIB] reads from a [Mesh]. *)
Record Mesh (R : Type) := {
  (** [GetNodes()]: the data of the nodal grid function, [None] for NULL. *)
  GetNodes : option (list R);
  (** [GetNumGeometries(Dimension())]. *)
  GetNumGeometries : Z;
  Dimension : Z;
  GetNE : nat;
  (** [GetNodalFESpace()->GetFE(0)]. *)
  GetFE0 : FiniteElement R;
  (** [GetNodalFESpace()->GetElementVDofs(i, xdofs)]. *)
  GetElementVDofs : nat -> list nat;
  (** [GetNodes()->GetVectorValue(j, ip, locval)]: the geometric map of
      element [j] at the reference point [ip]. *)
  GetVectorValue : nat -> IntegrationPoint R -> list R
}.
Arguments GetNodes {R}.
Arguments GetNumGeometries {R}.
Arguments Dimension {R}.
Arguments GetNE {R}.
Arguments GetFE0 {R}.
Arguments GetElementVDofs {R}.
Arguments GetVectorValue {R}.

(** A mesh under construction: [new Mesh(Dim, Nvert, NElem, 0, spaceDim)]
    followed by [AddVertex] and [AddQuad]/[AddHex] calls. *)
Record MeshBuilder := {
  mb_Dim : nat;
  mb_Nvert : nat;
  mb_NElem : nat;
  mb_spaceDim : nat;
  mb_vertices : list (list Q);
  mb_elements : list (list nat * nat)
}.

Definition new_Mesh (Dim Nvert NElem spaceDim : nat) : MeshBuilder :=
  {| mb_Dim := Dim; mb_Nvert := Nvert; mb_NElem := NElem;
     mb_spaceDim := spaceDim; mb_vertices := []; mb_elements := [] |}.

Definition AddVertex (v : list Q) (mb : MeshBuilder) : MeshBuilder :=
  {| mb_Dim := mb_Dim mb; mb_Nvert := mb_Nvert mb; mb_NElem := mb_NElem mb;
     mb_spaceDim := mb_spaceDim mb;
     mb_vertices := mb_vertices mb ++ [v]; mb_elements := mb_elements mb |}.

(** [AddQuad(vi, attr)] and [AddHex(vi, attr)]. *)
Definition AddElement (vi : list nat) (attr : nat) (mb : MeshBuilder) : MeshBuilder :=
  {| mb_Dim := mb_Dim mb; mb_Nvert := mb_Nvert mb; mb_NElem := mb_NElem mb;
     mb_spaceDim := mb_spaceDim mb;
     mb_vertices := mb_vertices mb; mb_elements := mb_elements mb ++ [(vi, attr)] |}.

(** The argument list of [findpts_setup_2]/[findpts_setup_3]. *)
Record SetupArgs (R : Type) := {
  sa_dim : nat;
  sa_elx : list Z;            (* offsets of the per-axis base pointers *)
  sa_mesh : list R;           (* the buffer they point into *)
  sa_nr : list Z;
  sa_nel : Z;
  sa_mr : list Z;
  sa_bbox_tol : R;
  sa_local_hash_size : Z;
  sa_global_hash_size : Z;
  sa_npt_max : Z;
  sa_newt_tol : R
}.
Arguments sa_dim {R}.
Arguments sa_elx {R}.
Arguments sa_mesh {R}.
Arguments sa_nr {R}.
Arguments sa_nel {R}.
Arguments sa_mr {R}.
Arguments sa_bbox_tol {R}.
Arguments sa_local_hash_size {R}.
Arguments sa_global_hash_size {R}.
Arguments sa_npt_max {R}.
Arguments sa_newt_tol {R}.

(** What the engine reports for one query point. *)
Record PointResult (R : Type) := {
  pr_code : N;
  pr_proc : N;
  pr_el : N;
  pr_r : nat -> R;             (* reference coordinate along each axis *)
  pr_dist : R
}.
Arguments pr_code {R}.
Arguments pr_proc {R}.
Arguments pr_el {R}.
Arguments pr_r {R}.
Arguments pr_dist {R}.

(** The collaborators of the class: the floating-point constants it relies
    on, the finite-element library and the per-point behaviour of gslib. *)
Class Collaborators (R : Type) := {
  (** [0.0], the value [IntegrationPoint::Init] stores. *)
  zero : R;
  (** What freshly allocated [Vector] storage holds. *)
  undef : R;
  (** [Finalize...Mesh(1, 1, true)], [H1_FECollection fec(order, dim)],
      [FiniteElementSpace nodal_fes(meshsplit, &fec, dim)] and
      [meshsplit->SetNodalFESpace(&nodal_fes)]: the curved sub-mesh, or the
      message with which the library aborts in one of them. *)
  SetNodalFESpace : MeshBuilder -> Z -> Z -> string + Mesh R;
  (** [H1_FECollection ind_fec(order, dim)],
      [FiniteElementSpace ind_fes(mesh, &ind_fec)] and
      [field_in_scalar.SetSpace(&ind_fes)] of [Interpolate]: done, or the
      message with which the library aborts in one of them. *)
  H1_FECollection : Z -> Z -> string + unit;
  (** [gf.GetValues(i, ir, vals)] for the scalar H1 grid function over the
      mesh whose data starts at the given storage. *)
  GetValues : Mesh R -> list R -> nat -> list (IntegrationPoint R) -> list R;
  (** The search result of the engine for one point, from the structure's
      setup and the point's coordinates. *)
  findpts_point : SetupArgs R -> list R -> PointResult R;
  (** The value the engine computes for one located point from the
      per-element nodal values. *)
  findpts_eval_point : SetupArgs R -> N -> N -> N -> list R -> list R -> R
}.

(** ** Program state *)

(** Objects behind pointers. *)
Inductive object (R : Type) :=
| Comm
| FindptsData (args : SetupArgs R)
| IntegrationRule (pts : list (IntegrationPoint R))
| SubMesh (mb : MeshBuilder).
Arguments Comm {R}.
Arguments FindptsData {R}.
Arguments IntegrationRule {R}.
Arguments SubMesh {R}.

(** Calls into gslib, in program order. *)
Inductive Call (R : Type) :=
| CallSetup (D : nat) (args : SetupArgs R) (fd : nat)
| CallFind (D : nat) (npt : Z) (fd : option nat)
| CallEval (D : nat) (out_off : Z) (npt : Z) (node_vals : list R) (fd : option nat)
| CallFree (D : nat) (fd : option nat).
Arguments CallSetup {R}.
Arguments CallFind {R}.
Arguments CallEval {R}.
Arguments CallFree {R}.

(** The data members of [FindPointsGSLIB]. *)
Record FindPointsGSLIB (R : Type) := {
  mesh : option (Mesh R);
  ir_simplex : option nat;
  gsl_mesh : list R;
  fdata2D : option nat;
  fdata3D : option nat;
  dim : Z;
  gsl_comm : option nat
}.
Arguments mesh {R}.
Arguments ir_simplex {R}.
Arguments gsl_mesh {R}.
Arguments fdata2D {R}.
Arguments fdata3D {R}.
Arguments dim {R}.
Arguments gsl_comm {R}.

Record State (R : Type) := {
  this : FindPointsGSLIB R;
  heap : gmap nat (object R);
  brk : nat;                       (* next address handed out *)
  calls : list (Call R)
}.
Arguments this {R}.
Arguments heap {R}.
Arguments brk {R}.
Arguments calls {R}.

Inductive outcome (S A : Type) :=
| Returns (a : A) (s : S)
| Aborts (msg : string) (s : S)    (* mfem_error: the process ends in state s *)
| Faults (s : S).                  (* undefined behaviour reached in state s *)
Arguments Returns {S A}.
Arguments Aborts {S A}.
Arguments Faults {S A}.

Definition M (R A : Type) : Type := State R -> outcome (State R) A.

#[export] Instance M_ret {R} : MRet (M R) := fun A a s => Returns a s.

#[export] Instance M_bind {R} : MBind (M R) := fun A B f m s =>
  match m s with
  | Returns a s' => f a s'
  | Aborts msg s' => Aborts msg s'
  | Faults s' => Faults s'
  end.

(** The arrays a caller hands to [FindPoints] and [Interpolate]. *)
Record QueryArrays (R : Type) := {
  codes : list N;
  proc_ids : list N;
  elem_ids : list N;
  ref_pos : list R;
  dist : list R
}.
Arguments codes {R}.
Arguments proc_ids {R}.
Arguments elem_ids {R}.
Arguments ref_pos {R}.
Arguments dist {R}.

(** [const GridFunction &field_in]: its data and [FESpace()->GetVDim()]. *)
Record GridFunction (R : Type) := {
  gf_data : list R;
  gf_VDim : Z
}.
Arguments gf_data {R}.
Arguments gf_VDim {R}.

(** ** Memory and loops *)

Definition sizeof_double : nat := 8.
Definition sizeof_unsigned : nat := 4.

(** [a(i) = v] on storage of [length a] entries. *)
Definition store {A} (a : list A) (i : nat) (v : A) : option (list A) :=
  if decide (i < length a) then Some (<[i:=v]> a) else None.

(** The entry [i * stride] bytes after entry [base], for entries of [sz] bytes. *)
Definition at_stride (base i stride sz : nat) : nat := base + (i * stride) / sz.

(** [for (int k = lo; k < lo + n; k++) s = body(k, s)]. *)
Fixpoint for_loop {St} (body : nat -> St -> option St) (lo n : nat) (s : St) : option St :=
  match n with
  | O => Some s
  | S n' => match body lo s with
            | Some s' => for_loop body (S lo) n' s'
            | None => None
            end
  end.

(** [unsigned] arithmetic. *)
Definition to_unsigned (z : Z) : Z := (z mod 2 ^ 32)%Z.

(** [Vector::SetSize(n)]: entries that were there stay, new ones hold what
    the allocation holds. *)
Definition SetSize {R} `{Collaborators R} (n : nat) (v : list R) : list R :=
  take n v ++ replicate (n - length v) undef.

(** [Vector::GetSubVector(dofs, elemvect)]. *)
Definition GetSubVector {R} (data : list R) (dofs : list nat) : option (list R) :=
  mapM (fun k => data !! k) dofs.

(** [pos(i, d)] for [DenseMatrix pos(height, dim)] laid out by columns over
    the storage [posV]. *)
Definition DenseMatrix_at {R} (posV : list R) (height i d : nat) : option R :=
  posV !! (i + d * height).

(** ** The reference tables of [GetSimplexNodalCoordinates] *)

Module Triangle.
Definition Nvert : nat := 7.
Definition NEsplit : nat := 3.
Definition quad_v : list (list Q) :=
  [ [0; 0]; [1#2; 0]; [1; 0]; [0; 1#2];
    [1#3; 1#3]; [1#2; 1#2]; [0; 1] ]%Q.
Definition quad_e : list (list nat) :=
  [ [3; 4; 1; 0]; [4; 5; 2; 1]; [6; 5; 4; 3] ].
End Triangle.

Module Tetrahedron.
Definition Nvert : nat := 15.
Definition NEsplit : nat := 4.
Definition hex_v : list (list Q) :=
  [ [0; 0; 0]; [1; 0; 0]; [0; 1; 0]; [0; 0; 1];
    [1#2; 0; 0]; [1#2; 1#2; 0]; [0; 1#2; 0];
    [0; 0; 1#2]; [1#2; 0; 1#2]; [0; 1#2; 1#2];
    [1#3; 0; 1#3]; [1#3; 1#3; 1#3]; [0; 1#3; 1#3];
    [1#3; 1#3; 0]; [1#4; 1#4; 1#4] ]%Q.
Definition hex_e : list (list nat) :=
  [ [0; 4; 10; 7; 6; 13; 14; 12];
    [4; 1; 8; 10; 13; 5; 11; 14];
    [13; 5; 11; 14; 6; 2; 9; 12];
    [10; 8; 3; 7; 14; 11; 9; 12] ].
End Tetrahedron.

Module Prism.
Definition Nvert : nat := 14.
Definition NEsplit : nat := 3.
Definition hex_v : list (list Q) :=
  [ [0; 0; 0]; [1#2; 0; 0]; [1; 0; 0]; [0; 1#2; 0];
    [1#3; 1#3; 0]; [1#2; 1#2; 0]; [0; 1; 0];
    [0; 0; 1]; [1#2; 0; 1]; [1; 0; 1]; [0; 1#2; 1];
    [1#3; 1#3; 1]; [1#2; 1#2; 1]; [0; 1; 1] ]%Q.
Definition hex_e : list (list nat) :=
  [ [3; 4; 1; 0; 10; 11; 8; 7];
    [4; 5; 2; 1; 11; 12; 9; 8];
    [6; 5; 4; 3; 13; 12; 11; 10] ].
End Prism.

(** [for (j = 0; j < Nvert; j++) meshsplit->AddVertex(v[j]);]
    [for (j = 0; j < NEsplit; j++) meshsplit->AddQuad/AddHex(e[j], j + 1);] *)
Definition fill_split (v : list (list Q)) (e : list (list nat))
    (Nvert NEsplit : nat) (mb : MeshBuilder) : option MeshBuilder :=
  mb1 ← for_loop (fun j mb => vj ← v !! j; Some (AddVertex vj mb)) 0 Nvert mb;
  for_loop (fun j mb => let attribute := j + 1 in
                        ej ← e !! j; Some (AddElement ej attribute mb)) 0 NEsplit mb1.

(** The first part of [GetSimplexNodalCoordinates]: the reference element
    split into quadrilaterals or hexahedra, and [NEsplit].  For another
    geometry [meshsplit] stays NULL. *)
Definition split_reference (gt : Geometry.t) : option (MeshBuilder * nat) :=
  match gt with
  | Geometry.TRIANGLE =>
      mb ← fill_split Triangle.quad_v Triangle.quad_e Triangle.Nvert Triangle.NEsplit
             (new_Mesh 2 Triangle.Nvert Triangle.NEsplit 2);
      Some (mb, Triangle.NEsplit)
  | Geometry.TETRAHEDRON =>
      mb ← fill_split Tetrahedron.hex_v Tetrahedron.hex_e Tetrahedron.Nvert
             Tetrahedron.NEsplit (new_Mesh 3 Tetrahedron.Nvert Tetrahedron.NEsplit 3);
      Some (mb, Tetrahedron.NEsplit)
  | Geometry.PRISM =>
      mb ← fill_split Prism.hex_v Prism.hex_e Prism.Nvert Prism.NEsplit
             (new_Mesh 3 Prism.Nvert Prism.NEsplit 3);
      Some (mb, Prism.NEsplit)
  | _ => None
  end.

(** ** The class *)

Section Class.
Context {R : Type} `{!Collaborators R}.

(** *** Primitive steps *)

Definition fault {A} : M R A := fun s => Faults s.

Definition MFEM_ABORT {A} (msg : string) : M R A := fun s => Aborts msg s.

Definition MFEM_VERIFY (c : bool) (msg : string) : M R unit :=
  if c then mret tt else MFEM_ABORT msg.

(** Use of a value that exists only when the access is defined. *)
Definition defined {A} (o : option A) : M R A :=
  match o with
  | Some a => mret a
  | None => fault
  end.

Definition get_this : M R (FindPointsGSLIB R) := fun s => Returns (this s) s.

Definition modify_this (f : FindPointsGSLIB R -> FindPointsGSLIB R) : M R unit :=
  fun s => Returns tt {| this := f (this s); heap := heap s; brk := brk s;
                         calls := calls s |}.

Definition set_mesh (m : option (Mesh R)) (t : FindPointsGSLIB R) :=
  {| mesh := m; ir_simplex := ir_simplex t; gsl_mesh := gsl_mesh t;
     fdata2D := fdata2D t; fdata3D := fdata3D t; dim := dim t;
     gsl_comm := gsl_comm t |}.

Definition set_ir_simplex (p : option nat) (t : FindPointsGSLIB R) :=
  {| mesh := mesh t; ir_simplex := p; gsl_mesh := gsl_mesh t;
     fdata2D := fdata2D t; fdata3D := fdata3D t; dim := dim t;
     gsl_comm := gsl_comm t |}.

Definition set_gsl_mesh (v : list R) (t : FindPointsGSLIB R) :=
  {| mesh := mesh t; ir_simplex := ir_simplex t; gsl_mesh := v;
     fdata2D := fdata2D t; fdata3D := fdata3D t; dim := dim t;
     gsl_comm := gsl_comm t |}.

Definition set_fdata2D (p : option nat) (t : FindPointsGSLIB R) :=
  {| mesh := mesh t; ir_simplex := ir_simplex t; gsl_mesh := gsl_mesh t;
     fdata2D := p; fdata3D := fdata3D t; dim := dim t;
     gsl_comm := gsl_comm t |}.

Definition set_fdata3D (p : option nat) (t : FindPointsGSLIB R) :=
  {| mesh := mesh t; ir_simplex := ir_simplex t; gsl_mesh := gsl_mesh t;
     fdata2D := fdata2D t; fdata3D := p; dim := dim t;
     gsl_comm := gsl_comm t |}.

Definition set_dim (d : Z) (t : FindPointsGSLIB R) :=
  {| mesh := mesh t; ir_simplex := ir_simplex t; gsl_mesh := gsl_mesh t;
     fdata2D := fdata2D t; fdata3D := fdata3D t; dim := d;
     gsl_comm := gsl_comm t |}.

(** [new T(...)] and [malloc]. *)
Definition new (o : object R) : M R nat :=
  fun s => Returns (brk s)
             {| this := this s; heap := <[brk s := o]> (heap s);
                brk := S (brk s); calls := calls s |}.

(** Release of the object at [p]; releasing what is not allocated is a fault. *)
Definition release (p : nat) : M R unit :=
  fun s => match heap s !! p with
           | Some _ => Returns tt {| this := this s; heap := delete p (heap s);
                                     brk := brk s; calls := calls s |}
           | None => Faults s
           end.

(** [delete p]: nothing for a NULL pointer. *)
Definition delete_ptr (p : option nat) : M R unit :=
  match p with
  | Some a => release a
  | None => mret tt
  end.

Definition load (p : nat) : M R (object R) :=
  fun s => match heap s !! p with
           | Some o => Returns o s
           | None => Faults s
           end.

Definition overwrite (p : nat) (o : object R) : M R unit :=
  fun s => match heap s !! p with
           | Some _ => Returns tt {| this := this s; heap := <[p := o]> (heap s);
                                     brk := brk s; calls := calls s |}
           | None => Faults s
           end.

Definition record_call (c : Call R) : M R unit :=
  fun s => Returns tt {| this := this s; heap := heap s; brk := brk s;
                         calls := calls s ++ [c] |}.

(** [a / b] on [int]: truncation, undefined for [b = 0]. *)
Definition int_div (a b : Z) : M R Z :=
  if (b =? 0)%Z then fault else mret (a ÷ b)%Z.

(** A count or offset that the callee takes as unsigned or adds to a
    pointer: a negative one leaves every array. *)
Definition as_index (z : Z) : M R nat :=
  if (z <? 0)%Z then fault else mret (Z.to_nat z).

(** [for (int i = lo; i < lo + n; i++)] over steps of the class. *)
Fixpoint for_each {St} (body : nat -> St -> M R St) (lo n : nat) (s : St) : M R St :=
  match n with
  | O => mret s
  | S n' => s' ← body lo s; for_each body (S lo) n' s'
  end.

(** *** The gslib entry points

    gslib is an external library: what its entry points compute for one
    point is a parameter ([findpts_point], [findpts_eval_point]); how they
    walk the caller's arrays is fixed by their interface. *)

(** Modelled from the spec: the structure behind a [findpts_data_2 *] or
    [findpts_data_3 *] handle of gslib.  A NULL handle, a released one and
    one of the other dimension cannot be used. *)
Definition the_findpts_data (D : nat) (fd : option nat) : M R (SetupArgs R) :=
  h ← defined fd;
  o ← load h;
  match o with
  | FindptsData args => if decide (sa_dim args = D) then mret args else fault
  | _ => fault
  end.

(** Modelled from the spec: [findpts_setup_2] and [findpts_setup_3] of
    gslib, which build a search structure from their arguments and return
    its handle. *)
Definition findpts_setup (D : nat) (args : SetupArgs R) : M R nat :=
  h ← new (FindptsData args);
  record_call (CallSetup D args h);;
  mret h.

(** Modelled from the spec: [findpts_free_2] and [findpts_free_3] of
    gslib, which release the structure behind the handle. *)
Definition findpts_free (D : nat) (fd : option nat) : M R unit :=
  record_call (CallFree D fd);;
  the_findpts_data D fd;;
  h ← defined fd;
  release h.

(** Modelled from the spec: what [findpts_2]/[findpts_3] of gslib do for
    query point [i].  Every array is given by a base pointer and a stride
    in bytes; coordinate [d] of the point is read [i * xv_stride[d]] bytes
    after [xv_base[d]]; the results are written [i * stride] bytes after the
    base of their array, the reference coordinates as [D] consecutive
    doubles. *)
Definition findpts_one (D : nat) (args : SetupArgs R)
    (code_stride proc_stride el_stride r_stride dist_stride : nat)
    (x : list R) (xv_base xv_stride : list nat)
    (i : nat) (q : QueryArrays R) : option (QueryArrays R) :=
  xi ← mapM (fun d => b ← xv_base !! d; st ← xv_stride !! d;
                      x !! at_stride b i st sizeof_double) (seq 0 D);
  let res := findpts_point args xi in
  c ← store (codes q) (at_stride 0 i code_stride sizeof_unsigned) (pr_code res);
  p ← store (proc_ids q) (at_stride 0 i proc_stride sizeof_unsigned) (pr_proc res);
  e ← store (elem_ids q) (at_stride 0 i el_stride sizeof_unsigned) (pr_el res);
  r ← for_loop (fun k r => store r (at_stride 0 i r_stride sizeof_double + k) (pr_r res k))
         0 D (ref_pos q);
  ds ← store (dist q) (at_stride 0 i dist_stride sizeof_double) (pr_dist res);
  Some {| codes := c; proc_ids := p; elem_ids := e; ref_pos := r; dist := ds |}.

(** Modelled from the spec: [findpts_2] and [findpts_3] of gslib, one
    result per query point, in query order. *)
Definition findpts (D : nat) (q : QueryArrays R)
    (code_stride proc_stride el_stride r_stride dist_stride : nat)
    (x : list R) (xv_base : list Z) (xv_stride : list nat)
    (npt : Z) (fd : option nat) : M R (QueryArrays R) :=
  record_call (CallFind D npt fd);;
  args ← the_findpts_data D fd;
  n ← as_index npt;
  bases ← mapM as_index xv_base;
  defined (for_loop (findpts_one D args code_stride proc_stride el_stride r_stride
                       dist_stride x bases xv_stride) 0 n q).

(** Modelled from the spec: what [findpts_eval_2]/[findpts_eval_3] of
    gslib do for point [i]: the query result is read [i * stride] bytes
    after the base of each array, and one value is written
    [i * out_stride] bytes after [out_base]. *)
Definition findpts_eval_one (D : nat) (args : SetupArgs R)
    (out_base out_stride : nat) (q : QueryArrays R)
    (code_stride proc_stride el_stride r_stride : nat)
    (node_vals : list R) (i : nat) (out : list R) : option (list R) :=
  c ← codes q !! at_stride 0 i code_stride sizeof_unsigned;
  p ← proc_ids q !! at_stride 0 i proc_stride sizeof_unsigned;
  e ← elem_ids q !! at_stride 0 i el_stride sizeof_unsigned;
  r ← mapM (fun k => ref_pos q !! (at_stride 0 i r_stride sizeof_double + k)) (seq 0 D);
  store out (at_stride out_base i out_stride sizeof_double)
        (findpts_eval_point args c p e r node_vals).

(** Modelled from the spec: [findpts_eval_2] and [findpts_eval_3] of
    gslib, one value per point for [npt] points. *)
Definition findpts_eval (D : nat) (out : list R) (out_off : Z) (out_stride : nat)
    (q : QueryArrays R) (code_stride proc_stride el_stride r_stride : nat)
    (npt : Z) (node_vals : list R) (fd : option nat) : M R (list R) :=
  record_call (CallEval D out_off npt node_vals fd);;
  args ← the_findpts_data D fd;
  n ← as_index npt;
  base ← as_index out_off;
  defined (for_loop (findpts_eval_one D args base out_stride q code_stride proc_stride
                       el_stride r_stride node_vals) 0 n out).

(** *** Constructor and destructor *)

(** [FindPointsGSLIB::FindPointsGSLIB()] on an empty heap. *)
Definition construct : State R :=
  {| this := {| mesh := None; ir_simplex := None; gsl_mesh := [];
                fdata2D := None; fdata3D := None; dim := (-1)%Z;
                gsl_comm := Some 0 |};
     heap := {[ 0 := Comm ]};
     brk := 1;
     calls := [] |}.

(** [FindPointsGSLIB::~FindPointsGSLIB()]. *)
Definition destruct_ : M R unit :=
  t ← get_this;
  delete_ptr (gsl_comm t);;
  delete_ptr (ir_simplex t).

(** *** [GetQuadHexNodalCoordinates] *)

(** [posV] is a view of the storage of [pos(dof_cnt, dim)]: the matrix
    holds the sub-vector as long as [GetSubVector] leaves the view at
    [dof_cnt * dim] entries. *)
Definition GetSubVector_pos (data : list R) (xdofs : list nat) (dof_cnt D : nat)
    : option (list R) :=
  posV ← GetSubVector data xdofs;
  if decide (length posV = dof_cnt * D) then Some posV else None.

(** The body of the loop over [j]: one node of one element. *)
Definition scatter_node (posV : list R) (dof_map : list nat)
    (dof_cnt pts_cnt D : nat) (j : nat) (st : list R * nat) : option (list R * nat) :=
  let '(buf, pt_id) := st in
  buf' ← for_loop (fun d buf =>
                     k ← dof_map !! j;
                     v ← DenseMatrix_at posV dof_cnt k d;
                     store buf (pts_cnt * d + pt_id) v) 0 D buf;
  Some (buf', S pt_id).

Definition GetQuadHexNodalCoordinates : M R unit :=
  t ← get_this;
  m ← defined (mesh t);
  let nodes := GetNodes m in
  _ ← defined nodes;              (* nodes->FESpace() *)
  let NE := GetNE m in
  let dof_cnt := GetDof (GetFE0 m) in
  let pts_cnt := NE * dof_cnt in
  let D := Z.to_nat (dim t) in
  modify_this (set_gsl_mesh (SetSize (D * pts_cnt) (gsl_mesh t)));;
  MFEM_VERIFY (bool_decide (is_Some (GetDofMap (GetFE0 m))))
              "TensorBasis FiniteElement expected.";;
  dof_map ← defined (GetDofMap (GetFE0 m));
  t ← get_this;
  '(buf, _) ← defined (
     for_loop (fun i st =>
                 let xdofs := GetElementVDofs m i in
                 data ← nodes;
                 posV ← GetSubVector_pos data xdofs dof_cnt D;
                 for_loop (scatter_node posV dof_map dof_cnt pts_cnt D) 0 dof_cnt st)
              0 NE (gsl_mesh t, 0));
  modify_this (set_gsl_mesh buf).

(** *** [GetSimplexNodalCoordinates] *)

Definition new_IntegrationRule (n : nat) : list (IntegrationPoint R) :=
  replicate n {| ip_x := zero; ip_y := zero; ip_z := zero; ip_weight := zero |}.

Definition set_x (v : R) (ip : IntegrationPoint R) :=
  {| ip_x := v; ip_y := ip_y ip; ip_z := ip_z ip; ip_weight := ip_weight ip |}.
Definition set_y (v : R) (ip : IntegrationPoint R) :=
  {| ip_x := ip_x ip; ip_y := v; ip_z := ip_z ip; ip_weight := ip_weight ip |}.
Definition set_z (v : R) (ip : IntegrationPoint R) :=
  {| ip_x := ip_x ip; ip_y := ip_y ip; ip_z := v; ip_weight := ip_weight ip |}.

(** [ir_simplex->IntPoint(i).c = v]. *)
Definition set_IntPoint (setter : R -> IntegrationPoint R -> IntegrationPoint R)
    (i : nat) (v : R) (ir : list (IntegrationPoint R))
    : option (list (IntegrationPoint R)) :=
  ip ← ir !! i;
  Some (<[i := setter v ip]> ir).

(** The body of the loop over [j] that fills [irlist] and [*ir_simplex]. *)
Definition reference_node (posV : list R) (dof_map : list nat)
    (dof_cnt pts_cnt D : nat) (dim_ : Z) (j : nat)
    (st : list R * list (IntegrationPoint R) * nat)
    : option (list R * list (IntegrationPoint R) * nat) :=
  let '(irlist, ir, pt_id) := st in
  irlist ← for_loop (fun d irlist =>
                       k ← dof_map !! j;
                       v ← DenseMatrix_at posV dof_cnt k d;
                       store irlist (pts_cnt * d + pt_id) v) 0 D irlist;
  vx ← irlist !! pt_id;
  ir ← set_IntPoint set_x pt_id vx ir;
  vy ← irlist !! (pts_cnt + pt_id);
  ir ← set_IntPoint set_y pt_id vy ir;
  ir ← (if (dim_ =? 3)%Z
        then vz ← irlist !! (2 * pts_cnt + pt_id); set_IntPoint set_z pt_id vz ir
        else Some ir);
  Some (irlist, ir, S pt_id).

(** "Create an IntegrationRule on the nodes of the reference submesh":
    the loop over the sub-elements. *)
Definition reference_rule (msplit : Mesh R) (dof_map : list nat)
    (NEsplit dof_cnt pts_cnt D : nat) (dim_ : Z)
    (irlist : list R) (ir : list (IntegrationPoint R))
    : option (list R * list (IntegrationPoint R) * nat) :=
  for_loop (fun i st =>
              let xdofs := GetElementVDofs msplit i in
              data ← GetNodes msplit;
              posV ← GetSubVector_pos data xdofs dof_cnt D;
              for_loop (reference_node posV dof_map dof_cnt pts_cnt D dim_) 0 dof_cnt st)
           0 NEsplit (irlist, ir, 0).

(** The body of the loop over [i] of "Initialize gsl_mesh with the
    positions of the split physical elements". *)
Definition physical_node (m : Mesh R) (ir : list (IntegrationPoint R))
    (tot_pts_cnt D : nat) (j i : nat) (st : list R * nat) : option (list R * nat) :=
  let '(buf, pt_id) := st in
  ip ← ir !! i;
  _ ← GetNodes m;
  let locval := GetVectorValue m j ip in
  buf' ← for_loop (fun d buf => v ← locval !! d;
                                store buf (tot_pts_cnt * d + pt_id) v) 0 D buf;
  Some (buf', S pt_id).

Definition physical_nodes (m : Mesh R) (ir : list (IntegrationPoint R))
    (NE NEsplit dof_cnt tot_pts_cnt D : nat) (buf : list R) : option (list R * nat) :=
  for_loop (fun j st =>
              for_loop (physical_node m ir tot_pts_cnt D j) 0 (dof_cnt * NEsplit) st)
           0 NE (buf, 0).

Definition GetSimplexNodalCoordinates : M R unit :=
  t ← get_this;
  m ← defined (mesh t);
  let fe := GetFE0 m in
  let gt := GetGeomType fe in
  let NE := GetNE m in
  let D := Z.to_nat (dim t) in
  (* Split the reference element into a reference submesh of quads or hexes. *)
  '(mb, NEsplit) ← defined (split_reference gt);
  meshsplit ← new (SubMesh mb);
  (* Curve the reference submesh. *)
  msplit ← match SetNodalFESpace mb (GetOrder fe) (dim t) with
           | inl msg => MFEM_ABORT msg
           | inr msplit => mret msplit
           end;
  let dof_cnt := GetDof (GetFE0 msplit) in
  let pts_cnt := NEsplit * dof_cnt in
  let irlist := replicate (D * pts_cnt) undef in
  MFEM_VERIFY (bool_decide (is_Some (GetDofMap (GetFE0 msplit))))
              "TensorBasis FiniteElement expected.";;
  dof_map ← defined (GetDofMap (GetFE0 msplit));
  (* Create an IntegrationRule on the nodes of the reference submesh. *)
  p ← new (IntegrationRule (new_IntegrationRule pts_cnt));
  modify_this (set_ir_simplex (Some p));;
  '(_, ir, _) ← defined (reference_rule msplit dof_map NEsplit dof_cnt pts_cnt D (dim t)
                           irlist (new_IntegrationRule pts_cnt));
  overwrite p (IntegrationRule ir);;
  (* Initialize gsl_mesh with the positions of the split physical elements. *)
  let tot_pts_cnt := pts_cnt * NE in
  modify_this (set_gsl_mesh (SetSize (tot_pts_cnt * D) (gsl_mesh t)));;
  t ← get_this;
  '(buf, _) ← defined (physical_nodes m ir NE NEsplit dof_cnt tot_pts_cnt D (gsl_mesh t));
  modify_this (set_gsl_mesh buf);;
  release meshsplit.

(** *** [Setup] *)

(** [(int)pow(dof1D, dim)]. *)
Definition int_pow (b : Z) (e : Z) : Z := (b ^ e)%Z.

Definition Setup (m : Mesh R) (bb_t newt_tol : R) (npt_max : Z) : M R unit :=
  MFEM_VERIFY (bool_decide (is_Some (GetNodes m))) "Mesh nodes are required.";;
  MFEM_VERIFY (GetNumGeometries m =? 1)%Z
              "Mixed meshes are not currently supported in FindPointsGSLIB.";;
  modify_this (set_mesh (Some m));;
  modify_this (set_dim (Dimension m));;
  let fe := GetFE0 m in
  let dof1D := to_unsigned (GetOrder fe + 1) in
  let gt := GetGeomType fe in
  match gt with
  | Geometry.TRIANGLE | Geometry.TETRAHEDRON | Geometry.PRISM =>
      GetSimplexNodalCoordinates
  | Geometry.SQUARE | Geometry.CUBE =>
      GetQuadHexNodalCoordinates
  | _ => MFEM_ABORT "Element type not currently supported in FindPointsGSLIB."
  end;;
  t ← get_this;
  pts_cnt ← int_div (Z.of_nat (length (gsl_mesh t))) (dim t);
  NEtot ← int_div pts_cnt (int_pow dof1D (dim t));
  if (dim t =? 2)%Z then
    let nr := [dof1D; dof1D] in
    let mr := [to_unsigned (2 * dof1D); to_unsigned (2 * dof1D)] in
    let elx := [0; pts_cnt]%Z in
    fd ← findpts_setup 2 {| sa_dim := 2; sa_elx := elx; sa_mesh := gsl_mesh t;
                            sa_nr := nr; sa_nel := NEtot; sa_mr := mr;
                            sa_bbox_tol := bb_t;
                            sa_local_hash_size := pts_cnt;
                            sa_global_hash_size := pts_cnt;
                            sa_npt_max := npt_max; sa_newt_tol := newt_tol |};
    modify_this (set_fdata2D (Some fd))
  else
    let nr := [dof1D; dof1D; dof1D] in
    let mr := [to_unsigned (2 * dof1D); to_unsigned (2 * dof1D);
               to_unsigned (2 * dof1D)] in
    let elx := [0; pts_cnt; 2 * pts_cnt]%Z in
    fd ← findpts_setup 3 {| sa_dim := 3; sa_elx := elx; sa_mesh := gsl_mesh t;
                            sa_nr := nr; sa_nel := NEtot; sa_mr := mr;
                            sa_bbox_tol := bb_t;
                            sa_local_hash_size := pts_cnt;
                            sa_global_hash_size := pts_cnt;
                            sa_npt_max := npt_max; sa_newt_tol := newt_tol |};
    modify_this (set_fdata3D (Some fd)).

(** *** [FindPoints] *)

Definition FindPoints (point_pos : list R) (q : QueryArrays R) : M R (QueryArrays R) :=
  t ← get_this;
  points_cnt ← int_div (Z.of_nat (length point_pos)) (dim t);
  if (dim t =? 2)%Z then
    let xv_base := [0; points_cnt]%Z in
    let xv_stride := [sizeof_double; sizeof_double] in
    findpts 2 q sizeof_unsigned sizeof_unsigned sizeof_unsigned
            (sizeof_double * Z.to_nat (dim t)) sizeof_double
            point_pos xv_base xv_stride points_cnt (fdata2D t)
  else
    let xv_base := [0; points_cnt; 2 * points_cnt]%Z in
    let xv_stride := [sizeof_double; sizeof_double; sizeof_double] in
    findpts 3 q sizeof_unsigned sizeof_unsigned sizeof_unsigned
            (sizeof_double * Z.to_nat (dim t)) sizeof_double
            point_pos xv_base xv_stride points_cnt (fdata3D t).

(** *** [GetNodeValues] *)

(** [gf_in] is the scalar grid function whose data starts at [gf_in]. *)
Definition GetNodeValues (gf_in : list R) (node_vals : list R) : M R (list R) :=
  t ← get_this;
  m ← defined (mesh t);
  let fe := GetFE0 m in
  let gt := GetGeomType fe in
  let NE := GetNE m in
  match gt with
  | Geometry.SQUARE | Geometry.CUBE =>
      _ ← defined (GetNodes m);
      let ir := GetNodesIR (GetFE0 m) in
      let dof_cnt := length ir in
      let node_vals := SetSize (NE * dof_cnt) node_vals in
      MFEM_VERIFY (bool_decide (is_Some (GetDofMap (GetFE0 m))))
                  "TensorBasis FiniteElement expected.";;
      dof_map ← defined (GetDofMap (GetFE0 m));
      '(node_vals, _) ← defined (
         for_loop (fun i st =>
                     let vals_el := GetValues m gf_in i ir in
                     for_loop (fun j '(node_vals, pt_id) =>
                                 k ← dof_map !! j;
                                 v ← vals_el !! k;
                                 nv ← store node_vals pt_id v;
                                 Some (nv, S pt_id)) 0 dof_cnt st)
                  0 NE (node_vals, 0));
      mret node_vals
  | Geometry.TRIANGLE | Geometry.TETRAHEDRON | Geometry.PRISM =>
      p ← defined (ir_simplex t);
      o ← load p;
      ir ← match o with IntegrationRule ir => mret ir | _ => fault end;
      let dof_cnt := length ir in
      let node_vals := SetSize (NE * dof_cnt) node_vals in
      '(node_vals, _) ← defined (
         for_loop (fun j st =>
                     let vals_el := GetValues m gf_in j ir in
                     for_loop (fun i '(node_vals, pt_id) =>
                                 v ← vals_el !! i;
                                 nv ← store node_vals pt_id v;
                                 Some (nv, S pt_id)) 0 dof_cnt st)
                  0 NE (node_vals, 0));
      mret node_vals
  | _ => MFEM_ABORT "Element type not currently supported."
  end.

(** *** [Interpolate] *)

(** One turn of the loop over the components. *)
Definition Interpolate_component (q : QueryArrays R) (field_in : GridFunction R)
    (points_cnt : Z) (i : nat) (st : list R * list R) : M R (list R * list R) :=
  let '(node_vals, field_out) := st in
  t ← get_this;
  let dataptr := (Z.of_nat i * points_cnt)%Z in
  off ← as_index dataptr;
  let field_in_scalar := drop off (gf_data field_in) in
  node_vals ← GetNodeValues field_in_scalar node_vals;
  field_out ←
    (if (dim t =? 2)%Z then
       findpts_eval 2 field_out dataptr sizeof_double q
                    sizeof_unsigned sizeof_unsigned sizeof_unsigned
                    (sizeof_double * Z.to_nat (dim t))
                    points_cnt node_vals (fdata2D t)
     else
       findpts_eval 3 field_out dataptr sizeof_double q
                    sizeof_unsigned sizeof_unsigned sizeof_unsigned
                    (sizeof_double * Z.to_nat (dim t))
                    points_cnt node_vals (fdata3D t));
  mret (node_vals, field_out).

Definition Interpolate (q : QueryArrays R) (field_in : GridFunction R)
    (field_out : list R) : M R (list R) :=
  t ← get_this;
  m ← defined (mesh t);
  _ ← defined (GetNodes m);       (* mesh->GetNodalFESpace()-> *)
  (* H1_FECollection ind_fec(order, dim); FiniteElementSpace ind_fes(mesh, &ind_fec);
     field_in_scalar.SetSpace(&ind_fes); *)
  _ ← match H1_FECollection (GetOrder (GetFE0 m)) (dim t) with
      | inl msg => MFEM_ABORT msg
      | inr u => mret u
      end;
  let node_vals := [] in
  let ncomp := gf_VDim field_in in
  points_cnt ← int_div (Z.of_nat (length (gf_data field_in))) ncomp;
  '(_, field_out) ← for_each (Interpolate_component q field_in points_cnt)
                       0 (Z.to_nat ncomp) (node_vals, field_out);
  mret field_out.

(** *** [FreeData] *)

Definition FreeData : M R unit :=
  t ← get_this;
  (if (dim t =? 2)%Z then findpts_free 2 (fdata2D t)
   else findpts_free 3 (fdata3D t));;
  (* gsl_mesh.Destroy() *)
  modify_this (set_gsl_mesh []).

End Class.

(** ** A small instance to run the class on

    Doubles are rationals; the finite-element library is played by a
    first-order one: the nodes of a sub-mesh are its vertices, listed by
    coordinate, and the geometric map of the example elements is the
    identity of the reference element. *)

Module Example.

(** Lexicographic to native numbering of the four nodes of a bilinear
    quadrilateral. *)
Definition quad_dof_map : list nat := [0; 1; 3; 2].

Definition unit_square_ir : list (IntegrationPoint Q) :=
  [ {| ip_x := 0; ip_y := 0; ip_z := 0; ip_weight := 0 |};
    {| ip_x := 1; ip_y := 0; ip_z := 0; ip_weight := 0 |};
    {| ip_x := 1; ip_y := 1; ip_z := 0; ip_weight := 0 |};
    {| ip_x := 0; ip_y := 1; ip_z := 0; ip_weight := 0 |} ]%Q.

(** The sub-mesh with first-order nodes: coordinate [d] of vertex [v] is
    entry [d * Nvert + v] of the nodal data. *)
Definition first_order_nodes (mb : MeshBuilder) (order dimz : Z) : string + Mesh Q :=
  if (order =? 1)%Z then
    let D := Z.to_nat dimz in
    let nv := length (mb_vertices mb) in
    inr {| GetNodes := Some (flat_map (fun d => map (fun v => nth d v 0%Q) (mb_vertices mb))
                                      (seq 0 D));
           GetNumGeometries := 1;
           Dimension := dimz;
           GetNE := length (mb_elements mb);
           GetFE0 := {| GetOrder := 1;
                        GetGeomType := if (dimz =? 2)%Z then Geometry.SQUARE
                                       else Geometry.CUBE;
                        GetDof := if (dimz =? 2)%Z then 4 else 8;
                        GetDofMap := if (dimz =? 2)%Z then Some quad_dof_map
                                     else Some [0; 1; 3; 2; 4; 5; 7; 6];
                        GetNodesIR := [] |};
           GetElementVDofs := fun i =>
             match mb_elements mb !! i with
             | Some (vi, _) => flat_map (fun d => map (fun v => d * nv + v) vi) (seq 0 D)
             | None => []
             end;
           GetVectorValue := fun _ ip => [ip_x ip; ip_y ip; ip_z ip] |}
  else inl "H1_FECollection requires order >= 1."%string.

#[global] Instance Q_collaborators : Collaborators Q := {|
  zero := 0%Q;
  undef := (-1)%Q;
  SetNodalFESpace := first_order_nodes;
  H1_FECollection := fun order _ =>
    if (order <? 1)%Z then inl "H1_FECollection requires order >= 1."%string
    else inr tt;
  GetValues := fun m data i ir =>
    map (fun ip => (nth i data 0 + ip_x ip + ip_y ip)%Q) ir;
  findpts_point := fun args x =>
    {| pr_code := 0%N; pr_proc := 0%N; pr_el := 0%N;
       pr_r := fun k => nth k x 0%Q; pr_dist := 0%Q |};
  findpts_eval_point := fun args c p e r node_vals =>
    nth (N.to_nat e) node_vals 0%Q
|}.

(** One bilinear quadrilateral, the unit square. *)
Definition unit_square : Mesh Q :=
  {| GetNodes := Some [0; 1; 1; 0;  0; 0; 1; 1]%Q;
     GetNumGeometries := 1;
     Dimension := 2;
     GetNE := 1;
     GetFE0 := {| GetOrder := 1; GetGeomType := Geometry.SQUARE; GetDof := 4;
                  GetDofMap := Some quad_dof_map; GetNodesIR := unit_square_ir |};
     GetElementVDofs := fun _ => [0; 1; 2; 3; 4; 5; 6; 7];
     GetVectorValue := fun _ ip => [ip_x ip; ip_y ip] |}.


(** One straight triangle, the reference triangle. *)
Definition unit_triangle : Mesh Q :=
  {| GetNodes := Some [0; 1; 0;  0; 0; 1]%Q;
     GetNumGeometries := 1;
     Dimension := 2;
     GetNE := 1;
     GetFE0 := {| GetOrder := 1; GetGeomType := Geometry.TRIANGLE; GetDof := 3;
                  GetDofMap := None;
                  GetNodesIR := [] |};
     GetElementVDofs := fun _ => [0; 1; 2; 3; 4; 5];
     GetVectorValue := fun _ ip => [ip_x ip; ip_y ip] |}.


(** The unit square without a nodal grid function. *)
Definition no_nodes : Mesh Q :=
  {| GetNodes := None;
     GetNumGeometries := 1;
     Dimension := 2;
     GetNE := 1;
     GetFE0 := GetFE0 unit_square;
     GetElementVDofs := GetElementVDofs unit_square;
     GetVectorValue := GetVectorValue unit_square |}.

Definition state_of {S A} (o : outcome S A) : S :=
  match o with
  | Returns _ s => s
  | Aborts _ s => s
  | Faults s => s
  end.

(** The instance after [Setup] on the unit square, and on the triangle. *)
Definition ready_square : State Q :=
  state_of (Setup unit_square (1#10) (1#1000) 256 construct).

Definition ready_triangle : State Q :=
  state_of (Setup unit_triangle (1#10) (1#1000) 256 construct).

(** One query point, with room for one result. *)
Definition one_point : QueryArrays Q :=
  {| codes := [2%N]; proc_ids := [0%N]; elem_ids := [0%N];
     ref_pos := [0; 0]%Q; dist := [0]%Q |}.

(** Room for [n] query results. *)
Definition room_for (n : nat) : QueryArrays Q :=
  {| codes := replicate n 2%N; proc_ids := replicate n 0%N;
     elem_ids := replicate n 0%N; ref_pos := replicate (2 * n) 0%Q;
     dist := replicate n 0%Q |}.

(** A query buffer of five entries for a two-dimensional mesh. *)
Definition five_entries : list Q := [1#4; 3#4; 1#2; 1#4; 3#4]%Q.

(** A scalar field on the unit square: one value per node. *)
Definition field4 : GridFunction Q := {| gf_data := [1; 2; 3; 4]%Q; gf_VDim := 1 |}.

End Example.


(** ** Specification vocabulary *)

Section Vocabulary.
Context {R : Type} `{!Collaborators R}.

(** Coordinate [d] of the node in lexicographic slot [j] of element [i]:
    what [pos(dof_map[j], d)] holds after [GetSubVector] on the element's
    vector dofs. *)
Definition nodal_coordinate (m : Mesh R) (D : nat) (i j d : nat) : option R :=
  data ← GetNodes m;
  posV ← GetSubVector_pos data (GetElementVDofs m i) (GetDof (GetFE0 m)) D;
  dof_map ← GetDofMap (GetFE0 m);
  k ← dof_map !! j;
  DenseMatrix_at posV (GetDof (GetFE0 m)) k d.

(** Coordinate [d] of the image of reference point [i] of the table [ir]
    under the geometric map of element [j]. *)
Definition physical_coordinate (m : Mesh R) (ir : list (IntegrationPoint R))
    (j i d : nat) : option R :=
  ip ← ir !! i;
  GetVectorValue m j ip !! d.

(** The point of the integration-point table for lexicographic slot [j] of
    sub-element [e] of the curved reference sub-mesh [msplit]. *)
Definition reference_point (msplit : Mesh R) (D : nat) (dim_ : Z) (e j : nat)
    : option (IntegrationPoint R) :=
  vx ← nodal_coordinate msplit D e j 0;
  vy ← nodal_coordinate msplit D e j 1;
  vz ← (if (dim_ =? 3)%Z then nodal_coordinate msplit D e j 2 else Some zero);
  Some {| ip_x := vx; ip_y := vy; ip_z := vz; ip_weight := zero |}.

(** [ir], read as [cnt] points per sub-element, holds the reference point
    of every slot below [n] and is untouched from [n] on. *)
Definition tabulated (msplit : Mesh R) (D : nat) (dim_ : Z) (cnt P : nat)
    (n : nat) (ir : list (IntegrationPoint R)) : Prop :=
  length ir = P /\
  (forall e j, j < cnt -> e * cnt + j < n ->
     exists ip, reference_point msplit D dim_ e j = Some ip /\
                ir !! (e * cnt + j) = Some ip) /\
  (forall k, n <= k -> k < P ->
     ir !! k = Some {| ip_x := zero; ip_y := zero; ip_z := zero; ip_weight := zero |}).

(** [buf], read as [cnt] points per element and [P] points per axis, holds
    [E i j d] for every point below [n]. *)
Definition filled (P D cnt : nat) (E : nat -> nat -> nat -> option R)
    (n : nat) (buf : list R) : Prop :=
  forall i j d, j < cnt -> i * cnt + j < n -> d < D ->
    exists v, E i j d = Some v /\ buf !! (P * d + (i * cnt + j)) = Some v.

(** The coordinates of point [i] in a dimension-major buffer of [n]
    points: all abscissae first, then all ordinates, then all heights. *)
Definition query_point (point_pos : list R) (n D i : nat) : option (list R) :=
  mapM (fun d => point_pos !! (d * n + i)) (seq 0 D).

(** The engine variant the methods select, and the structure they pass:
    [..._2] with [fdata2D] when [dim == 2], [..._3] with [fdata3D] otherwise. *)
Definition engine_dim (t : FindPointsGSLIB R) : nat :=
  if (dim t =? 2)%Z then 2 else 3.

Definition engine_data (t : FindPointsGSLIB R) : option nat :=
  if (dim t =? 2)%Z then fdata2D t else fdata3D t.

(** The reference coordinates of query result [k] as [Interpolate] hands
    them to the engine: [D] consecutive entries, [dim] entries apart. *)
Definition result_coordinates (q : QueryArrays R) (dim_ : Z) (D k : nat)
    : option (list R) :=
  mapM (fun j => ref_pos q !! (k * Z.to_nat dim_ + j)) (seq 0 D).

(** A step that returns without changing the state, and returns the same
    from any state with the same instance and heap. *)
Definition reads_only {A} (c : M R A) : Prop :=
  forall (s u : State R) a u', this u = this s -> heap u = heap s ->
    c u = Returns a u' -> u' = u /\ c s = Returns a s.

(** No address at or above the allocation mark is in use. *)
Definition heap_ok (s : State R) : Prop :=
  forall p, brk s <= p -> heap s !! p = None.

(** The search structures that are allocated. *)
Definition is_findpts_data (o : object R) : bool :=
  match o with
  | FindptsData _ => true
  | _ => false
  end.

Definition live_findpts_data (s : State R) : list nat :=
  map fst (filter (fun kv => is_findpts_data (snd kv) = true) (map_to_list (heap s))).

Definition is_IntegrationRule (o : object R) : bool :=
  match o with
  | IntegrationRule _ => true
  | _ => false
  end.

Definition live_IntegrationRules (s : State R) : list nat :=
  map fst (filter (fun kv => is_IntegrationRule (snd kv) = true) (map_to_list (heap s))).

Definition returns {A} (o : outcome (State R) A) : bool :=
  match o with
  | Returns _ _ => true
  | _ => false
  end.

Definition aborts {A} (o : outcome (State R) A) : bool :=
  match o with
  | Aborts _ _ => true
  | _ => false
  end.

Definition faults {A} (o : outcome (State R) A) : bool :=
  match o with
  | Faults _ => true
  | _ => false
  end.

Definition final {A} (o : outcome (State R) A) : State R :=
  match o with
  | Returns _ s => s
  | Aborts _ s => s
  | Faults s => s
  end.

(** A step that, from state [s], neither aborts nor changes the state. *)
Definition quiet {A} (s : State R) (c : M R A) : Prop :=
  aborts (c s) = false /\ final (c s) = s.

(** A nodal space of tensor-product elements that is consistent for [NE]
    elements in [D] dimensions: the dof map is a map on the dofs of an
    element, every element has [GetDof * D] vector dofs, all of them entries
    of the nodal data. *)
Definition consistent_nodes (m : Mesh R) (D NE : nat) : Prop :=
  let dof_cnt := GetDof (GetFE0 m) in
  exists data dof_map,
    GetNodes m = Some data /\
    GetDofMap (GetFE0 m) = Some dof_map /\
    (forall j, j < dof_cnt -> exists k, dof_map !! j = Some k /\ k < dof_cnt) /\
    (forall i, i < NE ->
       length (GetElementVDofs m i) = dof_cnt * D /\
       Forall (fun v => v < length data) (GetElementVDofs m i)).

(** A consistent mesh of quadrilaterals or hexahedra. *)
Definition tensor_mesh (m : Mesh R) : Prop :=
  GetNumGeometries m = 1%Z /\
  (GetGeomType (GetFE0 m) = Geometry.SQUARE \/ GetGeomType (GetFE0 m) = Geometry.CUBE) /\
  (Dimension m = 2%Z \/ Dimension m = 3%Z) /\
  (0 <= GetOrder (GetFE0 m) < 2 ^ 32 - 1)%Z /\
  consistent_nodes m (Z.to_nat (Dimension m)) (GetNE m).

(** A mesh of triangles, tetrahedra or prisms with a nodal grid function
    whose geometric map gives [dim] coordinates, for an order at which the
    library builds a consistent curved sub-mesh. *)
Definition simplex_mesh (m : Mesh R) : Prop :=
  is_Some (GetNodes m) /\
  GetNumGeometries m = 1%Z /\
  (Dimension m = 2%Z \/ Dimension m = 3%Z) /\
  (0 <= GetOrder (GetFE0 m) < 2 ^ 32 - 1)%Z /\
  (forall j ip, j < GetNE m ->
     Z.to_nat (Dimension m) <= length (GetVectorValue m j ip)) /\
  exists mb NEsplit msplit,
    split_reference (GetGeomType (GetFE0 m)) = Some (mb, NEsplit) /\
    SetNodalFESpace mb (GetOrder (GetFE0 m)) (Dimension m) = inr msplit /\
    consistent_nodes msplit (Z.to_nat (Dimension m)) NEsplit.

End Vocabulary.

(** ** Further vocabulary *)

Section FurtherVocabulary.
Context {R : Type} `{!Collaborators R}.

(** What the engine finds for point [i] of a dimension-major buffer of [n]
    points. *)
Definition point_result (args : SetupArgs R) (point_pos : list R) (n D i : nat)
    : option (PointResult R) :=
  findpts_point args <$> query_point point_pos n D i.

(** [buf], read as [cnt] values per element, holds [E i j] for every value
    below [n] and is as [buf0] from [n] on. *)
Definition gathered (cnt : nat) (E : nat -> nat -> option R) (n : nat)
    (buf0 buf : list R) : Prop :=
  length buf = length buf0 /\
  (forall i j, j < cnt -> i * cnt + j < n ->
     exists v, E i j = Some v /\ buf !! (i * cnt + j) = Some v) /\
  (forall k, n <= k -> buf !! k = buf0 !! k).

(** The value of the scalar field at the node in lexicographic slot [j] of
    element [i], as [GetNodeValues] reads it on quadrilaterals and
    hexahedra: [vals_el(dof_map[j])] after [GetValues(i, ir, vals_el)]. *)
Definition nodal_value (m : Mesh R) (gf_in : list R) (i j : nat) : option R :=
  dof_map ← GetDofMap (GetFE0 m);
  k ← dof_map !! j;
  GetValues m gf_in i (GetNodesIR (GetFE0 m)) !! k.

(** The value at point [i] of the table [ir] in element [j]:
    [vals_el(i)] after [GetValues(j, *ir_simplex, vals_el)]. *)
Definition table_value (m : Mesh R) (gf_in : list R) (ir : list (IntegrationPoint R))
    (j i : nat) : option R :=
  GetValues m gf_in j ir !! i.

(** The arguments of [findpts_setup_2] and [findpts_setup_3] for a point
    cloud [cloud] of [pts_cnt] points and [dof1D] nodes per direction. *)
Definition setup_arguments (D : nat) (dim_ : Z) (cloud : list R) (pts_cnt dof1D : Z)
    (bb_t newt_tol : R) (npt_max : Z) : SetupArgs R :=
  {| sa_dim := D;
     sa_elx := take D [0; pts_cnt; 2 * pts_cnt]%Z;
     sa_mesh := cloud;
     sa_nr := replicate D dof1D;
     sa_nel := (pts_cnt ÷ dof1D ^ dim_)%Z;
     sa_mr := replicate D (2 * dof1D)%Z;
     sa_bbox_tol := bb_t;
     sa_local_hash_size := pts_cnt;
     sa_global_hash_size := pts_cnt;
     sa_npt_max := npt_max;
     sa_newt_tol := newt_tol |}.

(** The handle that the methods would pass to the engine is NULL or has
    been released. *)
Definition handle_dangling (s : State R) : Prop :=
  match engine_data (this s) with
  | Some fd => heap s !! fd = None
  | None => True
  end.

(** No search structure is allocated. *)
Definition no_findpts_data (s : State R) : Prop :=
  forall p args, heap s !! p <> Some (FindptsData args).

(** One search structure is allocated: the one of the instance's
    dimension, to which the instance refers. *)
Definition one_findpts_data (s : State R) : Prop :=
  exists fd args,
    engine_data (this s) = Some fd /\
    heap s !! fd = Some (FindptsData args) /\
    sa_dim args = engine_dim (this s) /\
    forall p args', heap s !! p = Some (FindptsData args') -> p = fd.

(** The message with which [Setup] refuses a mesh, in the order of its
    checks: the nodes, the number of geometries, the geometry, and the
    basis; on triangles, tetrahedra and prisms the library may refuse to
    curve the reference sub-mesh before the basis is examined. *)
Definition Setup_refusal (m : Mesh R) : option string :=
  match GetNodes m with
  | None => Some "Mesh nodes are required."%string
  | Some _ =>
      if (GetNumGeometries m =? 1)%Z then
        match GetGeomType (GetFE0 m) with
        | Geometry.SQUARE | Geometry.CUBE =>
            match GetDofMap (GetFE0 m) with
            | None => Some "TensorBasis FiniteElement expected."%string
            | Some _ => None
            end
        | Geometry.TRIANGLE | Geometry.TETRAHEDRON | Geometry.PRISM =>
            match split_reference (GetGeomType (GetFE0 m)) with
            | Some (mb, _) =>
                match SetNodalFESpace mb (GetOrder (GetFE0 m)) (Dimension m) with
                | inl msg => Some msg
                | inr msplit =>
                    match GetDofMap (GetFE0 msplit) with
                    | None => Some "TensorBasis FiniteElement expected."%string
                    | Some _ => None
                    end
                end
            | None => None
            end
        | _ => Some "Element type not currently supported in FindPointsGSLIB."%string
        end
      else Some "Mixed meshes are not currently supported in FindPointsGSLIB."%string
  end.

End FurtherVocabulary.

(** ** A further example *)

Module Scenario.

(** One quadrilateral whose element reports order -1. *)
Definition order_minus1_square : Mesh Q :=
  {| GetNodes := GetNodes Example.unit_square;
     GetNumGeometries := 1;
     Dimension := 2;
     GetNE := 1;
     GetFE0 := {| GetOrder := -1; GetGeomType := Geometry.SQUARE; GetDof := 4;
                  GetDofMap := Some Example.quad_dof_map;
                  GetNodesIR := Example.unit_square_ir |};
     GetElementVDofs := GetElementVDofs Example.unit_square;
     GetVectorValue := GetVectorValue Example.unit_square |}.


End Scenario.

(** * Properties *)

(** ** Loops *)

Section Loops.
Context {St : Type}.
Implicit Types (body : nat -> St -> option St).

Lemma for_loop_inv (I : nat -> St -> Prop) body lo n s s' :
  for_loop body lo n s = Some s' ->
  I lo s ->
  (forall k t t', lo <= k < lo + n -> I k t -> body k t = Some t' -> I (S k) t') ->
  I (lo + n) s'.
Proof.
  revert lo s. induction n as [|n IH]; intros lo s Hrun H0 Hstep; simpl in Hrun.
  - injection Hrun as <-. by rewrite Nat.add_0_r.
  - destruct (body lo s) as [s1|] eqn:Hb; [|done].
    replace (lo + S n) with (S lo + n) by lia.
    apply (IH (S lo) s1 Hrun).
    + apply (Hstep lo s s1); [lia|done|done].
    + intros k t t' Hk. apply Hstep. lia.
Qed.

Lemma for_loop_total (I : nat -> St -> Prop) body lo n s :
  I lo s ->
  (forall k t, lo <= k < lo + n -> I k t -> exists t', body k t = Some t' /\ I (S k) t') ->
  exists s', for_loop body lo n s = Some s' /\ I (lo + n) s'.
Proof.
  revert lo s. induction n as [|n IH]; intros lo s H0 Hstep; simpl.
  - exists s. by rewrite Nat.add_0_r.
  - destruct (Hstep lo s) as (s1 & -> & H1); [lia|done|].
    replace (lo + S n) with (S lo + n) by lia.
    apply IH; [done|]. intros k t Hk. apply Hstep. lia.
Qed.

Lemma for_loop_ext body1 body2 lo n s :
  (forall k t, lo <= k < lo + n -> body1 k t = body2 k t) ->
  for_loop body1 lo n s = for_loop body2 lo n s.
Proof.
  revert lo s. induction n as [|n IH]; intros lo s Hext; simpl; [done|].
  rewrite Hext by lia. destruct (body2 lo s); [|done]. apply IH.
  intros k t Hk. apply Hext. lia.
Qed.

End Loops.

(** ** Steps of the class *)

Section Steps.
Context {R : Type} `{!Collaborators R}.

Lemma bind_Returns {A B} (m : M R A) (f : A -> M R B) s b s' :
  (m ≫= f) s = Returns b s' <->
  exists a s1, m s = Returns a s1 /\ f a s1 = Returns b s'.
Proof.
  unfold mbind, M_bind. split.
  - destruct (m s) as [a s1| |]; [eauto|done|done].
  - intros (a & s1 & -> & Hf). done.
Qed.

Lemma bind_Returns_ex {A B} (m : M R A) (f : A -> M R B) s b a s1 :
  m s = Returns a s1 ->
  (exists s', f a s1 = Returns b s') ->
  exists s', (m ≫= f) s = Returns b s'.
Proof. intros Hm [s' Hf]. exists s'. apply bind_Returns. eauto. Qed.

Lemma bind_Aborts {A B} (m : M R A) (f : A -> M R B) s msg s' :
  (m ≫= f) s = Aborts msg s' <->
  m s = Aborts msg s' \/ exists a s1, m s = Returns a s1 /\ f a s1 = Aborts msg s'.
Proof.
  unfold mbind, M_bind. split.
  - destruct (m s) as [a s1| |]; [eauto|left; congruence|done].
  - intros [-> | (a & s1 & -> & Hf)]; done.
Qed.

Lemma defined_Returns {A} (o : option A) (s : State R) a s' :
  defined o s = Returns a s' <-> o = Some a /\ s' = s.
Proof.
  destruct o; simpl; unfold mret, M_ret, fault; split; intros; destruct_and?;
    simplify_eq; done.
Qed.

Lemma MFEM_VERIFY_Returns c msg (s : State R) u s' :
  MFEM_VERIFY c msg s = Returns u s' <-> c = true /\ s' = s.
Proof.
  destruct c, u; simpl; unfold mret, M_ret, MFEM_ABORT; split; intros;
    destruct_and?; simplify_eq; done.
Qed.

Lemma int_div_Returns a b (s : State R) z s' :
  int_div a b s = Returns z s' <-> b <> 0%Z /\ z = (a ÷ b)%Z /\ s' = s.
Proof.
  unfold int_div. destruct (Z.eqb_spec b 0); unfold mret, M_ret, fault; split;
    intros; destruct_and?; simplify_eq; done.
Qed.

Lemma as_index_Returns z (s : State R) n s' :
  as_index z s = Returns n s' <-> (0 <= z)%Z /\ n = Z.to_nat z /\ s' = s.
Proof.
  unfold as_index. destruct (Z.ltb_spec z 0); unfold mret, M_ret, fault; split;
    intros; destruct_and?; simplify_eq; try done; lia.
Qed.

End Steps.

(** ** Filling a dimension-major buffer point by point *)

Section Scatter.
Context {R : Type}.
Variables (P D cnt : nat) (E : nat -> nat -> nat -> option R).

Lemma store_Some (buf : list R) i v buf' :
  store buf i v = Some buf' <-> i < length buf /\ buf' = <[i := v]> buf.
Proof.
  unfold store. case_decide; split; intros; destruct_and?; simplify_eq; done.
Qed.

Lemma store_lt {A} (a : list A) i v :
  i < length a -> store a i v = Some (<[i := v]> a).
Proof. intros Hi. unfold store. by rewrite decide_True. Qed.

Lemma point_unique i j i0 j0 :
  j < cnt -> j0 < cnt -> i * cnt + j = i0 * cnt + j0 -> i = i0 /\ j = j0.
Proof.
  intros Hj Hj0 Heq.
  assert (i = i0) as ->; [|lia].
  destruct (Nat.lt_trichotomy i i0) as [Hlt|[->|Hgt]]; [|done|]; exfalso; nia.
Qed.

Lemma axis_unique d a d' a' :
  a < P -> a' < P -> P * d + a = P * d' + a' -> d = d' /\ a = a'.
Proof.
  intros Ha Ha' Heq.
  assert (d = d') as ->; [|lia].
  destruct (Nat.lt_trichotomy d d') as [Hlt|[->|Hgt]]; [|done|]; exfalso; nia.
Qed.

(** The loop over [d] for one point. *)
Lemma scatter_point (body : nat -> list R -> option (list R)) pt i0 j0 buf buf' :
  for_loop body 0 D buf = Some buf' ->
  (forall d b b', d < D -> body d b = Some b' ->
     exists v, E i0 j0 d = Some v /\ store b (P * d + pt) v = Some b') ->
  pt = i0 * cnt + j0 -> j0 < cnt -> pt < P ->
  filled P D cnt E pt buf ->
  filled P D cnt E (S pt) buf' /\ length buf' = length buf.
Proof.
  intros Hrun Hbody Hpt Hj0 HP Hfill.
  pose (J := fun (d : nat) (b : list R) =>
    length b = length buf /\
    (forall k, (forall d', d' < d -> k <> P * d' + pt) -> b !! k = buf !! k) /\
    (forall d', d' < d -> exists v, E i0 j0 d' = Some v /\ b !! (P * d' + pt) = Some v)).
  assert (J (0 + D) buf') as (Hlen & Hout & Hin).
  { apply (for_loop_inv J body 0 D buf buf' Hrun).
    - repeat split. intros; lia.
    - intros d b b' Hd (Hl & Ho & Hi) Hb.
      destruct (Hbody d b b') as (v & HE & Hst); [lia|done|].
      apply store_Some in Hst as [Hlt ->]. repeat split.
      + by rewrite length_insert.
      + intros k Hk. rewrite list_lookup_insert_ne; [|apply not_eq_sym, Hk; lia].
        apply Ho. intros d' Hd'. apply Hk. lia.
      + intros d' Hd'. destruct (decide (d' = d)) as [->|Hne].
        * exists v. split; [done|]. by apply list_lookup_insert_eq.
        * destruct (Hi d') as (v' & HE' & Hv'); [lia|]. exists v'. split; [done|].
          rewrite list_lookup_insert_ne; [done|].
          intros Heq. apply axis_unique in Heq as [? _]; done. }
  split; [|done].
  intros i j d Hj Hlt Hd. simpl in *.
  destruct (decide (i * cnt + j = pt)) as [Heq|Hne].
  - subst pt. apply point_unique in Heq as [-> ->]; [|done..]. by apply Hin.
  - destruct (Hfill i j d) as (v & HE & Hv); [done|lia|done|].
    exists v. split; [done|]. rewrite Hout; [done|].
    intros d' Hd' Heq. apply axis_unique in Heq as [_ ?]; [done|lia|done].
Qed.

(** The loop over the [cnt] points of element [i0], each handled by [step]. *)
Lemma scatter_element (step : nat -> list R * nat -> option (list R * nat))
    i0 buf buf' pt' :
  for_loop step 0 cnt (buf, i0 * cnt) = Some (buf', pt') ->
  (forall j b b' q, j < cnt -> step j (b, i0 * cnt + j) = Some (b', q) ->
     q = S (i0 * cnt + j) /\
     exists body, for_loop body 0 D b = Some b' /\
       forall d c c', d < D -> body d c = Some c' ->
         exists v, E i0 j d = Some v /\ store c (P * d + (i0 * cnt + j)) v = Some c') ->
  S i0 * cnt <= P ->
  filled P D cnt E (i0 * cnt) buf ->
  pt' = S i0 * cnt /\ filled P D cnt E (S i0 * cnt) buf' /\ length buf' = length buf.
Proof.
  intros Hrun Hstep HP Hfill.
  pose (I := fun (j : nat) (st : list R * nat) =>
    st.2 = i0 * cnt + j /\ filled P D cnt E st.2 st.1 /\ length st.1 = length buf).
  assert (I (0 + cnt) (buf', pt')) as (Hpt & Hf & Hl).
  { apply (for_loop_inv I step 0 cnt _ _ Hrun).
    - unfold I; simpl. rewrite Nat.add_0_r. auto.
    - intros j [b q] [b' q'] Hj (Hq & Hfb & Hlb) Hs. simpl in *. subst q.
      destruct (Hstep j b b' q') as (-> & body & Hloop & Hbody); [lia|done|].
      destruct (scatter_point body (i0 * cnt + j) i0 j b b' Hloop) as [Hf' Hl'];
        [done|done|lia|nia|done|].
      unfold I; simpl. repeat split; [lia|done|congruence]. }
  unfold I in *; cbn [fst snd] in *. subst pt'.
  replace (S i0 * cnt) with (i0 * cnt + (0 + cnt)) by lia. auto.
Qed.

(** The loop over the [NE] elements, each handled by [elem]. *)
Lemma scatter_elements (elem : nat -> list R * nat -> option (list R * nat))
    NE buf buf' pt' :
  for_loop elem 0 NE (buf, 0) = Some (buf', pt') ->
  (forall i b b' q, i < NE -> elem i (b, i * cnt) = Some (b', q) ->
     exists step, for_loop step 0 cnt (b, i * cnt) = Some (b', q) /\
       forall j c c' q', j < cnt -> step j (c, i * cnt + j) = Some (c', q') ->
         q' = S (i * cnt + j) /\
         exists body, for_loop body 0 D c = Some c' /\
           forall d e e', d < D -> body d e = Some e' ->
             exists v, E i j d = Some v /\ store e (P * d + (i * cnt + j)) v = Some e') ->
  NE * cnt <= P ->
  pt' = NE * cnt /\ filled P D cnt E (NE * cnt) buf' /\ length buf' = length buf.
Proof.
  intros Hrun Helem HP.
  pose (I := fun (i : nat) (st : list R * nat) =>
    st.2 = i * cnt /\ filled P D cnt E st.2 st.1 /\ length st.1 = length buf).
  assert (I (0 + NE) (buf', pt')) as (Hpt & Hf & Hl).
  { apply (for_loop_inv I elem 0 NE _ _ Hrun).
    - unfold I; simpl. repeat split. intros i j d ? ?. lia.
    - intros i [b q] [b' q'] Hi (Hq & Hfb & Hlb) Hs. simpl in *. subst q.
      destruct (Helem i b b' q') as (step & Hloop & Hstep); [lia|done|].
      destruct (scatter_element step i b b' q' Hloop Hstep) as (-> & Hf' & Hl');
        [nia|done|].
      unfold I; simpl. repeat split; [done|congruence]. }
  unfold I in *; cbn [fst snd] in *. subst pt'. auto.
Qed.

(** A filled buffer of the right length is determined by [E]. *)
Lemma filled_unique NE buf1 buf2 :
  P = NE * cnt ->
  length buf1 = D * P -> length buf2 = D * P ->
  filled P D cnt E P buf1 -> filled P D cnt E P buf2 -> buf1 = buf2.
Proof.
  intros HP Hl1 Hl2 Hf1 Hf2. apply list_eq. intros k.
  destruct (decide (k < D * P)) as [Hk|Hk].
  - assert (0 < P) by (destruct P; lia).
    assert (0 < cnt) by (destruct cnt; lia).
    pose (d := k / P). pose (a := k mod P).
    pose (i := a / cnt). pose (j := a mod cnt).
    assert (k = P * d + a) as Hka by (apply Nat.div_mod; lia).
    assert (a = i * cnt + j) as Haij.
    { rewrite (Nat.mul_comm i cnt). apply Nat.div_mod. lia. }
    assert (a < P) by (apply Nat.mod_upper_bound; lia).
    assert (j < cnt) by (apply Nat.mod_upper_bound; lia).
    assert (d < D).
    { apply Nat.Div0.div_lt_upper_bound. lia. }
    destruct (Hf1 i j d) as (v1 & HE1 & Hv1); [done|lia|done|].
    destruct (Hf2 i j d) as (v2 & HE2 & Hv2); [done|lia|done|].
    rewrite Hka, Haij, Hv1, Hv2. congruence.
  - rewrite !lookup_ge_None_2; [done|lia|lia].
Qed.

End Scatter.

(** ** The coordinate extractors *)

Section Extractors.
Context {R : Type} `{!Collaborators R}.

Lemma length_SetSize n (v : list R) : length (SetSize n v) = n.
Proof.
  unfold SetSize. rewrite length_app, length_take, length_replicate. lia.
Qed.

Lemma modify_this_Returns f (s : State R) u s' :
  modify_this f s = Returns u s' <->
  s' = {| this := f (this s); heap := heap s; brk := brk s; calls := calls s |}.
Proof. unfold modify_this. destruct u. split; intros; simplify_eq; done. Qed.

(** The three nested loops of [GetQuadHexNodalCoordinates]. *)
Lemma quadhex_loops (m : Mesh R) dof_map D buf0 buf pt :
  GetDofMap (GetFE0 m) = Some dof_map ->
  for_loop (fun i st =>
              let xdofs := GetElementVDofs m i in
              data ← GetNodes m;
              posV ← GetSubVector_pos data xdofs (GetDof (GetFE0 m)) D;
              for_loop (scatter_node posV dof_map (GetDof (GetFE0 m))
                          (GetNE m * GetDof (GetFE0 m)) D) 0 (GetDof (GetFE0 m)) st)
           0 (GetNE m) (buf0, 0) = Some (buf, pt) ->
  filled (GetNE m * GetDof (GetFE0 m)) D (GetDof (GetFE0 m)) (nodal_coordinate m D)
         (GetNE m * GetDof (GetFE0 m)) buf
  /\ length buf = length buf0.
Proof.
  intros Hmap Hrun.
  eapply scatter_elements in Hrun as (_ & Hf & Hl); [split; [exact Hf|exact Hl]| |lia].
  intros i b b' q Hi Helem. cbn zeta in Helem.
  apply bind_Some in Helem as (data & Hdata & Helem).
  apply bind_Some in Helem as (posV & HposV & Helem).
  eexists. split; [exact Helem|].
  intros j c c' q' Hj Hstep. unfold scatter_node in Hstep.
  apply bind_Some in Hstep as (c1 & Hloop & Hq). injection Hq as -> <-.
  split; [done|]. eexists. split; [exact Hloop|].
  intros d e e' Hd Hbody. cbn beta in Hbody.
  apply bind_Some in Hbody as (k & Hk & Hbody).
  apply bind_Some in Hbody as (v & Hv & Hst).
  exists v. split; [|done].
  unfold nodal_coordinate. rewrite Hdata. cbn. rewrite HposV. cbn.
  rewrite Hmap. cbn. rewrite Hk. cbn. done.
Qed.

Lemma GetQuadHexNodalCoordinates_Returns (s s' : State R) :
  GetQuadHexNodalCoordinates s = Returns tt s' ->
  exists m dof_map buf,
    mesh (this s) = Some m /\
    GetDofMap (GetFE0 m) = Some dof_map /\
    s' = {| this := set_gsl_mesh buf (this s); heap := heap s; brk := brk s;
            calls := calls s |} /\
    length buf = Z.to_nat (dim (this s)) * (GetNE m * GetDof (GetFE0 m)) /\
    filled (GetNE m * GetDof (GetFE0 m)) (Z.to_nat (dim (this s)))
           (GetDof (GetFE0 m)) (nodal_coordinate m (Z.to_nat (dim (this s))))
           (GetNE m * GetDof (GetFE0 m)) buf.
Proof.
  unfold GetQuadHexNodalCoordinates. intros H.
  apply bind_Returns in H as (t & s1 & Ht & H). injection Ht as <- <-.
  apply bind_Returns in H as (m & s1 & Hm & H). apply defined_Returns in Hm as [Hm ->].
  cbn zeta in H.
  apply bind_Returns in H as (data & s1 & Hn & H). apply defined_Returns in Hn as [_ ->].
  apply bind_Returns in H as (u & s1 & Hmod & H). apply modify_this_Returns in Hmod. subst s1.
  apply bind_Returns in H as (u' & s1 & Hver & H). apply MFEM_VERIFY_Returns in Hver as [_ ->].
  apply bind_Returns in H as (dof_map & s1 & Hmap & H). apply defined_Returns in Hmap as [Hmap ->].
  apply bind_Returns in H as (t' & s1 & Ht & H). injection Ht as <- <-.
  apply bind_Returns in H as ([buf pt] & s1 & Hloop & H).
  apply defined_Returns in Hloop as [Hloop ->].
  apply modify_this_Returns in H. cbn in H, Hloop.
  apply quadhex_loops in Hloop as [Hf Hl]; [|done].
  rewrite length_SetSize in Hl.
  exists m, dof_map, buf. repeat split; done.
Qed.

(** One node of the reference sub-mesh: [irlist] and the rule advance by
    one point. *)
Lemma reference_node_step (msplit : Mesh R) data posV dof_map D dim_ e j
    irlist ir irlist' ir' q :
  let cnt := GetDof (GetFE0 msplit) in
  forall P, 
  GetNodes msplit = Some data ->
  GetSubVector_pos data (GetElementVDofs msplit e) cnt D = Some posV ->
  GetDofMap (GetFE0 msplit) = Some dof_map ->
  D = Z.to_nat dim_ ->
  j < cnt -> e * cnt + j < P ->
  reference_node posV dof_map cnt P D dim_ j (irlist, ir, e * cnt + j)
    = Some (irlist', ir', q) ->
  filled P D cnt (nodal_coordinate msplit D) (e * cnt + j) irlist ->
  length irlist = D * P ->
  tabulated msplit D dim_ cnt P (e * cnt + j) ir ->
  q = S (e * cnt + j) /\
  filled P D cnt (nodal_coordinate msplit D) (S (e * cnt + j)) irlist' /\
  length irlist' = D * P /\
  tabulated msplit D dim_ cnt P (S (e * cnt + j)) ir'.
Proof.
  intros cnt P Hdata HposV Hmap HD Hj HP Hstep Hfill Hlen (Hlir & Htab & Hrest).
  unfold reference_node in Hstep.
  apply bind_Some in Hstep as (il & Hloop & Hstep).
  apply bind_Some in Hstep as (vx & Hvx & Hstep).
  apply bind_Some in Hstep as (ir1 & Hir1 & Hstep).
  apply bind_Some in Hstep as (vy & Hvy & Hstep).
  apply bind_Some in Hstep as (ir2 & Hir2 & Hstep).
  apply bind_Some in Hstep as (ir3 & Hir3 & Hstep).
  injection Hstep as <- <- <-.
  eapply scatter_point in Hloop as [Hfill' Hlen']; [|
    |reflexivity|exact Hj|exact HP|exact Hfill].
  2:{ intros d b b' Hd Hbody. cbn beta in Hbody.
      apply bind_Some in Hbody as (k & Hk & Hbody).
      apply bind_Some in Hbody as (v & Hv & Hst).
      exists v. split; [|done].
      unfold nodal_coordinate. rewrite Hdata. cbn. fold cnt. rewrite HposV. cbn.
      rewrite Hmap. cbn. rewrite Hk. cbn. done. }
  rewrite Hlen in Hlen'.
  split; [done|]. split; [done|]. split; [done|].
  assert (0 < D /\ 1 < D) as [HD0 HD1].
  { apply lookup_lt_Some in Hvy. rewrite Hlen' in Hvy. split; nia. }
  destruct (Hfill' e j 0) as (vx' & HEx & Hx); [done|lia|done|].
  replace (P * 0 + (e * cnt + j)) with (e * cnt + j) in Hx by lia.
  destruct (Hfill' e j 1) as (vy' & HEy & Hy); [done|lia|done|].
  replace (P * 1 + (e * cnt + j)) with (P + (e * cnt + j)) in Hy by lia.
  assert (vx' = vx) as -> by congruence. assert (vy' = vy) as -> by congruence.
  unfold set_IntPoint in Hir1, Hir2.
  rewrite Hrest in Hir1 by lia. cbn in Hir1. injection Hir1 as <-.
  rewrite list_lookup_insert_eq in Hir2 by lia. cbn in Hir2. injection Hir2 as <-.
  assert (exists vz, (if (dim_ =? 3)%Z then nodal_coordinate msplit D e j 2
                      else Some zero) = Some vz /\
            ir3 = <[e * cnt + j := {| ip_x := vx; ip_y := vy; ip_z := vz; ip_weight := zero |}]> ir)
    as (vz & Hvz & ->).
  { destruct (Z.eqb_spec dim_ 3) as [Hd3|Hd3].
    - apply bind_Some in Hir3 as (vz & Hz & Hir3).
      destruct (Hfill' e j 2) as (vz' & HEz & Hz'); [done|lia|lia|].
      replace (P * 2 + (e * cnt + j)) with (2 * P + (e * cnt + j)) in Hz' by lia.
      assert (vz' = vz) as -> by congruence.
      exists vz. split; [done|].
      unfold set_IntPoint in Hir3.
      rewrite list_lookup_insert_eq in Hir3 by (rewrite length_insert; lia).
      cbn in Hir3. injection Hir3 as <-.
      rewrite !list_insert_insert_eq. done.
    - injection Hir3 as <-. exists zero. split; [done|].
      rewrite !list_insert_insert_eq. done. }
  repeat split.
  - rewrite length_insert. done.
  - intros e' j' Hj' Hlt.
    destruct (decide (e' * cnt + j' = e * cnt + j)) as [Heq|Hne].
    + apply point_unique in Heq as [-> ->]; [|done..].
      eexists. split; [|apply list_lookup_insert_eq; lia].
      unfold reference_point. rewrite HEx. cbn. rewrite HEy. cbn. rewrite Hvz. done.
    + destruct (Htab e' j') as (ip & Hip & Hl); [done|lia|].
      exists ip. split; [done|]. rewrite list_lookup_insert_ne; done.
  - intros k Hk HkP. rewrite list_lookup_insert_ne by lia. apply Hrest; lia.
Qed.

Lemma lookup_new_IntegrationRule n k :
  k < n ->
  new_IntegrationRule n !! k
  = Some {| ip_x := zero; ip_y := zero; ip_z := zero; ip_weight := zero |}.
Proof. intros Hk. unfold new_IntegrationRule. by apply lookup_replicate_2. Qed.

(** The loops that build the integration-point table. *)
Lemma reference_rule_tabulated (msplit : Mesh R) dof_map NEsplit D dim_
    irlist0 irlist ir q :
  let cnt := GetDof (GetFE0 msplit) in
  let P := NEsplit * cnt in
  GetDofMap (GetFE0 msplit) = Some dof_map ->
  D = Z.to_nat dim_ ->
  length irlist0 = D * P ->
  reference_rule msplit dof_map NEsplit cnt P D dim_ irlist0 (new_IntegrationRule P)
    = Some (irlist, ir, q) ->
  tabulated msplit D dim_ cnt P P ir.
Proof.
  intros cnt P Hmap HD Hlen Hrun. unfold reference_rule in Hrun.
  pose (K := fun (n : nat) (st : list R * list (IntegrationPoint R) * nat) =>
    st.2 = n /\ filled P D cnt (nodal_coordinate msplit D) n st.1.1 /\
    length st.1.1 = D * P /\ tabulated msplit D dim_ cnt P n st.1.2).
  assert (K ((0 + NEsplit) * cnt) (irlist, ir, q)) as (_ & _ & _ & Htab).
  { apply (for_loop_inv (fun e st => K (e * cnt) st) _ 0 NEsplit _ _ Hrun).
    - unfold K; cbn. repeat split.
      + intros i j d ? ?. lia.
      + done.
      + unfold new_IntegrationRule. by rewrite length_replicate.
      + intros e j ? ?. lia.
      + intros k _ Hk. by apply lookup_new_IntegrationRule.
    - intros e st st' He HK Hbody. cbn zeta in Hbody.
      apply bind_Some in Hbody as (data & Hdata & Hbody).
      apply bind_Some in Hbody as (posV & HposV & Hbody).
      replace (S e * cnt) with (e * cnt + (0 + cnt)) by lia.
      apply (for_loop_inv (fun j st => K (e * cnt + j) st) _ 0 cnt _ _ Hbody).
      + by rewrite Nat.add_0_r.
      + intros j [[il1 ir1] q1] [[il2 ir2] q2] Hj (Hq & Hf & Hl & Ht) Hnode.
        cbn in Hq, Hf, Hl, Ht. subst q1.
        eapply reference_node_step in Hnode as (-> & Hf' & Hl' & Ht');
          [|exact Hdata|exact HposV|exact Hmap|exact HD|lia|fold cnt; unfold P; nia
           |exact Hf|exact Hl|exact Ht].
        unfold K; cbn. replace (e * cnt + S j) with (S (e * cnt + j)) by lia. done. }
  cbn in Htab. done.
Qed.

(** The loops that evaluate the geometric map of every element at the table. *)
Lemma physical_nodes_filled (m : Mesh R) ir NE NEsplit dof_cnt D buf0 buf q :
  let cnt := NEsplit * dof_cnt in
  physical_nodes m ir NE NEsplit dof_cnt (cnt * NE) D buf0 = Some (buf, q) ->
  filled (cnt * NE) D cnt (physical_coordinate m ir) (cnt * NE) buf
  /\ length buf = length buf0.
Proof.
  intros cnt. unfold physical_nodes.
  replace (dof_cnt * NEsplit) with cnt by (unfold cnt; lia). intros Hrun.
  apply (scatter_elements (cnt * NE) D cnt (physical_coordinate m ir)) in Hrun
    as (_ & Hf & Hl); [|clear Hrun|lia].
  { split; [|exact Hl]. by rewrite (Nat.mul_comm NE cnt) in Hf. }
  intros j b b' q' Hj Helem.
  eexists. split; [exact Helem|].
  intros i c c' q'' Hi Hstep. unfold physical_node in Hstep.
  apply bind_Some in Hstep as (ip & Hip & Hstep).
  apply bind_Some in Hstep as (nodes & Hnodes & Hstep). cbn zeta in Hstep.
  apply bind_Some in Hstep as (c1 & Hloop & Hq). injection Hq as -> <-.
  split; [done|]. eexists. split; [exact Hloop|].
  intros d e e' Hd Hbody. cbn beta in Hbody.
  apply bind_Some in Hbody as (v & Hv & Hst).
  exists v. split; [|done].
  unfold physical_coordinate. rewrite Hip. done.
Qed.

Lemma new_Returns o (s : State R) p s' :
  new o s = Returns p s' <->
  p = brk s /\
  s' = {| this := this s; heap := <[brk s := o]> (heap s); brk := S (brk s);
          calls := calls s |}.
Proof. unfold new. split; intros; destruct_and?; simplify_eq; done. Qed.

Lemma overwrite_Returns p o (s : State R) u s' :
  overwrite p o s = Returns u s' <->
  is_Some (heap s !! p) /\
  s' = {| this := this s; heap := <[p := o]> (heap s); brk := brk s;
          calls := calls s |}.
Proof.
  unfold overwrite. destruct u, (heap s !! p) eqn:Hp; split; intros;
    destruct_and?; simplify_eq; done.
Qed.

Lemma release_Returns p (s : State R) u s' :
  release p s = Returns u s' <->
  is_Some (heap s !! p) /\
  s' = {| this := this s; heap := delete p (heap s); brk := brk s;
          calls := calls s |}.
Proof.
  unfold release. destruct u, (heap s !! p) eqn:Hp; split; intros;
    destruct_and?; simplify_eq; done.
Qed.

Lemma GetSimplexNodalCoordinates_Returns (s s' : State R) :
  GetSimplexNodalCoordinates s = Returns tt s' ->
  exists m mb NEsplit msplit dof_map ir buf,
    let D := Z.to_nat (dim (this s)) in
    let cnt := NEsplit * GetDof (GetFE0 msplit) in
    mesh (this s) = Some m /\
    split_reference (GetGeomType (GetFE0 m)) = Some (mb, NEsplit) /\
    SetNodalFESpace mb (GetOrder (GetFE0 m)) (dim (this s)) = inr msplit /\
    GetDofMap (GetFE0 msplit) = Some dof_map /\
    s' = {| this := set_gsl_mesh buf (set_ir_simplex (Some (S (brk s))) (this s));
            heap := delete (brk s)
                      (<[S (brk s) := IntegrationRule ir]>
                         (<[brk s := SubMesh mb]> (heap s)));
            brk := S (S (brk s));
            calls := calls s |} /\
    tabulated msplit D (dim (this s)) (GetDof (GetFE0 msplit)) cnt cnt ir /\
    length buf = cnt * GetNE m * D /\
    filled (cnt * GetNE m) D cnt (physical_coordinate m ir) (cnt * GetNE m) buf.
Proof.
  unfold GetSimplexNodalCoordinates. intros H.
  apply bind_Returns in H as (t & s1 & Ht & H). injection Ht as <- <-.
  apply bind_Returns in H as (m & s1 & Hm & H). apply defined_Returns in Hm as [Hm ->].
  cbn zeta in H.
  apply bind_Returns in H as ([mb NEsplit] & s1 & Hsplit & H).
  apply defined_Returns in Hsplit as [Hsplit ->].
  apply bind_Returns in H as (meshsplit & s1 & Hnew & H).
  apply new_Returns in Hnew as [-> ->].
  apply bind_Returns in H as (msplit & s1 & Hcurve & H).
  destruct (SetNodalFESpace mb (GetOrder (GetFE0 m)) (dim (this s)))
    as [msg|msplit'] eqn:Hfes; [done|].
  injection Hcurve as <- <-.
  apply bind_Returns in H as (u & s1 & Hver & H). apply MFEM_VERIFY_Returns in Hver as [_ ->].
  apply bind_Returns in H as (dof_map & s1 & Hmap & H). apply defined_Returns in Hmap as [Hmap ->].
  apply bind_Returns in H as (p & s1 & Hnew & H). apply new_Returns in Hnew as [-> ->].
  apply bind_Returns in H as (u1 & s1 & Hmod & H). apply modify_this_Returns in Hmod. subst s1.
  apply bind_Returns in H as ([[irlist ir] q] & s1 & Hrule & H).
  apply defined_Returns in Hrule as [Hrule ->].
  apply bind_Returns in H as (u2 & s1 & Hov & H). apply overwrite_Returns in Hov as [_ ->].
  apply bind_Returns in H as (u3 & s1 & Hmod & H). apply modify_this_Returns in Hmod. subst s1.
  apply bind_Returns in H as (t' & s1 & Ht & H). injection Ht as <- <-.
  apply bind_Returns in H as ([buf q'] & s1 & Hphys & H).
  apply defined_Returns in Hphys as [Hphys ->].
  apply bind_Returns in H as (u4 & s1 & Hmod & H). apply modify_this_Returns in Hmod. subst s1.
  apply release_Returns in H as [_ ->]. cbn in *.
  apply reference_rule_tabulated in Hrule; [|done|done|by rewrite length_replicate].
  apply physical_nodes_filled in Hphys as [Hf Hl]. rewrite length_SetSize in Hl.
  exists m, mb, NEsplit, msplit', dof_map, ir, buf. cbn zeta.
  do 4 (split; [done|]).
  split; [by rewrite insert_insert_eq|].
  split; [exact Hrule|]. split; [exact Hl|exact Hf].
Qed.

Lemma GetSubVector_pos_total (data : list R) xdofs dof_cnt D :
  length xdofs = dof_cnt * D -> Forall (fun v => v < length data) xdofs ->
  exists posV, GetSubVector_pos data xdofs dof_cnt D = Some posV /\
               length posV = dof_cnt * D.
Proof.
  intros Hlen Hall. unfold GetSubVector_pos, GetSubVector.
  destruct (mapM (fun k => data !! k) xdofs) as [posV|] eqn:HposV.
  - apply length_mapM in HposV. cbn. rewrite decide_True by lia.
    exists posV. split; [done|lia].
  - apply mapM_None in HposV. apply Exists_exists in HposV as (v & Hv & Hnone).
    rewrite Forall_forall in Hall. apply Hall in Hv.
    apply lookup_ge_None in Hnone. lia.
Qed.

(** The nested loops of [GetQuadHexNodalCoordinates] run to their end on
    consistent nodes. *)
Lemma quadhex_loops_total (m : Mesh R) data dof_map D (buf0 : list R) :
  GetNodes m = Some data ->
  (forall j, j < GetDof (GetFE0 m) ->
     exists k, dof_map !! j = Some k /\ k < GetDof (GetFE0 m)) ->
  (forall i, i < GetNE m ->
     length (GetElementVDofs m i) = GetDof (GetFE0 m) * D /\
     Forall (fun v => v < length data) (GetElementVDofs m i)) ->
  length buf0 = D * (GetNE m * GetDof (GetFE0 m)) ->
  exists st,
    for_loop (fun i st =>
                let xdofs := GetElementVDofs m i in
                data ← GetNodes m;
                posV ← GetSubVector_pos data xdofs (GetDof (GetFE0 m)) D;
                for_loop (scatter_node posV dof_map (GetDof (GetFE0 m))
                            (GetNE m * GetDof (GetFE0 m)) D) 0 (GetDof (GetFE0 m)) st)
             0 (GetNE m) (buf0, 0) = Some st.
Proof.
  intros Hdata Hmap Hvd Hlen.
  set (cnt := GetDof (GetFE0 m)) in *. set (NE := GetNE m) in *.
  pose (K := fun (n : nat) (st : list R * nat) =>
    st.2 = n /\ length st.1 = D * (NE * cnt)).
  edestruct (for_loop_total (fun i st => K (i * cnt) st)) as (st & Hst & _);
    [| |exists st; exact Hst].
  { done. }
  intros i st Hi HK. cbn zeta. rewrite Hdata. cbn [mbind option_bind].
  destruct (Hvd i) as [Hl Hall]; [lia|].
  destruct (GetSubVector_pos_total data _ cnt D Hl Hall) as (posV & -> & HlposV).
  cbn [mbind option_bind].
  replace (S i * cnt) with (i * cnt + (0 + cnt)) by lia.
  apply (for_loop_total (fun j st => K (i * cnt + j) st)).
  { by rewrite Nat.add_0_r. }
  intros j [b pt] Hj [Hpt Hb]. cbn in Hpt, Hb. subst pt. unfold scatter_node.
  destruct (Hmap j) as (k & Hk & Hklt); [lia|].
  edestruct (for_loop_total (fun (_ : nat) (c : list R) => length c = D * (NE * cnt)))
    as (b' & Hb' & Hlb'); [exact Hb| |rewrite Hb'].
  { intros d c Hd Hc. cbn beta. rewrite Hk. cbn [mbind option_bind].
    unfold DenseMatrix_at.
    destruct (lookup_lt_is_Some_2 posV (k + d * cnt)) as [v ->]; [nia|].
    cbn [mbind option_bind]. rewrite store_lt by nia.
    eexists. split; [done|]. by rewrite length_insert. }
  cbn [mbind option_bind]. eexists. split; [done|].
  unfold K. cbn. split; [lia|done].
Qed.

Lemma GetQuadHexNodalCoordinates_total (m : Mesh R) (s : State R) :
  mesh (this s) = Some m ->
  dim (this s) = Dimension m ->
  consistent_nodes m (Z.to_nat (Dimension m)) (GetNE m) ->
  exists buf,
    GetQuadHexNodalCoordinates s
    = Returns tt {| this := set_gsl_mesh buf (this s); heap := heap s; brk := brk s;
                    calls := calls s |}.
Proof.
  intros Hm Hdim (data & dof_map & Hdata & Hmap & Hdm & Hvd).
  destruct (quadhex_loops_total m data dof_map (Z.to_nat (Dimension m))
              (SetSize (Z.to_nat (Dimension m) * (GetNE m * GetDof (GetFE0 m)))
                       (gsl_mesh (this s))) Hdata Hdm Hvd)
    as ([buf pt] & Hloop); [apply length_SetSize|].
  exists buf. unfold GetQuadHexNodalCoordinates.
  apply bind_Returns. eexists _, _. split; [reflexivity|].
  apply bind_Returns. eexists m, _. split; [by apply defined_Returns|]. cbn zeta.
  apply bind_Returns. eexists data, _. split; [by apply defined_Returns|].
  apply bind_Returns. eexists tt, _. split; [reflexivity|].
  apply bind_Returns. eexists tt, _. split.
  { apply MFEM_VERIFY_Returns. split; [|done]. rewrite Hmap. by apply bool_decide_eq_true. }
  apply bind_Returns. eexists dof_map, _. split; [by apply defined_Returns|].
  apply bind_Returns. eexists _, _. split; [reflexivity|].
  apply bind_Returns. eexists (buf, pt), _. split.
  { apply defined_Returns. split; [|done]. cbn. rewrite Hdim. exact Hloop. }
  reflexivity.
Qed.

Lemma set_IntPoint_total setter i (v : R) ir :
  i < length ir ->
  exists ir', set_IntPoint setter i v ir = Some ir' /\ length ir' = length ir.
Proof.
  intros Hi. unfold set_IntPoint.
  destruct (lookup_lt_is_Some_2 ir i Hi) as [ip ->]. cbn.
  eexists. split; [done|]. by rewrite length_insert.
Qed.

(** The loops that build the integration-point table run to their end on
    a consistent sub-mesh. *)
Lemma reference_rule_total (msplit : Mesh R) data dof_map NEsplit D dim_ :
  let cnt := GetDof (GetFE0 msplit) in
  let P := NEsplit * cnt in
  GetNodes msplit = Some data ->
  (forall j, j < cnt -> exists k, dof_map !! j = Some k /\ k < cnt) ->
  (forall i, i < NEsplit ->
     length (GetElementVDofs msplit i) = cnt * D /\
     Forall (fun v => v < length data) (GetElementVDofs msplit i)) ->
  D = Z.to_nat dim_ -> D = 2 \/ D = 3 ->
  exists st,
    reference_rule msplit dof_map NEsplit cnt P D dim_ (replicate (D * P) undef)
                   (new_IntegrationRule P) = Some st.
Proof.
  intros cnt P Hdata Hmap Hvd HD HD23. unfold reference_rule.
  pose (K := fun (n : nat) (st : list R * list (IntegrationPoint R) * nat) =>
    st.2 = n /\ length st.1.1 = D * P /\ length st.1.2 = P).
  edestruct (for_loop_total (fun i st => K (i * cnt) st)) as (st & Hst & _);
    [| |exists st; exact Hst].
  { unfold K. cbn. rewrite length_replicate. unfold new_IntegrationRule.
    by rewrite length_replicate. }
  intros i st Hi HK. cbn zeta. rewrite Hdata. cbn [mbind option_bind].
  destruct (Hvd i) as [Hl Hall]; [lia|].
  destruct (GetSubVector_pos_total data _ cnt D Hl Hall) as (posV & -> & HlposV).
  cbn [mbind option_bind].
  replace (S i * cnt) with (i * cnt + (0 + cnt)) by lia.
  apply (for_loop_total (fun j st => K (i * cnt + j) st)).
  { by rewrite Nat.add_0_r. }
  intros j [[il ir] pt] Hj (Hpt & Hil & Hir). cbn in Hpt, Hil, Hir. subst pt.
  assert (i * cnt + j < P) as HP by (unfold P; nia).
  unfold reference_node.
  destruct (Hmap j) as (k & Hk & Hklt); [lia|].
  edestruct (for_loop_total (fun (_ : nat) (c : list R) => length c = D * P))
    as (il' & Hil' & Hlil'); [exact Hil| |rewrite Hil'].
  { intros d c Hd Hc. cbn beta. rewrite Hk. cbn [mbind option_bind].
    unfold DenseMatrix_at.
    destruct (lookup_lt_is_Some_2 posV (k + d * cnt)) as [v ->]; [nia|].
    cbn [mbind option_bind]. rewrite store_lt by nia.
    eexists. split; [done|]. by rewrite length_insert. }
  cbn [mbind option_bind].
  destruct (lookup_lt_is_Some_2 il' (i * cnt + j)) as [vx ->]; [nia|].
  cbn [mbind option_bind].
  destruct (set_IntPoint_total set_x (i * cnt + j) vx ir) as (ir1 & -> & Hir1); [lia|].
  cbn [mbind option_bind].
  destruct (lookup_lt_is_Some_2 il' (P + (i * cnt + j))) as [vy ->]; [nia|].
  cbn [mbind option_bind].
  destruct (set_IntPoint_total set_y (i * cnt + j) vy ir1) as (ir2 & -> & Hir2); [lia|].
  cbn [mbind option_bind].
  destruct (Z.eqb_spec dim_ 3) as [Hd3|Hd3].
  - destruct (lookup_lt_is_Some_2 il' (2 * P + (i * cnt + j))) as [vz ->]; [nia|].
    cbn [mbind option_bind].
    destruct (set_IntPoint_total set_z (i * cnt + j) vz ir2) as (ir3 & -> & Hir3); [lia|].
    cbn [mbind option_bind]. eexists. split; [done|].
    unfold K. cbn. split; [lia|]. split; [done|lia].
  - cbn [mbind option_bind]. eexists. split; [done|].
    unfold K. cbn. split; [lia|]. split; [done|lia].
Qed.

(** The loops over the physical elements run to their end when the
    geometric map gives [D] coordinates. *)
Lemma physical_nodes_total (m : Mesh R) ir NE NEsplit dof_cnt D (buf0 : list R) :
  let cnt := NEsplit * dof_cnt in
  NE = GetNE m ->
  is_Some (GetNodes m) ->
  length ir = cnt ->
  (forall j ip, j < NE -> D <= length (GetVectorValue m j ip)) ->
  length buf0 = cnt * NE * D ->
  exists st, physical_nodes m ir NE NEsplit dof_cnt (cnt * NE) D buf0 = Some st.
Proof.
  intros cnt HNE [data Hdata] Hir Hval Hlen. unfold physical_nodes.
  replace (dof_cnt * NEsplit) with cnt by (unfold cnt; lia).
  pose (K := fun (n : nat) (st : list R * nat) =>
    st.2 = n /\ length st.1 = cnt * NE * D).
  edestruct (for_loop_total (fun j st => K (j * cnt) st)) as (st & Hst & _);
    [| |exists st; exact Hst].
  { done. }
  intros j st Hj HK.
  replace (S j * cnt) with (j * cnt + (0 + cnt)) by lia.
  apply (for_loop_total (fun i st => K (j * cnt + i) st)).
  { by rewrite Nat.add_0_r. }
  intros i [b pt] Hi [Hpt Hb]. cbn in Hpt, Hb. subst pt. unfold physical_node.
  destruct (lookup_lt_is_Some_2 ir i) as [ip ->]; [lia|].
  cbn [mbind option_bind]. rewrite Hdata. cbn [mbind option_bind]. cbn zeta.
  edestruct (for_loop_total (fun (_ : nat) (c : list R) => length c = cnt * NE * D))
    as (b' & Hb' & Hlb'); [exact Hb| |rewrite Hb'].
  { intros d c Hd Hc. cbn beta.
    destruct (lookup_lt_is_Some_2 (GetVectorValue m j ip) d) as [v ->].
    { specialize (Hval j ip). lia. }
    cbn [mbind option_bind].
    assert (j * cnt + i < cnt * NE) by nia.
    assert (cnt * NE * d + cnt * NE <= cnt * NE * D) by nia.
    rewrite store_lt by lia.
    eexists. split; [done|]. by rewrite length_insert. }
  cbn [mbind option_bind]. eexists. split; [done|].
  unfold K. cbn. split; [lia|done].
Qed.

Lemma GetSimplexNodalCoordinates_total (m : Mesh R) (s : State R) :
  mesh (this s) = Some m ->
  dim (this s) = Dimension m ->
  simplex_mesh m ->
  exists s', GetSimplexNodalCoordinates s = Returns tt s'.
Proof.
  intros Hm Hdim (Hnodes & _ & HD & _ & Hval & mb & NEsplit & msplit & Hsp & Hfes
                  & data & dof_map & Hdata & Hmap & Hdm & Hvd).
  assert (Z.to_nat (Dimension m) = 2 \/ Z.to_nat (Dimension m) = 3) as HD' by lia.
  destruct (reference_rule_total msplit data dof_map NEsplit (Z.to_nat (Dimension m))
              (Dimension m) Hdata Hdm Hvd eq_refl HD') as ([[irlist ir] pt] & Hrule).
  pose proof Hrule as Htab.
  apply reference_rule_tabulated in Htab as (Hlir & _); [|done|done|by rewrite length_replicate].
  destruct (physical_nodes_total m ir (GetNE m) NEsplit (GetDof (GetFE0 msplit))
              (Z.to_nat (Dimension m))
              (SetSize (NEsplit * GetDof (GetFE0 msplit) * GetNE m * Z.to_nat (Dimension m))
                       (gsl_mesh (this s))) eq_refl Hnodes Hlir Hval)
    as ([buf pt'] & Hphys); [apply length_SetSize|].
  unfold GetSimplexNodalCoordinates.
  eapply bind_Returns_ex; [reflexivity|].
  eapply bind_Returns_ex; [by apply defined_Returns|]. cbn zeta.
  eapply bind_Returns_ex; [by apply defined_Returns|].
  eapply bind_Returns_ex; [reflexivity|].
  rewrite Hdim, Hfes.
  eapply bind_Returns_ex; [reflexivity|].
  eapply (bind_Returns_ex _ _ _ _ tt).
  { apply MFEM_VERIFY_Returns. split; [|done]. rewrite Hmap. by apply bool_decide_eq_true. }
  eapply bind_Returns_ex; [by apply defined_Returns|].
  eapply bind_Returns_ex; [reflexivity|].
  eapply bind_Returns_ex; [reflexivity|].
  eapply bind_Returns_ex; [apply defined_Returns; split; [exact Hrule|done]|].
  eapply (bind_Returns_ex _ _ _ _ tt).
  { apply overwrite_Returns. split; [|done]. cbn. rewrite lookup_insert_eq. done. }
  eapply bind_Returns_ex; [reflexivity|].
  eapply bind_Returns_ex; [reflexivity|].
  eapply bind_Returns_ex; [apply defined_Returns; split; [exact Hphys|done]|].
  eapply bind_Returns_ex; [reflexivity|].
  eexists. apply release_Returns. split; [|done]. cbn.
  rewrite lookup_insert_ne by lia. rewrite lookup_insert_ne by lia.
  rewrite lookup_insert_eq. done.
Qed.

End Extractors.

(** ** [Setup] *)

Section SetupFacts.
Context {R : Type} `{!Collaborators R}.

(** The state in which [Setup] calls the extractor. *)
Lemma Setup_Returns (m : Mesh R) bb_t newt_tol npt_max (s s' : State R) :
  Setup m bb_t newt_tol npt_max s = Returns tt s' ->
  exists s1 args,
    is_Some (GetNodes m) /\
    GetNumGeometries m = 1%Z /\
    match GetGeomType (GetFE0 m) with
    | Geometry.TRIANGLE | Geometry.TETRAHEDRON | Geometry.PRISM =>
        GetSimplexNodalCoordinates
    | Geometry.SQUARE | Geometry.CUBE => GetQuadHexNodalCoordinates
    | _ => MFEM_ABORT "Element type not currently supported in FindPointsGSLIB."
    end {| this := set_dim (Dimension m) (set_mesh (Some m) (this s));
           heap := heap s; brk := brk s; calls := calls s |} = Returns tt s1 /\
    sa_dim args = (if (dim (this s1) =? 2)%Z then 2 else 3) /\
    sa_mesh args = gsl_mesh (this s1) /\
    s' = {| this := (if (dim (this s1) =? 2)%Z then set_fdata2D (Some (brk s1)) (this s1)
                     else set_fdata3D (Some (brk s1)) (this s1));
            heap := <[brk s1 := FindptsData args]> (heap s1);
            brk := S (brk s1);
            calls := calls s1 ++ [CallSetup (sa_dim args) args (brk s1)] |}.
Proof.
  unfold Setup. intros H.
  apply bind_Returns in H as (u & s0 & Hv & H). apply MFEM_VERIFY_Returns in Hv as [Hnodes ->].
  apply bind_Returns in H as (u0 & s0 & Hv & H). apply MFEM_VERIFY_Returns in Hv as [Hgeom ->].
  apply bind_Returns in H as (u1 & s0 & Hmod & H). apply modify_this_Returns in Hmod. subst s0.
  apply bind_Returns in H as (u2 & s0 & Hmod & H). apply modify_this_Returns in Hmod. subst s0.
  cbn zeta in H.
  apply bind_Returns in H as ([] & s1 & Hext & H). cbn in Hext.
  apply bind_Returns in H as (t & s2 & Ht & H). injection Ht as <- <-.
  apply bind_Returns in H as (pts_cnt & s2 & Hdiv & H).
  apply int_div_Returns in Hdiv as (Hdim & -> & ->).
  apply bind_Returns in H as (NEtot & s2 & Hdiv & H).
  apply int_div_Returns in Hdiv as (Hpow & -> & ->).
  apply bool_decide_eq_true in Hnodes. apply Z.eqb_eq in Hgeom.
  destruct (dim (this s1) =? 2)%Z eqn:Hd2.
  - apply bind_Returns in H as (fd & s2 & Hsetup & H).
    unfold findpts_setup in Hsetup.
    apply bind_Returns in Hsetup as (h & s3 & Hnew & Hsetup).
    apply new_Returns in Hnew as [-> ->].
    apply bind_Returns in Hsetup as (u3 & s3 & Hrec & Hsetup).
    injection Hrec as <- <-. injection Hsetup as <- <-.
    apply modify_this_Returns in H. cbn in H.
    eexists s1, _. do 3 (split; [done|]). rewrite Hd2.
    split; [|split; [|exact H]]; done.
  - apply bind_Returns in H as (fd & s2 & Hsetup & H).
    unfold findpts_setup in Hsetup.
    apply bind_Returns in Hsetup as (h & s3 & Hnew & Hsetup).
    apply new_Returns in Hnew as [-> ->].
    apply bind_Returns in Hsetup as (u3 & s3 & Hrec & Hsetup).
    injection Hrec as <- <-. injection Hsetup as <- <-.
    apply modify_this_Returns in H. cbn in H.
    eexists s1, _. do 3 (split; [done|]). rewrite Hd2.
    split; [|split; [|exact H]]; done.
Qed.

(** [Setup] returns on every consistent mesh of quadrilaterals or hexahedra. *)
Lemma Setup_accepts_tensor_mesh (m : Mesh R) bb_t newt_tol npt_max (s : State R) :
  tensor_mesh m ->
  exists s', Setup m bb_t newt_tol npt_max s = Returns tt s'.
Proof.
  intros (Hgeom & Hgt & Hdim & Hord & Hnodes).
  destruct (GetQuadHexNodalCoordinates_total m
              {| this := set_dim (Dimension m) (set_mesh (Some m) (this s));
                 heap := heap s; brk := brk s; calls := calls s |} eq_refl eq_refl Hnodes)
    as (buf & Hext).
  destruct Hnodes as (data & dof_map & Hdata & _).
  assert (int_pow (to_unsigned (GetOrder (GetFE0 m) + 1)) (Dimension m) <> 0%Z) as Hpow.
  { unfold int_pow, to_unsigned. rewrite Z.mod_small by lia.
    apply Z.pow_nonzero; lia. }
  unfold Setup.
  eapply (bind_Returns_ex _ _ _ _ tt).
  { apply MFEM_VERIFY_Returns. split; [|done]. rewrite Hdata. by apply bool_decide_eq_true. }
  eapply (bind_Returns_ex _ _ _ _ tt).
  { apply MFEM_VERIFY_Returns. split; [|done]. by apply Z.eqb_eq. }
  eapply bind_Returns_ex; [reflexivity|].
  eapply bind_Returns_ex; [reflexivity|]. cbn zeta.
  eapply bind_Returns_ex.
  { destruct Hgt as [-> | ->]; exact Hext. }
  eapply bind_Returns_ex; [reflexivity|].
  eapply bind_Returns_ex.
  { apply int_div_Returns. cbn. split; [lia|done]. }
  eapply bind_Returns_ex.
  { apply int_div_Returns. cbn. split; [exact Hpow|done]. }
  cbn [this set_gsl_mesh set_dim dim].
  destruct (Dimension m =? 2)%Z; eexists; reflexivity.
Qed.

(** [Setup] returns on every mesh of triangles, tetrahedra or prisms for
    which the library builds a consistent curved sub-mesh. *)
Lemma Setup_accepts_simplex_mesh (m : Mesh R) bb_t newt_tol npt_max (s : State R) :
  simplex_mesh m ->
  exists s', Setup m bb_t newt_tol npt_max s = Returns tt s'.
Proof.
  intros Hsm.
  destruct (GetSimplexNodalCoordinates_total m
              {| this := set_dim (Dimension m) (set_mesh (Some m) (this s));
                 heap := heap s; brk := brk s; calls := calls s |} eq_refl eq_refl Hsm)
    as (s1 & Hext).
  pose proof Hext as Hs1.
  apply GetSimplexNodalCoordinates_Returns in Hs1
    as (m' & mb & NEsplit & msplit & dm & ir & b & _ & _ & _ & _ & Hs1 & _).
  destruct Hsm as (Hnodes & Hgeom & Hdim & Hord & _ & mb' & NEsplit' & msplit' & Hsp & _).
  assert (int_pow (to_unsigned (GetOrder (GetFE0 m) + 1)) (Dimension m) <> 0%Z) as Hpow.
  { unfold int_pow, to_unsigned. rewrite Z.mod_small by lia.
    apply Z.pow_nonzero; lia. }
  unfold Setup.
  eapply (bind_Returns_ex _ _ _ _ tt).
  { apply MFEM_VERIFY_Returns. split; [|done]. by apply bool_decide_eq_true. }
  eapply (bind_Returns_ex _ _ _ _ tt).
  { apply MFEM_VERIFY_Returns. split; [|done]. by apply Z.eqb_eq. }
  eapply bind_Returns_ex; [reflexivity|].
  eapply bind_Returns_ex; [reflexivity|]. cbn zeta.
  eapply bind_Returns_ex.
  { destruct (GetGeomType (GetFE0 m)); try done; exact Hext. }
  eapply bind_Returns_ex; [reflexivity|].
  subst s1. cbn [this set_gsl_mesh set_ir_simplex set_dim dim gsl_mesh].
  eapply bind_Returns_ex.
  { apply int_div_Returns. split; [lia|done]. }
  eapply bind_Returns_ex.
  { apply int_div_Returns. split; [exact Hpow|done]. }
  destruct (Dimension m =? 2)%Z; eexists; reflexivity.
Qed.

End SetupFacts.

(** ** The point cloud *)

Section PointCloud.
Context {R : Type} `{!Collaborators R}.

(** C7.  On every consistent mesh of quadrilaterals or hexahedra
    ([tensor_mesh]) and of triangles, tetrahedra or prisms ([simplex_mesh])
    [Setup] returns; and whenever [Setup] returns, the point cloud
    [gsl_mesh] has [GetNE * pointsPerElement * dim] entries and is laid out
    by dimension: coordinate [d] of point [j] of element [i] is entry
    [(GetNE * pointsPerElement) * d + (i * pointsPerElement + j)].  For
    quadrilaterals and hexahedra [pointsPerElement] is the number of dofs of
    the element and the point is the node in lexicographic slot [j]; for
    triangles, tetrahedra and prisms it is the number of sub-elements times
    the number of dofs of a sub-element and the point is the image of entry
    [j] of the integration-point table. *)
Theorem point_cloud_layout (m : Mesh R) bb_t newt_tol npt_max (s : State R) :
  (tensor_mesh m \/ simplex_mesh m ->
   exists s', Setup m bb_t newt_tol npt_max s = Returns tt s') /\
  forall s', Setup m bb_t newt_tol npt_max s = Returns tt s' ->
  let D := Z.to_nat (Dimension m) in
  let NE := GetNE m in
  let buf := gsl_mesh (this s') in
  match GetGeomType (GetFE0 m) with
  | Geometry.SQUARE | Geometry.CUBE =>
      let pointsPerElement := GetDof (GetFE0 m) in
      length buf = NE * pointsPerElement * D /\
      forall i j d, i < NE -> j < pointsPerElement -> d < D ->
        exists v, nodal_coordinate m D i j d = Some v /\
          buf !! (NE * pointsPerElement * d + (i * pointsPerElement + j)) = Some v
  | Geometry.TRIANGLE | Geometry.TETRAHEDRON | Geometry.PRISM =>
      exists mb NEsplit msplit ir,
        split_reference (GetGeomType (GetFE0 m)) = Some (mb, NEsplit) /\
        SetNodalFESpace mb (GetOrder (GetFE0 m)) (Dimension m) = inr msplit /\
        let pointsPerElement := NEsplit * GetDof (GetFE0 msplit) in
        length ir = pointsPerElement /\
        length buf = NE * pointsPerElement * D /\
        forall i j d, i < NE -> j < pointsPerElement -> d < D ->
          exists v, physical_coordinate m ir i j d = Some v /\
            buf !! (NE * pointsPerElement * d + (i * pointsPerElement + j)) = Some v
  | _ => False
  end.
Proof.
  split.
  { intros [Hm | Hm];
      [by apply Setup_accepts_tensor_mesh | by apply Setup_accepts_simplex_mesh]. }
  intros s' H D NE buf.
  apply Setup_Returns in H as (s1 & args & _ & _ & Hext & _ & _ & ->).
  assert (buf = gsl_mesh (this s1)) as Hbuf.
  { unfold buf. cbn. by destruct (dim (this s1) =? 2)%Z. }
  clearbody buf. subst buf.
  destruct (GetGeomType (GetFE0 m)) eqn:Hgt; try done.
  1,3,5: (* triangles, tetrahedra, prisms *)
    apply GetSimplexNodalCoordinates_Returns in Hext
      as (m' & mb & NEsplit & msplit & dof_map & ir & b & Hm & Hsp & Hfes & _ & -> & Ht & Hl & Hf);
    cbn in Hm, Hsp, Hfes, Ht, Hl, Hf |- *; injection Hm as <-; rewrite Hgt in Hsp;
    exists mb, NEsplit, msplit, ir; do 2 (split; [done|]);
    (split; [apply Ht|]); fold NE D in Hl, Hf |- *; (split; [lia|]);
    intros i j d Hi Hj Hd; destruct (Hf i j d) as (v & Hv & Hb); [done|nia|done|];
    exists v; (split; [done|]); by rewrite (Nat.mul_comm NE).
  all: (* quadrilaterals, hexahedra *)
    apply GetQuadHexNodalCoordinates_Returns in Hext
      as (m' & dof_map & b & Hm & _ & -> & Hl & Hf);
    cbn in Hm, Hl, Hf |- *; injection Hm as <-; fold NE D in Hl, Hf |- *;
    (split; [lia|]);
    intros i j d Hi Hj Hd; destruct (Hf i j d) as (v & Hv & Hb); [done|nia|done|];
    by exists v.
Qed.

End PointCloud.

(** ** The integration-point table of the simplex path *)

Section SimplexTable.
Context {R : Type} `{!Collaborators R}.

(** C8.  On a mesh of triangles, tetrahedra or prisms, [Setup] leaves one
    integration-point table in [*ir_simplex]: entry [e * dof_cnt + j] is the
    node in lexicographic slot [j] of sub-element [e] of the curved
    reference sub-mesh, whatever the physical element.  The point cloud
    holds, for every physical element [i] and every entry [k] of that one
    table, the value of the geometric map of element [i] itself
    ([GetVectorValue m i]) at that entry. *)
Theorem simplex_table_shared (m : Mesh R) bb_t newt_tol npt_max (s s' : State R) :
  Setup m bb_t newt_tol npt_max s = Returns tt s' ->
  GetGeomType (GetFE0 m) = Geometry.TRIANGLE \/
  GetGeomType (GetFE0 m) = Geometry.TETRAHEDRON \/
  GetGeomType (GetFE0 m) = Geometry.PRISM ->
  let D := Z.to_nat (Dimension m) in
  exists mb NEsplit msplit p ir,
    split_reference (GetGeomType (GetFE0 m)) = Some (mb, NEsplit) /\
    SetNodalFESpace mb (GetOrder (GetFE0 m)) (Dimension m) = inr msplit /\
    ir_simplex (this s') = Some p /\
    heap s' !! p = Some (IntegrationRule ir) /\
    let dof_cnt := GetDof (GetFE0 msplit) in
    length ir = NEsplit * dof_cnt /\
    (forall e j, e < NEsplit -> j < dof_cnt ->
       exists ip, reference_point msplit D (Dimension m) e j = Some ip /\
                  ir !! (e * dof_cnt + j) = Some ip) /\
    (forall i k d, i < GetNE m -> k < length ir -> d < D ->
       exists ip v, ir !! k = Some ip /\
                    GetVectorValue m i ip !! d = Some v /\
                    gsl_mesh (this s') !! (length ir * GetNE m * d + (i * length ir + k))
                    = Some v).
Proof.
  intros H Hgt D.
  apply Setup_Returns in H as (s1 & args & _ & _ & Hext & _ & _ & ->).
  assert (GetSimplexNodalCoordinates
            {| this := set_dim (Dimension m) (set_mesh (Some m) (this s));
               heap := heap s; brk := brk s; calls := calls s |} = Returns tt s1) as Hs.
  { destruct Hgt as [Hg|[Hg|Hg]]; rewrite Hg in Hext; exact Hext. }
  clear Hext.
  apply GetSimplexNodalCoordinates_Returns in Hs
    as (m' & mb & NEsplit & msplit & dof_map & ir & b & Hm & Hsp & Hfes & _ & -> & Ht & Hl & Hf).
  cbn in Hm, Hsp, Hfes, Ht, Hl, Hf. injection Hm as <-.
  destruct Ht as (Hlen & Htab & _).
  exists mb, NEsplit, msplit, (S (brk s)), ir.
  do 2 (split; [done|]).
  split; [cbn; by destruct (Dimension m =? 2)%Z|].
  split.
  { cbn. rewrite lookup_insert_ne by lia. rewrite lookup_delete_ne by lia.
    by rewrite lookup_insert_eq. }
  cbn zeta. split; [done|]. split.
  - intros e j He Hj. apply Htab; [done|]. nia.
  - intros i k d Hi Hk Hd. rewrite Hlen in Hk |- *.
    set (cnt := NEsplit * GetDof (GetFE0 msplit)) in *.
    destruct (Hf i k d) as (v & Hv & Hb); [done|nia|done|].
    unfold physical_coordinate in Hv.
    apply bind_Some in Hv as (ip & Hip & Hv).
    exists ip, v. split; [done|]. split; [done|].
    cbn. by destruct (Dimension m =? 2)%Z.
Qed.

End SimplexTable.


(** The reference triangle: its table is the one [ir_simplex] points to. *)
Lemma simplex_table_shared_witness :
  Setup Example.unit_triangle (1#10)%Q (1#1000)%Q 256 construct
    = Returns tt Example.ready_triangle /\
  GetGeomType (GetFE0 Example.unit_triangle) = Geometry.TRIANGLE /\
  exists p ir, ir_simplex (this Example.ready_triangle) = Some p /\
               heap Example.ready_triangle !! p = Some (IntegrationRule ir).
Proof.
  assert (Setup Example.unit_triangle (1#10)%Q (1#1000)%Q 256 construct
          = Returns tt Example.ready_triangle) as H by (lazy; reflexivity).
  split; [exact H|]. split; [reflexivity|].
  destruct (simplex_table_shared _ _ _ _ _ _ H (or_introl eq_refl))
    as (mb & NEsplit & msplit & p & ir & _ & _ & Hp & Hir & _).
  exists p, ir. split; [exact Hp|exact Hir].
Defined.

(** ** The reference tables *)

(** C6.  The split of a reference simplex is read from fixed tables: a
    triangle gives 3 quadrilaterals on the 7 vertices of
    [Triangle.quad_v], a tetrahedron 4 hexahedra on the 15 vertices of
    [Tetrahedron.hex_v], a prism 3 hexahedra on the 14 vertices of
    [Prism.hex_v]; the connectivity is that of the tables, every element
    names 4 (resp. 8) vertices of its table, and element [j] carries
    attribute [j + 1].  The split is a function of the geometry kind alone. *)
Theorem split_reference_tables :
  (exists mb,
     split_reference Geometry.TRIANGLE = Some (mb, 3) /\
     mb_vertices mb = Triangle.quad_v /\ length (mb_vertices mb) = 7 /\
     mb_elements mb = zip Triangle.quad_e [1; 2; 3] /\ length (mb_elements mb) = 3 /\
     Forall (fun e => length e.1 = 4 /\ Forall (fun v => v < 7) e.1) (mb_elements mb)) /\
  (exists mb,
     split_reference Geometry.TETRAHEDRON = Some (mb, 4) /\
     mb_vertices mb = Tetrahedron.hex_v /\ length (mb_vertices mb) = 15 /\
     mb_elements mb = zip Tetrahedron.hex_e [1; 2; 3; 4] /\ length (mb_elements mb) = 4 /\
     Forall (fun e => length e.1 = 8 /\ Forall (fun v => v < 15) e.1) (mb_elements mb)) /\
  (exists mb,
     split_reference Geometry.PRISM = Some (mb, 3) /\
     mb_vertices mb = Prism.hex_v /\ length (mb_vertices mb) = 14 /\
     mb_elements mb = zip Prism.hex_e [1; 2; 3] /\ length (mb_elements mb) = 3 /\
     Forall (fun e => length e.1 = 8 /\ Forall (fun v => v < 14) e.1) (mb_elements mb)).
Proof.
  split; [|split]; eexists; (split; [reflexivity|]); cbn;
    repeat (split; [reflexivity|]);
    repeat (constructor; [split; [reflexivity|repeat constructor; lia]|]);
    constructor.
Qed.

(** ** [FindPoints] *)

Section FindPointsFacts.
Context {R : Type} `{!Collaborators R}.

#[local] Arguments at_stride : simpl never.

Lemma at_stride_double b i k :
  at_stride b i (sizeof_double * k) sizeof_double = b + i * k.
Proof.
  unfold at_stride, sizeof_double.
  replace (i * (8 * k)) with (i * k * 8) by lia. by rewrite Nat.div_mul.
Qed.

Lemma at_stride_double_1 b i : at_stride b i sizeof_double sizeof_double = b + i.
Proof. unfold at_stride, sizeof_double. by rewrite Nat.div_mul. Qed.

Lemma at_stride_unsigned_1 b i : at_stride b i sizeof_unsigned sizeof_unsigned = b + i.
Proof. unfold at_stride, sizeof_unsigned. by rewrite Nat.div_mul. Qed.

(** Writing [D] consecutive entries from [base] on. *)
Lemma store_block {A} (f : nat -> A) base D (r0 r : list A) :
  for_loop (fun k r => store r (base + k) (f k)) 0 D r0 = Some r ->
  length r = length r0 /\
  (forall k, k < D -> r !! (base + k) = Some (f k)) /\
  (forall idx, idx < base \/ base + D <= idx -> r !! idx = r0 !! idx).
Proof.
  intros Hrun.
  pose (J := fun (k : nat) (r : list A) =>
    length r = length r0 /\
    (forall k', k' < k -> r !! (base + k') = Some (f k')) /\
    (forall idx, idx < base \/ base + k <= idx -> r !! idx = r0 !! idx)).
  assert (J (0 + D) r) as HJ; [|exact HJ].
  apply (for_loop_inv J _ 0 D r0 r Hrun).
  - repeat split. intros; lia.
  - intros k t t' Hk (Hl & Hin & Hout) Hst.
    unfold store in Hst. case_decide; [|done]. injection Hst as <-.
    repeat split.
    + by rewrite length_insert.
    + intros k' Hk'. destruct (decide (k' = k)) as [->|Hne].
      * by apply list_lookup_insert_eq.
      * rewrite list_lookup_insert_ne by lia. apply Hin. lia.
    + intros idx Hidx. rewrite list_lookup_insert_ne by lia. apply Hout. lia.
Qed.

Lemma record_call_Returns c (s : State R) u s' :
  record_call c s = Returns u s' <->
  s' = {| this := this s; heap := heap s; brk := brk s; calls := calls s ++ [c] |}.
Proof. unfold record_call. destruct u. split; intros; simplify_eq; done. Qed.

Lemma the_findpts_data_Returns D fd (s : State R) args s' :
  the_findpts_data D fd s = Returns args s' <->
  exists h, fd = Some h /\ heap s !! h = Some (FindptsData args) /\
            sa_dim args = D /\ s' = s.
Proof.
  unfold the_findpts_data. split.
  - intros H.
    apply bind_Returns in H as (h & s1 & Hfd & H). apply defined_Returns in Hfd as [-> ->].
    apply bind_Returns in H as (o & s1 & Hload & H). unfold load in Hload.
    destruct (heap s !! h) as [o'|] eqn:Hh; [|done]. injection Hload as <- <-.
    destruct o'; try done. case_decide; [|done]. injection H as <- <-.
    exists h. done.
  - intros (h & -> & Hh & HD & ->).
    unfold mbind, M_bind, defined, load; cbn. rewrite Hh. cbn.
    by rewrite decide_True.
Qed.

(** The planar reads of one point, for the base pointers and strides that
    [FindPoints] passes. *)
Lemma planar_reads (x : list R) n D i :
  D = 2 \/ D = 3 ->
  mapM (fun d => b ← take D [0; n; 2 * n] !! d;
                 st ← take D [sizeof_double; sizeof_double; sizeof_double] !! d;
                 x !! at_stride b i st sizeof_double) (seq 0 D)
  = query_point x n D i.
Proof.
  unfold query_point. intros [-> | ->]; cbn;
    rewrite ?at_stride_double_1, ?Nat.add_0_r; done.
Qed.

(** The loop of the engine over the query points, for the strides that
    [FindPoints] passes: each point is read from the planar buffer and its
    reference coordinates are stored side by side. *)
Lemma findpts_loop_interleaved D args (x : list R) n (q q' : QueryArrays R) :
  D = 2 \/ D = 3 ->
  for_loop (findpts_one D args sizeof_unsigned sizeof_unsigned sizeof_unsigned
              (sizeof_double * D) sizeof_double x
              (take D [0; n; 2 * n])
              (take D [sizeof_double; sizeof_double; sizeof_double])) 0 n q = Some q' ->
  length (ref_pos q') = length (ref_pos q) /\
  forall i, i < n ->
    exists xi, query_point x n D i = Some xi /\
      forall k, k < D -> ref_pos q' !! (i * D + k) = Some (pr_r (findpts_point args xi) k).
Proof.
  intros HD Hrun.
  pose (I := fun (i : nat) (q1 : QueryArrays R) =>
    length (ref_pos q1) = length (ref_pos q) /\
    forall i', i' < i ->
      exists xi, query_point x n D i' = Some xi /\
        forall k, k < D ->
          ref_pos q1 !! (i' * D + k) = Some (pr_r (findpts_point args xi) k)).
  assert (I (0 + n) q') as HI; [|exact HI].
  apply (for_loop_inv I _ 0 n q q' Hrun).
  - split; [done|]. intros; lia.
  - intros i q1 q2 Hi (Hl & Hprev) Hone. unfold findpts_one in Hone.
    rewrite planar_reads in Hone by done.
    apply bind_Some in Hone as (xi & Hxi & Hone). cbn zeta in Hone.
    apply bind_Some in Hone as (c & Hc & Hone).
    apply bind_Some in Hone as (p & Hp & Hone).
    apply bind_Some in Hone as (e & He & Hone).
    apply bind_Some in Hone as (r & Hr & Hone).
    apply bind_Some in Hone as (ds & Hds & Hone). injection Hone as <-.
    rewrite at_stride_double in Hr. cbn [Nat.add] in Hr.
    apply store_block in Hr as (Hlr & Hin & Hout). unfold I. cbn [ref_pos].
    split; [by rewrite Hlr|].
    intros i' Hi'. destruct (decide (i' = i)) as [->|Hne].
    + exists xi. split; [done|]. intros k Hk. by apply Hin.
    + destruct (Hprev i') as (xi' & Hxi' & Hk'); [lia|].
      exists xi'. split; [done|]. intros k Hk.
      rewrite Hout; [by apply Hk'|]. left. nia.
Qed.

Lemma store_block_total {A} (f : nat -> A) base D (r0 : list A) :
  base + D <= length r0 ->
  exists r, for_loop (fun k r => store r (base + k) (f k)) 0 D r0 = Some r.
Proof.
  intros Hroom.
  destruct (for_loop_total (fun _ r => length r = length r0)
              (fun k r => store r (base + k) (f k)) 0 D r0) as (r & Hr & _); [done| |eauto].
  intros k t Hk Hl. unfold store. rewrite decide_True by lia.
  eexists. split; [done|]. by rewrite length_insert.
Qed.

Lemma query_point_is_Some (x : list R) n D i :
  i < n -> D * n <= length x -> is_Some (query_point x n D i).
Proof.
  intros Hi Hlen. unfold query_point. apply mapM_is_Some, Forall_forall.
  intros d Hd. apply elem_of_seq in Hd. apply lookup_lt_is_Some. nia.
Qed.

(** With a live search structure and room for [n] results, the loop of
    the engine over the query points runs to its end. *)
Lemma findpts_loop_total D args (x : list R) n (q : QueryArrays R) :
  D = 2 \/ D = 3 ->
  D * n <= length x ->
  n <= length (codes q) -> n <= length (proc_ids q) -> n <= length (elem_ids q) ->
  n * D <= length (ref_pos q) -> n <= length (dist q) ->
  exists q',
    for_loop (findpts_one D args sizeof_unsigned sizeof_unsigned sizeof_unsigned
                (sizeof_double * D) sizeof_double x
                (take D [0; n; 2 * n])
                (take D [sizeof_double; sizeof_double; sizeof_double])) 0 n q = Some q'.
Proof.
  intros HD Hx Hc Hp He Hr Hd.
  pose (I := fun (_ : nat) (q1 : QueryArrays R) =>
    length (codes q1) = length (codes q) /\ length (proc_ids q1) = length (proc_ids q) /\
    length (elem_ids q1) = length (elem_ids q) /\ length (ref_pos q1) = length (ref_pos q) /\
    length (dist q1) = length (dist q)).
  destruct (for_loop_total I
              (findpts_one D args sizeof_unsigned sizeof_unsigned sizeof_unsigned
                 (sizeof_double * D) sizeof_double x (take D [0; n; 2 * n])
                 (take D [sizeof_double; sizeof_double; sizeof_double])) 0 n q)
    as (q' & Hq' & _); [done| |eauto].
  intros i q1 Hi (Hc1 & Hp1 & He1 & Hr1 & Hd1). unfold findpts_one.
  rewrite planar_reads by done.
  rewrite !at_stride_unsigned_1, at_stride_double, at_stride_double_1. cbn [Nat.add].
  destruct (query_point_is_Some x n D i) as [xi ->]; [lia|done|].
  cbn [mbind option_bind].
  rewrite (store_lt (codes q1)) by lia. cbn [mbind option_bind].
  rewrite (store_lt (proc_ids q1)) by lia. cbn [mbind option_bind].
  rewrite (store_lt (elem_ids q1)) by lia. cbn [mbind option_bind].
  destruct (store_block_total (pr_r (findpts_point args xi)) (i * D) D (ref_pos q1))
    as (r & Hloop); [nia|].
  rewrite Hloop. cbn [mbind option_bind].
  rewrite (store_lt (dist q1)) by lia. cbn [mbind option_bind].
  eexists. split; [done|]. unfold I. cbn [codes proc_ids elem_ids ref_pos dist].
  apply store_block in Hloop as (Hlr & _). rewrite !length_insert. lia.
Qed.

End FindPointsFacts.

Section FindPointsLayout.
Context {R : Type} `{!Collaborators R}.

Lemma quot_of_nat a b :
  0 < b -> (Z.of_nat a ÷ Z.of_nat b)%Z = Z.of_nat (a / b).
Proof.
  intros Hb. rewrite Z.quot_div_nonneg by lia. by rewrite Nat2Z.inj_div.
Qed.

Lemma FindPoints_unfold (point_pos : list R) (q : QueryArrays R) (s : State R) :
  dim (this s) <> 0%Z ->
  let points_cnt := (Z.of_nat (length point_pos) ÷ dim (this s))%Z in
  FindPoints point_pos q s
  = findpts (engine_dim (this s)) q sizeof_unsigned sizeof_unsigned sizeof_unsigned
            (sizeof_double * Z.to_nat (dim (this s))) sizeof_double point_pos
            (take (engine_dim (this s)) [0; points_cnt; 2 * points_cnt]%Z)
            (take (engine_dim (this s)) [sizeof_double; sizeof_double; sizeof_double])
            points_cnt (engine_data (this s)) s.
Proof.
  intros H0 pc. apply Z.eqb_neq in H0.
  unfold FindPoints, get_this, int_div, engine_dim, engine_data, mbind at 1 2,
    M_bind at 1 2.
  rewrite H0. unfold mret, M_ret. fold pc.
  by destruct (dim (this s) =? 2)%Z.
Qed.

Lemma mapM_as_index_of_nat (l : list nat) (s : State R) :
  mapM as_index (map Z.of_nat l) s = Returns l s.
Proof.
  induction l as [|n l IH]; [done|]. cbn.
  apply bind_Returns. exists n, s. split.
  { apply as_index_Returns. split; [lia|]. by rewrite Nat2Z.id. }
  apply bind_Returns. exists l, s. split; [exact IH|done].
Qed.

(** C9.  [FindPoints] reads its query buffer by dimension and writes the
    reference coordinates by point.  With [n] the length of the buffer
    divided by [dim], the engine is called for [n] points; point [i] has
    coordinates [point_pos(i)], [point_pos(n + i)] (and
    [point_pos(2 n + i)]), and its [dim] reference coordinates are left in
    entries [i * dim .. i * dim + dim - 1] of [ref_pos]. *)
Theorem FindPoints_planar_in_interleaved_out (point_pos : list R)
    (q q' : QueryArrays R) (s s' : State R) :
  FindPoints point_pos q s = Returns q' s' ->
  dim (this s) = 2%Z \/ dim (this s) = 3%Z ->
  let D := Z.to_nat (dim (this s)) in
  let n := length point_pos / D in
  exists fd args,
    engine_data (this s) = Some fd /\
    heap s !! fd = Some (FindptsData args) /\
    calls s' = calls s ++ [CallFind D (Z.of_nat n) (Some fd)] /\
    length (ref_pos q') = length (ref_pos q) /\
    forall i, i < n ->
      exists xi, query_point point_pos n D i = Some xi /\
        forall k, k < D ->
          ref_pos q' !! (i * D + k) = Some (pr_r (findpts_point args xi) k).
Proof.
  intros H Hdim D n.
  assert (dim (this s) <> 0%Z) as H0 by lia.
  assert (D = 2 \/ D = 3) as HD by (unfold D; lia).
  assert (engine_dim (this s) = D) as Hed.
  { unfold engine_dim, D. by destruct Hdim as [-> | ->]. }
  assert ((Z.of_nat (length point_pos) ÷ dim (this s))%Z = Z.of_nat n) as Hpc.
  { replace (dim (this s)) with (Z.of_nat D) by (unfold D; lia).
    apply quot_of_nat. lia. }
  rewrite (FindPoints_unfold _ _ _ H0), Hed, Hpc in H. fold D in H.
  replace (2 * Z.of_nat n)%Z with (Z.of_nat (2 * n)) in H by lia.
  change [0%Z; Z.of_nat n; Z.of_nat (2 * n)] with (map Z.of_nat [0; n; 2 * n]) in H.
  rewrite firstn_map in H. unfold findpts in H.
  apply bind_Returns in H as (u & s1 & Hrec & H).
  apply record_call_Returns in Hrec. subst s1.
  apply bind_Returns in H as (args & s1 & Hfd & H).
  apply the_findpts_data_Returns in Hfd as (fd & Hfd & Hheap & _ & ->).
  apply bind_Returns in H as (n' & s1 & Hn & H).
  apply as_index_Returns in Hn as (_ & -> & ->). rewrite Nat2Z.id in H.
  apply bind_Returns in H as (bases & s1 & Hb & H).
  rewrite mapM_as_index_of_nat in Hb. injection Hb as <- <-.
  apply defined_Returns in H as [Hloop ->].
  apply findpts_loop_interleaved in Hloop as [Hl Hpts]; [|done].
  exists fd, args. rewrite Hfd. done.
Qed.

(** [FindPoints] returns when [dim] is 2 or 3, the search structure is
    allocated and the result arrays have room for every query point. *)
Lemma FindPoints_returns (point_pos : list R) (q : QueryArrays R) (s : State R) fd args :
  dim (this s) = 2%Z \/ dim (this s) = 3%Z ->
  engine_data (this s) = Some fd ->
  heap s !! fd = Some (FindptsData args) ->
  sa_dim args = engine_dim (this s) ->
  let D := Z.to_nat (dim (this s)) in
  let n := length point_pos / D in
  n <= length (codes q) -> n <= length (proc_ids q) -> n <= length (elem_ids q) ->
  n * D <= length (ref_pos q) -> n <= length (dist q) ->
  exists q' s', FindPoints point_pos q s = Returns q' s'.
Proof.
  intros Hdim Hfd Hheap Hsa D n Hc Hp He Hr Hd.
  assert (dim (this s) <> 0%Z) as H0 by lia.
  assert (D = 2 \/ D = 3) as HD by (unfold D; lia).
  assert (engine_dim (this s) = D) as Hed.
  { unfold engine_dim, D. by destruct Hdim as [-> | ->]. }
  assert ((Z.of_nat (length point_pos) ÷ dim (this s))%Z = Z.of_nat n) as Hpc.
  { replace (dim (this s)) with (Z.of_nat D) by (unfold D; lia).
    apply quot_of_nat. lia. }
  rewrite (FindPoints_unfold _ _ _ H0), Hed, Hpc, Hfd. fold D.
  replace (2 * Z.of_nat n)%Z with (Z.of_nat (2 * n)) by lia.
  change [0%Z; Z.of_nat n; Z.of_nat (2 * n)] with (map Z.of_nat [0; n; 2 * n]).
  rewrite firstn_map.
  destruct (findpts_loop_total D args point_pos n q HD) as (q' & Hloop); try done.
  { unfold n. pose proof (Nat.div_mod (length point_pos) D). lia. }
  eexists q', _. unfold findpts.
  apply bind_Returns. eexists _, _. split; [reflexivity|].
  apply bind_Returns. eexists args, _. split.
  { apply the_findpts_data_Returns. exists fd. rewrite <- Hed. done. }
  apply bind_Returns. eexists n, _. split.
  { apply as_index_Returns. split; [lia|]. by rewrite Nat2Z.id. }
  apply bind_Returns. eexists _, _. split; [apply mapM_as_index_of_nat|].
  apply defined_Returns. done.
Qed.

End FindPointsLayout.

(** ** [Interpolate] *)

Section InterpolateFacts.
Context {R : Type} `{!Collaborators R}.

#[local] Arguments at_stride : simpl never.

Lemma for_each_inv {St} (I : nat -> St -> State R -> Prop)
    (body : nat -> St -> M R St) lo n st (s : State R) st' s' :
  for_each body lo n st s = Returns st' s' ->
  I lo st s ->
  (forall k t u t' u', lo <= k < lo + n -> I k t u ->
     body k t u = Returns t' u' -> I (S k) t' u') ->
  I (lo + n) st' s'.
Proof.
  revert lo st s. induction n as [|n IH]; intros lo st s Hrun H0 Hstep; simpl in Hrun.
  - injection Hrun as <- <-. by rewrite Nat.add_0_r.
  - apply bind_Returns in Hrun as (t1 & s1 & Hb & Hrun).
    replace (lo + S n) with (S lo + n) by lia.
    apply (IH (S lo) t1 s1 Hrun).
    + apply (Hstep lo st s t1 s1); [lia|done|done].
    + intros k t u t' u' Hk. apply Hstep. lia.
Qed.

(** [GetNodeValues] only reads. *)
Lemma reads_only_bind {A B} (m : M R A) (f : A -> M R B) :
  reads_only m -> (forall a, reads_only (f a)) -> reads_only (m ≫= f).
Proof.
  intros Hm Hf s u b u' Ht Hh H.
  apply bind_Returns in H as (a & u1 & Hmu & Hfu).
  destruct (Hm s u a u1 Ht Hh Hmu) as [-> Hms].
  destruct (Hf a s u b u' Ht Hh Hfu) as [-> Hfs].
  split; [done|]. apply bind_Returns. eauto.
Qed.

Lemma reads_only_ret {A} (a : A) : reads_only (mret a : M R A).
Proof. intros s u b u' _ _ H. injection H as <- <-. done. Qed.

Lemma reads_only_fault {A} : reads_only (fault : M R A).
Proof. intros s u b u' _ _ H. done. Qed.

Lemma reads_only_abort {A} msg : reads_only (MFEM_ABORT msg : M R A).
Proof. intros s u b u' _ _ H. done. Qed.

Lemma reads_only_defined {A} (o : option A) : reads_only (defined o : M R A).
Proof. destruct o; [apply reads_only_ret|apply reads_only_fault]. Qed.

Lemma reads_only_verify c msg : reads_only (MFEM_VERIFY c msg : M R unit).
Proof. destruct c; [apply reads_only_ret|apply reads_only_abort]. Qed.

Lemma reads_only_get_this : reads_only (get_this : M R _).
Proof.
  intros s u b u' Ht _ H. injection H as <- <-. unfold get_this. by rewrite Ht.
Qed.

Lemma reads_only_load p : reads_only (load p : M R _).
Proof.
  intros s u b u' _ Hh H. unfold load in *. rewrite <- Hh.
  destruct (heap u !! p); [|done]. injection H as <- <-. done.
Qed.

Lemma reads_only_GetNodeValues gf_in node_vals :
  reads_only (GetNodeValues gf_in node_vals).
Proof.
  unfold GetNodeValues.
  repeat first
    [ apply reads_only_bind | apply reads_only_get_this | apply reads_only_defined
    | apply reads_only_verify | apply reads_only_load | apply reads_only_ret
    | apply reads_only_fault | apply reads_only_abort
    | match goal with |- forall _, reads_only _ => intros ? end
    | match goal with
      | |- reads_only (match ?x with _ => _ end) => destruct x eqn:?
      end ].
Qed.

Lemma GetNodeValues_Returns_state gf_in node_vals (s : State R) nv s' :
  GetNodeValues gf_in node_vals s = Returns nv s' -> s' = s.
Proof.
  intros H. by destruct (reads_only_GetNodeValues gf_in node_vals s s nv s' eq_refl eq_refl H).
Qed.

Lemma GetNodeValues_same_objects gf_in node_vals (s u : State R) nv :
  this u = this s -> heap u = heap s ->
  GetNodeValues gf_in node_vals u = Returns nv u ->
  GetNodeValues gf_in node_vals s = Returns nv s.
Proof.
  intros Ht Hh H. by destruct (reads_only_GetNodeValues gf_in node_vals s u nv u Ht Hh H).
Qed.

(** The loop of the engine over the points to evaluate, for the strides
    that [Interpolate] passes. *)
Lemma findpts_eval_loop D args base (q : QueryArrays R) dim_ node_vals n
    (out out' : list R) :
  for_loop (findpts_eval_one D args base sizeof_double q sizeof_unsigned
              sizeof_unsigned sizeof_unsigned (sizeof_double * Z.to_nat dim_)
              node_vals) 0 n out = Some out' ->
  length out' = length out /\
  (forall k, k < n ->
     base + k < length out /\
     exists code proc el r,
       codes q !! k = Some code /\ proc_ids q !! k = Some proc /\
       elem_ids q !! k = Some el /\ result_coordinates q dim_ D k = Some r /\
       out' !! (base + k) = Some (findpts_eval_point args code proc el r node_vals)) /\
  (forall idx, idx < base \/ base + n <= idx -> out' !! idx = out !! idx).
Proof.
  intros Hrun.
  pose (I := fun (i : nat) (o : list R) =>
    length o = length out /\
    (forall k, k < i ->
       base + k < length out /\
       exists code proc el r,
         codes q !! k = Some code /\ proc_ids q !! k = Some proc /\
         elem_ids q !! k = Some el /\ result_coordinates q dim_ D k = Some r /\
         o !! (base + k) = Some (findpts_eval_point args code proc el r node_vals)) /\
    (forall idx, idx < base \/ base + i <= idx -> o !! idx = out !! idx)).
  assert (I (0 + n) out') as HI; [|exact HI].
  apply (for_loop_inv I _ 0 n out out' Hrun).
  - repeat split. intros; lia. intros; lia.
  - intros i o o' Hi (Hl & Hin & Hout) Hone. unfold findpts_eval_one in Hone.
    rewrite !at_stride_unsigned_1, at_stride_double, at_stride_double_1 in Hone.
    cbn [Nat.add] in Hone.
    apply bind_Some in Hone as (c & Hc & Hone).
    apply bind_Some in Hone as (p & Hp & Hone).
    apply bind_Some in Hone as (e & He & Hone).
    apply bind_Some in Hone as (r & Hr & Hone).
    apply store_Some in Hone as [Hlt ->].
    split; [by rewrite length_insert|]. split.
    + intros k Hk. destruct (decide (k = i)) as [->|Hne].
      * split; [lia|]. exists c, p, e, r. do 4 (split; [done|]).
        by apply list_lookup_insert_eq.
      * destruct (Hin k) as (Hb & code & proc & el & r' & ? & ? & ? & ? & Ho); [lia|].
        split; [done|]. exists code, proc, el, r'. do 4 (split; [done|]).
        rewrite list_lookup_insert_ne by lia. done.
    + intros idx Hidx. rewrite list_lookup_insert_ne by lia. apply Hout. lia.
Qed.

(** [GetNodeValues] returns on quadrilaterals and hexahedra when the dof
    map names values that [GetValues] provides. *)
Lemma GetNodeValues_returns_tensor gf_in node_vals (s : State R) (m : Mesh R) dof_map :
  mesh (this s) = Some m ->
  GetGeomType (GetFE0 m) = Geometry.SQUARE \/ GetGeomType (GetFE0 m) = Geometry.CUBE ->
  is_Some (GetNodes m) ->
  GetDofMap (GetFE0 m) = Some dof_map ->
  (forall i j, i < GetNE m -> j < length (GetNodesIR (GetFE0 m)) ->
     exists k, dof_map !! j = Some k /\
               k < length (GetValues m gf_in i (GetNodesIR (GetFE0 m)))) ->
  exists nv, GetNodeValues gf_in node_vals s = Returns nv s.
Proof.
  intros Hm Hgt [data Hdata] Hmap Hvals.
  set (ir := GetNodesIR (GetFE0 m)) in *. set (cnt := length ir) in *.
  pose (K := fun (n : nat) (st : list R * nat) =>
    st.2 = n /\ length st.1 = GetNE m * cnt).
  assert (exists st,
    for_loop (fun i st =>
                let vals_el := GetValues m gf_in i ir in
                for_loop (fun j '(node_vals, pt_id) =>
                            k ← dof_map !! j;
                            v ← vals_el !! k;
                            nv ← store node_vals pt_id v;
                            Some (nv, S pt_id)) 0 cnt st)
             0 (GetNE m) (SetSize (GetNE m * cnt) node_vals, 0) = Some st) as ([nv pt] & Hloop).
  { edestruct (for_loop_total (fun i st => K (i * cnt) st)) as (st & Hst & _);
      [| |exists st; exact Hst].
    { split; [done|]. apply length_SetSize. }
    intros i st Hi HK. cbn zeta.
    replace (S i * cnt) with (i * cnt + (0 + cnt)) by lia.
    apply (for_loop_total (fun j st => K (i * cnt + j) st)).
    { by rewrite Nat.add_0_r. }
    intros j [b pt] Hj [Hpt Hb]. cbn in Hpt, Hb. subst pt.
    destruct (Hvals i j) as (k & -> & Hk); [lia|lia|]. cbn [mbind option_bind].
    destruct (lookup_lt_is_Some_2 _ k Hk) as [v ->]. cbn [mbind option_bind].
    rewrite store_lt by nia. cbn [mbind option_bind].
    eexists. split; [done|]. unfold K. cbn. rewrite length_insert. split; [lia|done]. }
  exists nv. unfold GetNodeValues.
  apply bind_Returns. eexists _, _. split; [reflexivity|].
  apply bind_Returns. eexists m, _. split; [by apply defined_Returns|]. cbn zeta.
  assert ((_ ← defined (GetNodes m);
           MFEM_VERIFY (bool_decide (is_Some (GetDofMap (GetFE0 m))))
                       "TensorBasis FiniteElement expected.";;
           dof_map ← defined (GetDofMap (GetFE0 m));
           '(node_vals, _) ← defined (
              for_loop (fun i st =>
                          let vals_el := GetValues m gf_in i ir in
                          for_loop (fun j '(node_vals, pt_id) =>
                                      k ← dof_map !! j;
                                      v ← vals_el !! k;
                                      nv ← store node_vals pt_id v;
                                      Some (nv, S pt_id)) 0 cnt st)
                       0 (GetNE m) (SetSize (GetNE m * cnt) node_vals, 0));
           mret node_vals) s = Returns nv s) as Hrun.
  { apply bind_Returns. eexists data, _. split; [by apply defined_Returns|].
    apply bind_Returns. eexists tt, _. split.
    { apply MFEM_VERIFY_Returns. split; [|done]. rewrite Hmap. by apply bool_decide_eq_true. }
    apply bind_Returns. eexists dof_map, _. split; [by apply defined_Returns|].
    apply bind_Returns. eexists (nv, pt), _. split; [by apply defined_Returns|]. done. }
  destruct Hgt as [-> | ->]; exact Hrun.
Qed.

(** [GetNodeValues] returns on triangles, tetrahedra and prisms when
    [GetValues] provides a value for every point of the table. *)
Lemma GetNodeValues_returns_simplex gf_in node_vals (s : State R) (m : Mesh R) p ir :
  mesh (this s) = Some m ->
  GetGeomType (GetFE0 m) = Geometry.TRIANGLE \/
  GetGeomType (GetFE0 m) = Geometry.TETRAHEDRON \/
  GetGeomType (GetFE0 m) = Geometry.PRISM ->
  ir_simplex (this s) = Some p ->
  heap s !! p = Some (IntegrationRule ir) ->
  (forall j, j < GetNE m -> length ir <= length (GetValues m gf_in j ir)) ->
  exists nv, GetNodeValues gf_in node_vals s = Returns nv s.
Proof.
  intros Hm Hgt Hp Hir Hvals. set (cnt := length ir) in *.
  pose (K := fun (n : nat) (st : list R * nat) =>
    st.2 = n /\ length st.1 = GetNE m * cnt).
  assert (exists st,
    for_loop (fun j st =>
                let vals_el := GetValues m gf_in j ir in
                for_loop (fun i '(node_vals, pt_id) =>
                            v ← vals_el !! i;
                            nv ← store node_vals pt_id v;
                            Some (nv, S pt_id)) 0 cnt st)
             0 (GetNE m) (SetSize (GetNE m * cnt) node_vals, 0) = Some st) as ([nv pt] & Hloop).
  { edestruct (for_loop_total (fun i st => K (i * cnt) st)) as (st & Hst & _);
      [| |exists st; exact Hst].
    { split; [done|]. apply length_SetSize. }
    intros j st Hj HK. cbn zeta.
    replace (S j * cnt) with (j * cnt + (0 + cnt)) by lia.
    apply (for_loop_total (fun i st => K (j * cnt + i) st)).
    { by rewrite Nat.add_0_r. }
    intros i [b pt] Hi [Hpt Hb]. cbn in Hpt, Hb. subst pt.
    destruct (lookup_lt_is_Some_2 (GetValues m gf_in j ir) i) as [v ->].
    { specialize (Hvals j). lia. }
    cbn [mbind option_bind]. rewrite store_lt by nia. cbn [mbind option_bind].
    eexists. split; [done|]. unfold K. cbn. rewrite length_insert. split; [lia|done]. }
  exists nv. unfold GetNodeValues.
  apply bind_Returns. eexists _, _. split; [reflexivity|].
  apply bind_Returns. eexists m, _. split; [by apply defined_Returns|]. cbn zeta.
  assert ((p ← defined (ir_simplex (this s));
           o ← load p;
           ir ← match o with IntegrationRule ir => mret ir | _ => fault end;
           '(node_vals, _) ← defined (
              for_loop (fun j st =>
                          let vals_el := GetValues m gf_in j ir in
                          for_loop (fun i '(node_vals, pt_id) =>
                                      v ← vals_el !! i;
                                      nv ← store node_vals pt_id v;
                                      Some (nv, S pt_id)) 0 (length ir) st)
                       0 (GetNE m) (SetSize (GetNE m * length ir) node_vals, 0));
           mret node_vals) s = Returns nv s) as Hrun.
  { apply bind_Returns. eexists p, _. split; [by apply defined_Returns|].
    apply bind_Returns. eexists _, _. split; [unfold load; rewrite Hir; reflexivity|].
    apply bind_Returns. eexists ir, _. split; [reflexivity|].
    apply bind_Returns. eexists (nv, pt), _. split; [by apply defined_Returns|]. done. }
  destruct Hgt as [-> | [-> | ->]]; exact Hrun.
Qed.

Lemma for_each_total {St} (I : nat -> St -> State R -> Prop)
    (body : nat -> St -> M R St) lo n st (s : State R) :
  I lo st s ->
  (forall k t u, lo <= k < lo + n -> I k t u ->
     exists t' u', body k t u = Returns t' u' /\ I (S k) t' u') ->
  exists st' s', for_each body lo n st s = Returns st' s' /\ I (lo + n) st' s'.
Proof.
  revert lo st s. induction n as [|n IH]; intros lo st s H0 Hstep; simpl.
  - exists st, s. by rewrite Nat.add_0_r.
  - destruct (Hstep lo st s) as (t1 & s1 & Hb & H1); [lia|done|].
    replace (lo + S n) with (S lo + n) by lia.
    destruct (IH (S lo) t1 s1 H1) as (st' & s' & Hrun & HI).
    { intros k t u Hk. apply Hstep. lia. }
    exists st', s'. split; [|done]. apply bind_Returns. eauto.
Qed.

(** With room in the arrays, the loop of the engine over the points to
    evaluate runs to its end. *)
Lemma findpts_eval_loop_total D args base (q : QueryArrays R) dim_ node_vals n
    (out : list R) :
  n <= length (codes q) -> n <= length (proc_ids q) -> n <= length (elem_ids q) ->
  (forall k, k < n -> k * Z.to_nat dim_ + D <= length (ref_pos q)) ->
  base + n <= length out ->
  exists out',
    for_loop (findpts_eval_one D args base sizeof_double q sizeof_unsigned
                sizeof_unsigned sizeof_unsigned (sizeof_double * Z.to_nat dim_)
                node_vals) 0 n out = Some out'.
Proof.
  intros Hc Hp He Hr Ho.
  edestruct (for_loop_total (fun (_ : nat) (o : list R) => length o = length out))
    as (out' & Hout' & _); [| |exists out'; exact Hout'].
  { done. }
  intros k o Hk Hl. unfold findpts_eval_one.
  rewrite !at_stride_unsigned_1, at_stride_double, at_stride_double_1. cbn [Nat.add].
  destruct (lookup_lt_is_Some_2 (codes q) k) as [c ->]; [lia|]. cbn [mbind option_bind].
  destruct (lookup_lt_is_Some_2 (proc_ids q) k) as [p ->]; [lia|]. cbn [mbind option_bind].
  destruct (lookup_lt_is_Some_2 (elem_ids q) k) as [e ->]; [lia|]. cbn [mbind option_bind].
  assert (is_Some (mapM (fun j => ref_pos q !! (k * Z.to_nat dim_ + j)) (seq 0 D)))
    as [r ->].
  { apply mapM_is_Some, Forall_forall. intros j Hj. apply elem_of_seq in Hj.
    apply lookup_lt_is_Some. specialize (Hr k). lia. }
  cbn [mbind option_bind]. rewrite store_lt by lia.
  eexists. split; [done|]. by rewrite length_insert.
Qed.

End InterpolateFacts.

Section InterpolateLayout.
Context {R : Type} `{!Collaborators R}.

Lemma findpts_eval_Returns D (out : list R) off stride q cs ps es rs npt nv fd
    (s : State R) out' s' :
  findpts_eval D out off stride q cs ps es rs npt nv fd s = Returns out' s' ->
  exists h args,
    fd = Some h /\ heap s !! h = Some (FindptsData args) /\ sa_dim args = D /\
    (0 <= npt)%Z /\ (0 <= off)%Z /\
    for_loop (findpts_eval_one D args (Z.to_nat off) stride q cs ps es rs nv)
             0 (Z.to_nat npt) out = Some out' /\
    s' = {| this := this s; heap := heap s; brk := brk s;
            calls := calls s ++ [CallEval D off npt nv fd] |}.
Proof.
  unfold findpts_eval. intros H.
  apply bind_Returns in H as (u & s1 & Hrec & H). apply record_call_Returns in Hrec. subst s1.
  apply bind_Returns in H as (args & s1 & Hfd & H).
  apply the_findpts_data_Returns in Hfd as (h & -> & Hheap & HD & ->).
  apply bind_Returns in H as (n & s1 & Hn & H). apply as_index_Returns in Hn as (Hn & -> & ->).
  apply bind_Returns in H as (b & s1 & Hb & H). apply as_index_Returns in Hb as (Hb & -> & ->).
  apply defined_Returns in H as [Hloop ->].
  exists h, args. cbn in Hheap. done.
Qed.

(** One turn of the loop over the components. *)
Lemma Interpolate_component_Returns (q : QueryArrays R) field_in pc i nv out nv' out'
    (s s' : State R) :
  Interpolate_component q field_in (Z.of_nat pc) i (nv, out) s = Returns (nv', out') s' ->
  exists fd args,
    engine_data (this s) = Some fd /\
    heap s !! fd = Some (FindptsData args) /\
    GetNodeValues (drop (i * pc) (gf_data field_in)) nv s = Returns nv' s /\
    s' = {| this := this s; heap := heap s; brk := brk s;
            calls := calls s ++ [CallEval (engine_dim (this s)) (Z.of_nat (i * pc))
                                          (Z.of_nat pc) nv' (Some fd)] |} /\
    length out' = length out /\
    (forall k, k < pc ->
       i * pc + k < length out /\
       exists code proc el r,
         codes q !! k = Some code /\ proc_ids q !! k = Some proc /\
         elem_ids q !! k = Some el /\
         result_coordinates q (dim (this s)) (engine_dim (this s)) k = Some r /\
         out' !! (i * pc + k) = Some (findpts_eval_point args code proc el r nv')) /\
    (forall idx, idx < i * pc \/ i * pc + pc <= idx -> out' !! idx = out !! idx).
Proof.
  unfold Interpolate_component. intros H.
  apply bind_Returns in H as (t & s1 & Ht & H). injection Ht as <- <-.
  apply bind_Returns in H as (off & s1 & Hoff & H).
  apply as_index_Returns in Hoff as (_ & -> & ->).
  rewrite <- Nat2Z.inj_mul, Nat2Z.id in H.
  apply bind_Returns in H as (nv1 & s1 & Hnv & H).
  pose proof (GetNodeValues_Returns_state _ _ _ _ _ Hnv) as ->.
  apply bind_Returns in H as (o1 & s1 & Hev & H). injection H as <- <- <-.
  assert (findpts_eval (engine_dim (this s)) out (Z.of_nat (i * pc)) sizeof_double q
            sizeof_unsigned sizeof_unsigned sizeof_unsigned
            (sizeof_double * Z.to_nat (dim (this s))) (Z.of_nat pc) nv1
            (engine_data (this s)) s = Returns o1 s1) as Hev'.
  { unfold engine_dim, engine_data. by destruct (dim (this s) =? 2)%Z. }
  clear Hev.
  apply findpts_eval_Returns in Hev' as (h & args & Hfd & Hheap & _ & _ & _ & Hloop & ->).
  rewrite !Nat2Z.id in Hloop.
  apply findpts_eval_loop in Hloop as (Hl & Hin & Hout).
  exists h, args. rewrite Hfd. done.
Qed.

End InterpolateLayout.

Section InterpolateClaims.
Context {R : Type} `{!Collaborators R}.

(** C10.  [Interpolate] takes the components of the field from one planar
    storage and never resizes its output.  With [C] the number of
    components and [pc] the size of the field divided by [C]: the output has
    the length it had; whenever [Interpolate] returns, the output had at
    least [C * pc] entries, that is at least the size of the field when [C]
    divides it; for every component [c], the nodal values handed to the
    engine are those of the scalar function whose data starts [c * pc]
    entries into the storage of the field, and the value computed for
    result [k] is entry [c * pc + k] of the output. *)
Theorem Interpolate_planar_components (q : QueryArrays R) (field_in : GridFunction R)
    (field_out out' : list R) (s s' : State R) :
  Interpolate q field_in field_out s = Returns out' s' ->
  let C := Z.to_nat (gf_VDim field_in) in
  let fieldSize := length (gf_data field_in) in
  let pc := fieldSize / C in
  length out' = length field_out /\
  C * pc <= length field_out /\
  (fieldSize `mod` C = 0 -> 0 < C -> fieldSize <= length field_out) /\
  forall c, c < C ->
    exists fd args nv0 nv,
      engine_data (this s) = Some fd /\
      heap s !! fd = Some (FindptsData args) /\
      GetNodeValues (drop (c * pc) (gf_data field_in)) nv0 s = Returns nv s /\
      calls s' !! (length (calls s) + c)
      = Some (CallEval (engine_dim (this s)) (Z.of_nat (c * pc)) (Z.of_nat pc) nv (Some fd)) /\
      forall k, k < pc ->
        exists code proc el r,
          codes q !! k = Some code /\ proc_ids q !! k = Some proc /\
          elem_ids q !! k = Some el /\
          result_coordinates q (dim (this s)) (engine_dim (this s)) k = Some r /\
          out' !! (c * pc + k) = Some (findpts_eval_point args code proc el r nv).
Proof.
  intros H C fieldSize pc. unfold Interpolate in H.
  apply bind_Returns in H as (t & s1 & Ht & H). injection Ht as <- <-.
  apply bind_Returns in H as (m & s1 & Hm & H). apply defined_Returns in Hm as [_ ->].
  apply bind_Returns in H as (nd & s1 & Hnd & H). apply defined_Returns in Hnd as [Hnd ->].
  apply bind_Returns in H as (uf & s1 & Hfec & H).
  destruct (H1_FECollection (GetOrder (GetFE0 m)) (dim (this s))) as [e|uf'] eqn:HH1; [done|].
  injection Hfec as <- <-.
  cbn zeta in H.
  apply bind_Returns in H as (pcz & s1 & Hdiv & H).
  apply int_div_Returns in Hdiv as (Hnz & -> & ->).
  apply bind_Returns in H as ([nvf outf] & s1 & Hloop & H). injection H as <- <-.
  fold C fieldSize in Hloop.
  pose (I := fun (c : nat) (st : list R * list R) (u : State R) =>
    this u = this s /\ heap u = heap s /\
    length st.2 = length field_out /\
    length (calls u) = length (calls s) + c /\
    forall c', c' < c ->
      (forall k, k < pc -> c' * pc + k < length field_out) /\
      exists fd args nv0 nv,
        engine_data (this s) = Some fd /\
        heap s !! fd = Some (FindptsData args) /\
        GetNodeValues (drop (c' * pc) (gf_data field_in)) nv0 s = Returns nv s /\
        calls u !! (length (calls s) + c')
        = Some (CallEval (engine_dim (this s)) (Z.of_nat (c' * pc)) (Z.of_nat pc) nv
                         (Some fd)) /\
        forall k, k < pc ->
          exists code proc el r,
            codes q !! k = Some code /\ proc_ids q !! k = Some proc /\
            elem_ids q !! k = Some el /\
            result_coordinates q (dim (this s)) (engine_dim (this s)) k = Some r /\
            st.2 !! (c' * pc + k) = Some (findpts_eval_point args code proc el r nv)).
  assert (I (0 + C) (nvf, outf) s1) as (_ & _ & Hlen & _ & Hall).
  { apply (for_each_inv I _ 0 C _ _ _ _ Hloop).
    - unfold I; cbn. repeat split; try done; try lia. all: intros; lia.
    - intros c [nv out] u [nv' out'0] u' Hc (Hthis & Hheap & Hl & Hcalls & Hprev) Hbody.
      assert (0 < C) as HC by lia.
      assert (gf_VDim field_in = Z.of_nat C) as HCz by (unfold C; lia).
      rewrite HCz, (quot_of_nat _ C HC) in Hbody. fold pc in Hbody.
      apply Interpolate_component_Returns in Hbody
        as (fd & args & Hfd & Hh & Hnv & -> & Hl' & Hin & Hout).
      cbn [fst snd] in *. unfold I; cbn [fst snd this heap calls].
      rewrite Hthis, Hheap in *.
      split; [done|]. split; [done|]. split; [congruence|].
      split; [rewrite length_app; cbn; lia|].
      intros c' Hc'. destruct (decide (c' = c)) as [->|Hne].
      + split; [intros k Hk; destruct (Hin k Hk) as [? _]; lia|].
        exists fd, args, nv, nv'. do 2 (split; [done|]).
        split; [by apply (GetNodeValues_same_objects _ _ s u)|].
        split; [rewrite <- Hcalls; by apply list_lookup_middle|].
        intros k Hk. destruct (Hin k Hk) as [_ Hk']. exact Hk'.
      + destruct (Hprev c') as (Hb & fd' & args' & nv0 & nv1 & ? & ? & ? & Hcall & Hvals);
          [lia|].
        split; [done|]. exists fd', args', nv0, nv1. do 3 (split; [done|]).
        split; [rewrite lookup_app_l by lia; done|].
        intros k Hk. destruct (Hvals k Hk) as (code & proc & el & r & ? & ? & ? & ? & Hv).
        exists code, proc, el, r. do 4 (split; [done|]).
        rewrite Hout; [done|]. left. nia. }
  cbn [fst snd] in *.
  split; [done|].
  assert (C * pc <= length field_out) as Hroom.
  { destruct C as [|C']; [lia|]. destruct pc as [|pc']; [lia|].
    destruct (Hall C') as [Hb _]; [lia|]. specialize (Hb pc'). nia. }
  split; [done|]. split.
  - intros Hmod HC. pose proof (Nat.div_mod fieldSize C). fold pc in H. lia.
  - intros c Hc. destruct (Hall c Hc) as (_ & fd & args & nv0 & nv & ? & ? & ? & ? & ?).
    exists fd, args, nv0, nv. done.
Qed.

(** [Interpolate] returns when the library builds the scalar space, the
    search structure is allocated, the node values of every component can be
    taken, and the arrays have room for [fieldSize / C] results per
    component. *)
Lemma Interpolate_returns (q : QueryArrays R) (field_in : GridFunction R)
    (field_out : list R) (s : State R) m fd args :
  mesh (this s) = Some m ->
  is_Some (GetNodes m) ->
  H1_FECollection (GetOrder (GetFE0 m)) (dim (this s)) = inr tt ->
  engine_data (this s) = Some fd ->
  heap s !! fd = Some (FindptsData args) ->
  sa_dim args = engine_dim (this s) ->
  (0 < gf_VDim field_in)%Z ->
  let C := Z.to_nat (gf_VDim field_in) in
  let pc := length (gf_data field_in) / C in
  (forall c nv0, c < C ->
     exists nv, GetNodeValues (drop (c * pc) (gf_data field_in)) nv0 s = Returns nv s) ->
  pc <= length (codes q) -> pc <= length (proc_ids q) -> pc <= length (elem_ids q) ->
  (forall k, k < pc ->
     k * Z.to_nat (dim (this s)) + engine_dim (this s) <= length (ref_pos q)) ->
  C * pc <= length field_out ->
  exists out' s', Interpolate q field_in field_out s = Returns out' s'.
Proof.
  intros Hm [nd Hnd] HH1 Hfd Hheap Hsa HC C pc Hnv Hc Hp He Hr Ho.
  assert (gf_VDim field_in = Z.of_nat C) as HCz by (unfold C; lia).
  assert ((Z.of_nat (length (gf_data field_in)) ÷ gf_VDim field_in)%Z = Z.of_nat pc) as Hpc.
  { rewrite HCz. apply quot_of_nat. lia. }
  pose (I := fun (_ : nat) (st : list R * list R) (u : State R) =>
    this u = this s /\ heap u = heap s /\ length st.2 = length field_out).
  destruct (for_each_total I (Interpolate_component q field_in (Z.of_nat pc)) 0 C
              ([], field_out) s) as ([nvf outf] & s' & Hloop & _); [done| |].
  { intros c [nv out] u Hc' (Hthis & Hh & Hl). cbn in Hl.
    destruct (Hnv c nv) as (nv' & Hnv'); [lia|].
    destruct (reads_only_GetNodeValues (drop (c * pc) (gf_data field_in)) nv u s nv' s)
      as [_ Hnvu]; [done|done|exact Hnv'|].
    destruct (findpts_eval_loop_total (engine_dim (this s)) args (c * pc) q (dim (this s))
                nv' pc out) as (out' & Hev); [done|done|done|done|nia|].
    assert (engine_data (this u) = Some fd) as Hfdu by (by rewrite Hthis).
    assert (heap u !! fd = Some (FindptsData args)) as Hhu by (by rewrite Hh).
    assert (sa_dim args = engine_dim (this u)) as Hsau by (by rewrite Hthis).
    exists (nv', out'),
      {| this := this u; heap := heap u; brk := brk u;
         calls := calls u ++ [CallEval (engine_dim (this u)) (Z.of_nat c * Z.of_nat pc)
                                       (Z.of_nat pc) nv' (engine_data (this u))] |}.
    split.
    - unfold Interpolate_component.
      apply bind_Returns. eexists _, _. split; [reflexivity|].
      apply bind_Returns. eexists (c * pc), _. split.
      { apply as_index_Returns. split; [lia|]. split; [lia|done]. }
      apply bind_Returns. eexists nv', _. split; [exact Hnvu|].
      apply bind_Returns. eexists out', _. split; [|reflexivity].
      cbn [this].
      assert (findpts_eval (engine_dim (this u)) out (Z.of_nat c * Z.of_nat pc) sizeof_double
                q sizeof_unsigned sizeof_unsigned sizeof_unsigned
                (sizeof_double * Z.to_nat (dim (this u))) (Z.of_nat pc) nv'
                (engine_data (this u)) u
              = Returns out' {| this := this u; heap := heap u; brk := brk u;
                                calls := calls u ++
                                  [CallEval (engine_dim (this u))
                                     (Z.of_nat c * Z.of_nat pc) (Z.of_nat pc) nv'
                                     (engine_data (this u))] |}) as Hrun.
      { unfold findpts_eval.
        apply bind_Returns. eexists tt, _. split; [reflexivity|].
        apply bind_Returns. eexists args, _. split.
        { apply the_findpts_data_Returns. exists fd.
          split; [exact Hfdu|]. split; [exact Hhu|]. split; [exact Hsau|reflexivity]. }
        apply bind_Returns. eexists pc, _. split.
        { apply as_index_Returns. split; [lia|]. by rewrite Nat2Z.id. }
        apply bind_Returns. eexists (c * pc), _. split.
        { apply as_index_Returns. split; [lia|]. split; [lia|done]. }
        apply defined_Returns. rewrite <- Hthis in Hev.
        split; [exact Hev|reflexivity]. }
      unfold engine_dim, engine_data in Hrun |- *.
      destruct (dim (this u) =? 2)%Z; exact Hrun.
    - unfold I. cbn.
      apply findpts_eval_loop in Hev as (Hl' & _). split; [done|]. split; [done|].
      by rewrite Hl'. }
  exists outf, s'. unfold Interpolate.
  apply bind_Returns. eexists _, _. split; [reflexivity|].
  apply bind_Returns. eexists m, _. split; [by apply defined_Returns|].
  apply bind_Returns. eexists nd, _. split; [by apply defined_Returns|].
  apply bind_Returns. eexists tt, _. split; [by rewrite HH1|]. cbn zeta.
  apply bind_Returns. eexists (Z.of_nat pc), _. split.
  { apply int_div_Returns. split; [lia|]. by rewrite Hpc. }
  apply bind_Returns. eexists (nvf, outf), _. split; [exact Hloop|done].
Qed.

End InterpolateClaims.

(** ** [FreeData] *)

Section FreeDataClaims.
Context {R : Type} `{!Collaborators R}.

Lemma findpts_free_live D fd args (s : State R) :
  heap s !! fd = Some (FindptsData args) -> sa_dim args = D ->
  findpts_free D (Some fd) s
  = Returns tt {| this := this s; heap := delete fd (heap s); brk := brk s;
                  calls := calls s ++ [CallFree D (Some fd)] |}.
Proof.
  intros Hh HD.
  unfold findpts_free, the_findpts_data, record_call, release, load, defined,
    mbind, M_bind, mret, M_ret. cbn. rewrite Hh. cbn.
  rewrite decide_True by done. cbn. by rewrite Hh.
Qed.

Lemma findpts_free_released D fd (s : State R) :
  heap s !! fd = None ->
  findpts_free D (Some fd) s
  = Faults {| this := this s; heap := heap s; brk := brk s;
              calls := calls s ++ [CallFree D (Some fd)] |}.
Proof.
  intros Hh.
  unfold findpts_free, the_findpts_data, record_call, release, load, defined,
    mbind, M_bind, mret, M_ret. cbn. by rewrite Hh.
Qed.

Lemma FreeData_unfold (s : State R) :
  FreeData s
  = (findpts_free (engine_dim (this s)) (engine_data (this s));;
     modify_this (set_gsl_mesh [])) s.
Proof.
  unfold FreeData, engine_dim, engine_data, mbind, M_bind, get_this.
  by destruct (dim (this s) =? 2)%Z.
Qed.

(** C2, as the code has it.  On an instance whose search structure is
    allocated, [FreeData] releases that structure and empties the point
    cloud, and leaves the member that points to the structure as it was.
    A second call is not without effect: it hands the same, now released,
    structure to the engine's free routine again, and does not return. *)
Theorem FreeData_releases_once (s : State R) fd args :
  engine_data (this s) = Some fd ->
  heap s !! fd = Some (FindptsData args) ->
  sa_dim args = engine_dim (this s) ->
  exists s',
    FreeData s = Returns tt s' /\
    heap s' = delete fd (heap s) /\
    gsl_mesh (this s') = [] /\
    engine_data (this s') = Some fd /\
    calls s' = calls s ++ [CallFree (engine_dim (this s)) (Some fd)] /\
    returns (FreeData s') = false /\
    calls (final (FreeData s'))
    = calls s' ++ [CallFree (engine_dim (this s)) (Some fd)].
Proof.
  intros Hfd Hh HD.
  eexists. split.
  { rewrite FreeData_unfold, Hfd. unfold mbind, M_bind.
    rewrite (findpts_free_live _ _ args) by done. reflexivity. }
  cbn. do 2 (split; [done|]).
  assert (engine_data (set_gsl_mesh [] (this s)) = Some fd) as Hfd' by exact Hfd.
  split; [done|]. split; [done|].
  rewrite FreeData_unfold. cbn [this]. rewrite Hfd'. unfold mbind, M_bind.
  rewrite findpts_free_released by (cbn; apply lookup_delete_eq).
  done.
Qed.

End FreeDataClaims.

(** After [Setup] on the unit square: the first [FreeData] returns, the
    second does not. *)
Lemma FreeData_releases_once_witness :
  engine_data (this Example.ready_square) = Some 1 /\
  exists s', FreeData Example.ready_square = Returns tt s' /\
             gsl_mesh (this s') = [] /\ returns (FreeData s') = false.
Proof.
  split; [reflexivity|].
  destruct (FreeData_releases_once Example.ready_square 1 _ eq_refl eq_refl eq_refl)
    as (s' & H1 & _ & H2 & _ & _ & H3 & _).
  exists s'. split; [exact H1|]. split; [exact H2|exact H3].
Defined.

(** C2, as stated, fails: two calls of [FreeData] in a row on an instance
    that [Setup] has prepared end in a fault, the second call releasing the
    search structure that the first has released. *)
Lemma FreeData_twice_faults :
  returns (FreeData Example.ready_square) = true /\
  faults ((FreeData;; FreeData) Example.ready_square) = true.
Proof. split; lazy; reflexivity. Qed.

(** ** [FindPoints] and malformed query buffers *)

Section FindPointsChecks.
Context {R : Type} `{!Collaborators R}.

Lemma quiet_bind {A B} (s : State R) (m : M R A) (f : A -> M R B) :
  quiet s m -> (forall a, quiet s (f a)) -> quiet s (m ≫= f).
Proof.
  unfold quiet, mbind, M_bind. intros [Ha Hf] Hk.
  destruct (m s) as [a s'|msg s'|s']; cbn in *; subst; first [done|apply Hk].
Qed.

Lemma quiet_defined {A} (s : State R) (o : option A) : quiet s (defined o).
Proof. by destruct o. Qed.

Lemma quiet_ret {A} (s : State R) (a : A) : quiet s (mret a).
Proof. done. Qed.

Lemma quiet_as_index (s : State R) z : quiet s (as_index z).
Proof. unfold quiet, as_index. by destruct (z <? 0)%Z. Qed.

Lemma quiet_load (s : State R) p : quiet s (load p).
Proof. unfold quiet, load. by destruct (heap s !! p). Qed.

Lemma quiet_the_findpts_data (s : State R) D fd : quiet s (the_findpts_data D fd).
Proof.
  unfold the_findpts_data.
  apply quiet_bind; [apply quiet_defined|]. intros h.
  apply quiet_bind; [apply quiet_load|]. intros [ | args | | ]; try done.
  by case_decide.
Qed.

Lemma quiet_mapM_as_index (s : State R) l : quiet s (mapM as_index l).
Proof.
  induction l as [|z l IH]; [done|]. cbn.
  apply quiet_bind; [apply quiet_as_index|]. intros n.
  apply quiet_bind; [apply IH|]. intros ns. done.
Qed.

Lemma findpts_no_abort D (q : QueryArrays R) cs ps es rs ds x xb xs npt fd (s : State R) :
  aborts (findpts D q cs ps es rs ds x xb xs npt fd s) = false /\
  calls (final (findpts D q cs ps es rs ds x xb xs npt fd s))
  = calls s ++ [CallFind D npt fd].
Proof.
  unfold findpts, record_call, mbind at 1, M_bind at 1.
  set (s1 := {| this := this s; heap := heap s; brk := brk s;
                calls := calls s ++ [CallFind D npt fd] |}).
  assert (quiet s1 (the_findpts_data D fd ≫= λ args,
                    as_index npt ≫= λ n, mapM as_index xb ≫= λ bases,
                    defined (for_loop (findpts_one D args cs ps es rs ds x bases xs)
                                      0 n q))) as [Ha Hf].
  { apply quiet_bind; [apply quiet_the_findpts_data|]. intros args.
    apply quiet_bind; [apply quiet_as_index|]. intros n.
    apply quiet_bind; [apply quiet_mapM_as_index|]. intros bases.
    apply quiet_defined. }
  split; [exact Ha|]. exact (f_equal calls Hf).
Qed.

(** C5, as the code has it.  [FindPoints] checks nothing: it never
    aborts, and for [dim <> 0] it enters the engine's search with the count
    [length point_pos / dim] (truncated), whatever the remainder. *)
Theorem FindPoints_never_aborts (point_pos : list R) (q : QueryArrays R) (s : State R) :
  aborts (FindPoints point_pos q s) = false /\
  (dim (this s) <> 0%Z ->
   calls (final (FindPoints point_pos q s))
   = calls s ++ [CallFind (engine_dim (this s))
                          (Z.of_nat (length point_pos) ÷ dim (this s))
                          (engine_data (this s))]).
Proof.
  destruct (Z.eqb_spec (dim (this s)) 0) as [H0|H0].
  - unfold FindPoints, get_this, int_div, mbind, M_bind.
    pose proof H0 as H0'. apply Z.eqb_eq in H0'. rewrite H0'. cbn. split; [done|].
    intros Hne. by destruct Hne.
  - rewrite (FindPoints_unfold _ _ _ H0).
    split; [apply findpts_no_abort|]. intros _. apply findpts_no_abort.
Qed.

End FindPointsChecks.

(** C5, as stated, fails: on the unit square ([dim = 2]) a query buffer of
    five entries is not rejected; [FindPoints] returns, having searched for
    two points. *)
Lemma FindPoints_accepts_odd_buffer :
  dim (this Example.ready_square) = 2%Z /\
  length Example.five_entries = 5 /\
  returns (FindPoints Example.five_entries (Example.room_for 2) Example.ready_square) = true /\
  last (calls (final (FindPoints Example.five_entries (Example.room_for 2)
                        Example.ready_square)))
  = Some (CallFind 2 2 (Some 1)).
Proof. repeat split; lazy; reflexivity. Qed.

(** ** Configuration errors *)


(** ** [Setup] called again *)

Section SetupAgain.
Context {R : Type} `{!Collaborators R}.

Lemma tabulated_unique (msplit : Mesh R) D dim_ cnt NEsplit ir1 ir2 :
  tabulated msplit D dim_ cnt (NEsplit * cnt) (NEsplit * cnt) ir1 ->
  tabulated msplit D dim_ cnt (NEsplit * cnt) (NEsplit * cnt) ir2 ->
  ir1 = ir2.
Proof.
  intros (Hl1 & Ht1 & _) (Hl2 & Ht2 & _). apply list_eq. intros k.
  destruct (decide (k < NEsplit * cnt)) as [Hk|Hk].
  - assert (0 < cnt) by (destruct cnt; lia).
    assert (k = (k / cnt) * cnt + k mod cnt) as Hdm.
    { rewrite (Nat.mul_comm _ cnt). apply Nat.div_mod. lia. }
    assert (k mod cnt < cnt) by (apply Nat.mod_upper_bound; lia).
    destruct (Ht1 (k / cnt) (k mod cnt)) as (ip1 & Hr1 & Hi1); [done|lia|].
    destruct (Ht2 (k / cnt) (k mod cnt)) as (ip2 & Hr2 & Hi2); [done|lia|].
    rewrite Hdm, Hi1, Hi2. congruence.
  - rewrite !lookup_ge_None_2; [done|lia|lia].
Qed.

(** The point cloud that [Setup] leaves is determined by the mesh. *)
Lemma Setup_point_cloud_determined (m : Mesh R) bb_t newt_tol npt_max
    bb_t' newt_tol' npt_max' (s s' u u' : State R) :
  Setup m bb_t newt_tol npt_max s = Returns tt s' ->
  Setup m bb_t' newt_tol' npt_max' u = Returns tt u' ->
  gsl_mesh (this u') = gsl_mesh (this s').
Proof.
  intros Hs Hu.
  apply Setup_Returns in Hs as (s1 & args & _ & _ & Hs & _ & _ & ->).
  apply Setup_Returns in Hu as (u1 & args' & _ & _ & Hu & _ & _ & ->).
  transitivity (gsl_mesh (this u1)); [cbn; by destruct (dim (this u1) =? 2)%Z|].
  transitivity (gsl_mesh (this s1)); [|cbn; by destruct (dim (this s1) =? 2)%Z].
  destruct (GetGeomType (GetFE0 m)) eqn:Hgt; try done.
  1,3,5: apply GetSimplexNodalCoordinates_Returns in Hs
      as (m1 & mb & NEsplit & msplit & dm & ir & b & Hm & Hsp & Hfes & _ & -> & Ht & Hl & Hf);
    apply GetSimplexNodalCoordinates_Returns in Hu
      as (m2 & mb' & NEsplit' & msplit' & dm' & ir' & b' & Hm' & Hsp' & Hfes' & _ & -> & Ht'
          & Hl' & Hf');
    cbn in *; simplify_eq;
    rewrite Hfes in Hfes'; injection Hfes' as <-;
    pose proof (tabulated_unique _ _ _ _ _ _ _ Ht Ht') as <-;
    rewrite (Nat.mul_comm _ (GetNE m1)) in Hf, Hf', Hl, Hl';
    eapply filled_unique with (NE := GetNE m1); [reflexivity| | |exact Hf'|exact Hf]; lia.
  all: apply GetQuadHexNodalCoordinates_Returns in Hs
      as (m1 & dm & b & Hm & _ & -> & Hl & Hf);
    apply GetQuadHexNodalCoordinates_Returns in Hu
      as (m2 & dm' & b' & Hm' & _ & -> & Hl' & Hf');
    cbn in *; simplify_eq;
    eapply filled_unique with (NE := GetNE m1); [reflexivity| | |exact Hf'|exact Hf]; lia.
Qed.

(** [Setup] allocates and releases nothing that was allocated before. *)
Lemma Setup_heap (m : Mesh R) bb_t newt_tol npt_max (s s' : State R) :
  Setup m bb_t newt_tol npt_max s = Returns tt s' ->
  heap_ok s ->
  heap_ok s' /\
  (forall p, p < brk s -> heap s' !! p = heap s !! p) /\
  exists fd args,
    engine_data (this s') = Some fd /\
    brk s <= fd /\
    heap s' !! fd = Some (FindptsData args) /\
    sa_dim args = engine_dim (this s') /\
    sa_mesh args = gsl_mesh (this s').
Proof.
  intros Hs Hok.
  apply Setup_Returns in Hs as (s1 & args & _ & _ & Hs & Hdim & Hmesh & ->).
  assert (brk s <= brk s1 /\ heap_ok s1 /\
          (forall p, p < brk s -> heap s1 !! p = heap s !! p)) as (Hbrk & Hok1 & Hkeep).
  { destruct (GetGeomType (GetFE0 m)) eqn:Hgt; try done.
    1,3,5: apply GetSimplexNodalCoordinates_Returns in Hs
        as (m1 & mb & NEsplit & msplit & dm & ir & b & _ & _ & _ & _ & -> & _);
      cbn; split; [lia|]; split;
      [ intros p Hp; cbn in Hp |- *; rewrite lookup_delete_ne by lia;
        rewrite !lookup_insert_ne by lia; apply Hok; lia
      | intros p Hp; rewrite lookup_delete_ne by lia;
        rewrite !lookup_insert_ne by lia; done ].
    all: apply GetQuadHexNodalCoordinates_Returns in Hs
        as (m1 & dm & b & _ & _ & -> & _); cbn; split; [lia|]; split; [exact Hok|done]. }
  split; [|split].
  - intros p Hp. cbn in Hp |- *. rewrite lookup_insert_ne by lia. apply Hok1. lia.
  - intros p Hp. cbn. rewrite lookup_insert_ne by lia. apply Hkeep. lia.
  - exists (brk s1), args. split; [|split; [|split; [|split]]].
    + unfold engine_data. cbn. destruct (dim (this s1) =? 2)%Z eqn:Hd; cbn; by rewrite Hd.
    + done.
    + cbn. apply lookup_insert_eq.
    + rewrite Hdim. unfold engine_dim. cbn.
      destruct (dim (this s1) =? 2)%Z eqn:Hd; cbn; by rewrite Hd.
    + rewrite Hmesh. cbn. by destruct (dim (this s1) =? 2)%Z.
Qed.

Lemma heap_ok_lt (s : State R) p o : heap_ok s -> heap s !! p = Some o -> p < brk s.
Proof.
  intros Hok Hp. destruct (decide (p < brk s)); [done|].
  rewrite Hok in Hp by lia. done.
Qed.

(** C3, as the code has it.  A second [Setup] rebuilds the point cloud
    from the mesh alone and builds a new search structure, to which the
    instance then refers; it releases nothing.  Every object allocated
    before the second call is still allocated after it, so the structure
    built by the first call stays live next to the new one.  That structure
    is gone after the second [Setup] only when [FreeData] was called in
    between. *)
Theorem Setup_again_keeps_earlier_structures (m1 m2 : Mesh R)
    bb_t newt_tol npt_max (s s1 s2 : State R) :
  heap_ok s ->
  Setup m1 bb_t newt_tol npt_max s = Returns tt s1 ->
  Setup m2 bb_t newt_tol npt_max s1 = Returns tt s2 ->
  (forall p o, heap s1 !! p = Some o -> heap s2 !! p = Some o) /\
  (forall b n u u', Setup m2 b n npt_max u = Returns tt u' ->
     gsl_mesh (this u') = gsl_mesh (this s2)) /\
  exists fd1 fd2 args1 args2,
    engine_data (this s1) = Some fd1 /\
    engine_data (this s2) = Some fd2 /\
    fd1 <> fd2 /\
    heap s2 !! fd1 = Some (FindptsData args1) /\
    heap s2 !! fd2 = Some (FindptsData args2) /\
    sa_mesh args2 = gsl_mesh (this s2) /\
    forall s1' s2', FreeData s1 = Returns tt s1' ->
      Setup m2 bb_t newt_tol npt_max s1' = Returns tt s2' ->
      heap s2' !! fd1 = None.
Proof.
  intros Hok H1 H2.
  destruct (Setup_heap _ _ _ _ _ _ H1 Hok)
    as (Hok1 & Hkeep1 & fd1 & args1 & Hfd1 & Hge1 & Hh1 & Hd1 & _).
  destruct (Setup_heap _ _ _ _ _ _ H2 Hok1)
    as (Hok2 & Hkeep2 & fd2 & args2 & Hfd2 & Hge2 & Hh2 & _ & Hm2).
  pose proof (heap_ok_lt _ _ _ Hok1 Hh1) as Hlt1.
  split; [|split].
  - intros p o Hp. rewrite Hkeep2; [done|]. by eapply heap_ok_lt.
  - intros b n u u' Hu. by eapply Setup_point_cloud_determined.
  - exists fd1, fd2, args1, args2. do 2 (split; [done|]).
    split; [lia|]. split; [by rewrite Hkeep2|]. do 2 (split; [done|]).
    intros s1' s2' Hfree H2'.
    rewrite FreeData_unfold, Hfd1 in Hfree. unfold mbind, M_bind in Hfree.
    rewrite (findpts_free_live _ _ args1) in Hfree by done.
    injection Hfree as <-.
    assert (heap_ok {| this := set_gsl_mesh [] (this s1); heap := delete fd1 (heap s1);
                       brk := brk s1;
                       calls := calls s1 ++ [CallFree (engine_dim (this s1)) (Some fd1)] |})
      as Hok1'.
    { intros p Hp. cbn in Hp |- *. rewrite lookup_delete_ne by lia. by apply Hok1. }
    destruct (Setup_heap _ _ _ _ _ _ H2' Hok1') as (_ & Hkeep2' & _).
    rewrite Hkeep2' by done. cbn. apply lookup_delete_eq.
Qed.

End SetupAgain.

(** Two calls of [Setup] on the unit square, from the constructed instance. *)
Lemma Setup_again_keeps_earlier_structures_witness :
  heap_ok (construct : State Q) /\
  Setup Example.unit_square (1#10)%Q (1#1000)%Q 256 construct
    = Returns tt Example.ready_square /\
  exists s2,
    Setup Example.unit_square (1#10)%Q (1#1000)%Q 256 Example.ready_square = Returns tt s2 /\
    forall p o, heap Example.ready_square !! p = Some o -> heap s2 !! p = Some o.
Proof.
  assert (heap_ok (construct : State Q)) as Hok.
  { intros p Hp. cbn in Hp |- *. apply lookup_singleton_ne. lia. }
  assert (Setup Example.unit_square (1#10)%Q (1#1000)%Q 256 construct
          = Returns tt Example.ready_square) as H1 by (lazy; reflexivity).
  assert (exists s2, Setup Example.unit_square (1#10)%Q (1#1000)%Q 256 Example.ready_square
                     = Returns tt s2) as [s2 H2] by (eexists; lazy; reflexivity).
  split; [exact Hok|]. split; [exact H1|]. exists s2. split; [exact H2|].
  exact (proj1 (Setup_again_keeps_earlier_structures _ _ _ _ _ _ _ _ Hok H1 H2)).
Defined.

(** C3, as stated, fails: after two calls of [Setup] two search structures
    are allocated, and so are two integration-point tables on a mesh of
    triangles; the instance refers to the later ones only. *)
Lemma Setup_twice_leaks :
  let s2 := final (Setup Example.unit_square (1#10)%Q (1#1000)%Q 256 Example.ready_square) in
  let t2 := final (Setup Example.unit_triangle (1#10)%Q (1#1000)%Q 256
                     Example.ready_triangle) in
  returns (Setup Example.unit_square (1#10)%Q (1#1000)%Q 256 Example.ready_square) = true /\
  length (live_findpts_data s2) = 2 /\
  fdata2D (this Example.ready_square) = Some 1 /\
  fdata2D (this s2) = Some 2 /\
  is_Some (heap s2 !! 1) /\
  length (live_findpts_data t2) = 2 /\
  length (live_IntegrationRules t2) = 2.
Proof.
  cbv zeta. split; [lazy; reflexivity|]. split; [lazy; reflexivity|].
  split; [lazy; reflexivity|]. split; [lazy; reflexivity|].
  split; [lazy; eexists; reflexivity|]. split; lazy; reflexivity.
Qed.

(** ** The number of points [Interpolate] evaluates *)

(** C1 at two inputs.  The count that [Interpolate] passes to the
    engine's evaluation routine is the size of the field divided by the
    number of components, not the number of query results.  On the unit
    square (four nodes) with a scalar field: for one query result the engine
    is asked for four values and reads [codes] past its end; for six query
    results it is asked for four, and the last two entries of the output
    are never written. *)
Theorem Interpolate_count_from_field_size :
  length (codes Example.one_point) = 1 /\
  length (gf_data Example.field4) = 4 /\
  faults (Interpolate Example.one_point Example.field4 [0%Q] Example.ready_square) = true /\
  last (calls (final (Interpolate Example.one_point Example.field4 [0%Q]
                        Example.ready_square)))
  = Some (CallEval 2 0 4 [1; 2; 2; 3]%Q (Some 1)) /\
  length (codes (Example.room_for 6)) = 6 /\
  exists s',
    Interpolate (Example.room_for 6) Example.field4 (replicate 6 (-7)%Q)
                Example.ready_square
    = Returns [1; 1; 1; 1; -7; -7]%Q s' /\
    last (calls s') = Some (CallEval 2 0 4 [1; 2; 2; 3]%Q (Some 1)).
Proof.
  do 5 (split; [lazy; reflexivity|]).
  eexists. split; lazy; reflexivity.
Qed.

(** One query point on the unit square. *)
Lemma FindPoints_planar_in_interleaved_out_witness :
  dim (this Example.ready_square) = 2%Z /\
  exists q' s',
    FindPoints [1#2; 1#3]%Q Example.one_point Example.ready_square = Returns q' s' /\
    length (ref_pos q') = 2.
Proof.
  split; [reflexivity|].
  assert (exists q' s', FindPoints [1#2; 1#3]%Q Example.one_point Example.ready_square
                        = Returns q' s') as (q' & s' & H)
    by (eexists _, _; lazy; reflexivity).
  exists q', s'. split; [exact H|].
  destruct (FindPoints_planar_in_interleaved_out _ _ _ _ _ H (or_introl eq_refl))
    as (fd & args & _ & _ & _ & Hl & _).
  exact Hl.
Defined.

(** Six query results and a scalar field of four values on the unit square. *)
Lemma Interpolate_planar_components_witness :
  exists out' s',
    Interpolate (Example.room_for 6) Example.field4 (replicate 6 (-7)%Q)
                Example.ready_square = Returns out' s' /\
    length out' = 6.
Proof.
  assert (exists out' s',
            Interpolate (Example.room_for 6) Example.field4 (replicate 6 (-7)%Q)
                        Example.ready_square = Returns out' s') as (out' & s' & H)
    by (eexists _, _; lazy; reflexivity).
  exists out', s'. split; [exact H|].
  exact (proj1 (Interpolate_planar_components _ _ _ _ _ _ H)).
Defined.

(** The odd buffer of five entries on the unit square. *)
Lemma FindPoints_never_aborts_witness :
  dim (this Example.ready_square) <> 0%Z /\
  aborts (FindPoints Example.five_entries (Example.room_for 2) Example.ready_square) = false.
Proof.
  split; [discriminate|].
  exact (proj1 (FindPoints_never_aborts Example.five_entries (Example.room_for 2)
                  Example.ready_square)).
Defined.

(** ** The example meshes are consistent *)

Lemma unit_square_tensor_mesh : tensor_mesh Example.unit_square.
Proof.
  split; [done|]. split; [by left|]. split; [by left|]. split; [done|].
  eexists _, _. split; [reflexivity|]. split; [reflexivity|]. split.
  - intros j Hj. cbn in Hj.
    destruct j as [|[|[|[|j]]]]; [| | | |lia]; eexists; (split; [reflexivity|cbn; lia]).
  - intros i Hi. cbn. split; [done|]. repeat (constructor; [lia|]); constructor.
Qed.

Lemma unit_triangle_simplex_mesh : simplex_mesh Example.unit_triangle.
Proof.
  split; [by eexists|]. split; [done|]. split; [by left|]. split; [done|]. split.
  { intros j ip _. cbn. lia. }
  eexists _, _, _. split; [reflexivity|]. split; [reflexivity|].
  eexists _, _. split; [reflexivity|]. split; [reflexivity|]. split.
  - intros j Hj. cbn in Hj.
    destruct j as [|[|[|[|j]]]]; [| | | |lia]; eexists; (split; [reflexivity|cbn; lia]).
  - intros i Hi. change (i < 3) in Hi.
    destruct i as [|[|[|i]]]; [| | |lia]; cbn; (split; [done|]);
      repeat (constructor; [vm_compute; lia|]); constructor.
Qed.

(** The unit square: eight entries, abscissae first.  The reference
    triangle: twelve points, those of its three quadrilaterals, and
    twenty-four entries. *)
Lemma point_cloud_layout_witness :
  (exists s', Setup Example.unit_square (1#10)%Q (1#1000)%Q 256 construct = Returns tt s' /\
              length (gsl_mesh (this s')) = 1 * 4 * 2) /\
  exists s', Setup Example.unit_triangle (1#10)%Q (1#1000)%Q 256 construct = Returns tt s' /\
             length (gsl_mesh (this s')) = 1 * (3 * 4) * 2.
Proof.
  split.
  - destruct (proj1 (point_cloud_layout Example.unit_square (1#10)%Q (1#1000)%Q 256
                       construct) (or_introl unit_square_tensor_mesh)) as [s' H].
    exists s'. split; [exact H|].
    pose proof (proj2 (point_cloud_layout Example.unit_square (1#10)%Q (1#1000)%Q 256
                         construct) s' H) as HH.
    cbv zeta in HH. exact (proj1 HH).
  - destruct (proj1 (point_cloud_layout Example.unit_triangle (1#10)%Q (1#1000)%Q 256
                       construct) (or_intror unit_triangle_simplex_mesh)) as [s' H].
    exists s'. split; [exact H|].
    pose proof (proj2 (point_cloud_layout Example.unit_triangle (1#10)%Q (1#1000)%Q 256
                         construct) s' H) as HH.
    cbv zeta in HH.
    change (GetGeomType (GetFE0 Example.unit_triangle)) with Geometry.TRIANGLE in HH.
    destruct HH as (mb & NEsplit & msplit & ir & Hsp & Hfes & _ & Hl & _).
    injection Hsp as <- <-. injection Hfes as <-. exact Hl.
Defined.

(** * Further properties *)

(** ** The results of [FindPoints] *)

Section FindPointsResults.
Context {R : Type} `{!Collaborators R}.

#[local] Arguments at_stride : simpl never.

(** [FindPoints] that returns: the structure it used, the call it made
    and the loop of the engine over the [n] points. *)
Lemma FindPoints_Returns (point_pos : list R) (q q' : QueryArrays R) (s s' : State R) :
  FindPoints point_pos q s = Returns q' s' ->
  dim (this s) = 2%Z \/ dim (this s) = 3%Z ->
  let D := Z.to_nat (dim (this s)) in
  let n := length point_pos / D in
  exists fd args,
    engine_data (this s) = Some fd /\
    heap s !! fd = Some (FindptsData args) /\
    sa_dim args = engine_dim (this s) /\
    s' = {| this := this s; heap := heap s; brk := brk s;
            calls := calls s ++ [CallFind D (Z.of_nat n) (Some fd)] |} /\
    for_loop (findpts_one D args sizeof_unsigned sizeof_unsigned sizeof_unsigned
                (sizeof_double * D) sizeof_double point_pos
                (take D [0; n; 2 * n])
                (take D [sizeof_double; sizeof_double; sizeof_double])) 0 n q = Some q'.
Proof.
  intros H Hdim D n.
  assert (dim (this s) <> 0%Z) as H0 by lia.
  assert (engine_dim (this s) = D) as Hed.
  { unfold engine_dim, D. by destruct Hdim as [-> | ->]. }
  assert ((Z.of_nat (length point_pos) ÷ dim (this s))%Z = Z.of_nat n) as Hpc.
  { replace (dim (this s)) with (Z.of_nat D) by (unfold D; lia).
    apply quot_of_nat. lia. }
  rewrite (FindPoints_unfold _ _ _ H0), Hed, Hpc in H. fold D in H.
  replace (2 * Z.of_nat n)%Z with (Z.of_nat (2 * n)) in H by lia.
  change [0%Z; Z.of_nat n; Z.of_nat (2 * n)] with (map Z.of_nat [0; n; 2 * n]) in H.
  rewrite firstn_map in H. unfold findpts in H.
  apply bind_Returns in H as (u & s1 & Hrec & H).
  apply record_call_Returns in Hrec. subst s1.
  apply bind_Returns in H as (args & s1 & Hfd & H).
  apply the_findpts_data_Returns in Hfd as (fd & Hfd & Hheap & Hsa & ->).
  apply bind_Returns in H as (n' & s1 & Hn & H).
  apply as_index_Returns in Hn as (_ & -> & ->). rewrite Nat2Z.id in H.
  apply bind_Returns in H as (bases & s1 & Hb & H).
  rewrite mapM_as_index_of_nat in Hb. injection Hb as <- <-.
  apply defined_Returns in H as [Hloop ->].
  exists fd, args. rewrite Hfd, Hed. done.
Qed.

(** The loop of the engine over the query points, array by array. *)
Lemma findpts_loop_results D args (x : list R) n (q q' : QueryArrays R) :
  D = 2 \/ D = 3 ->
  for_loop (findpts_one D args sizeof_unsigned sizeof_unsigned sizeof_unsigned
              (sizeof_double * D) sizeof_double x
              (take D [0; n; 2 * n])
              (take D [sizeof_double; sizeof_double; sizeof_double])) 0 n q = Some q' ->
  (length (codes q') = length (codes q) /\
   length (proc_ids q') = length (proc_ids q) /\
   length (elem_ids q') = length (elem_ids q) /\
   length (ref_pos q') = length (ref_pos q) /\
   length (dist q') = length (dist q)) /\
  (forall i, i < n ->
     exists res, point_result args x n D i = Some res /\
       codes q' !! i = Some (pr_code res) /\
       proc_ids q' !! i = Some (pr_proc res) /\
       elem_ids q' !! i = Some (pr_el res) /\
       dist q' !! i = Some (pr_dist res) /\
       forall k, k < D -> ref_pos q' !! (i * D + k) = Some (pr_r res k)) /\
  (forall i, n <= i ->
     codes q' !! i = codes q !! i /\ proc_ids q' !! i = proc_ids q !! i /\
     elem_ids q' !! i = elem_ids q !! i /\ dist q' !! i = dist q !! i) /\
  (forall k, n * D <= k -> ref_pos q' !! k = ref_pos q !! k).
Proof.
  intros HD Hrun.
  pose (I := fun (i : nat) (q1 : QueryArrays R) =>
    (length (codes q1) = length (codes q) /\
     length (proc_ids q1) = length (proc_ids q) /\
     length (elem_ids q1) = length (elem_ids q) /\
     length (ref_pos q1) = length (ref_pos q) /\
     length (dist q1) = length (dist q)) /\
    (forall i', i' < i ->
       exists res, point_result args x n D i' = Some res /\
         codes q1 !! i' = Some (pr_code res) /\
         proc_ids q1 !! i' = Some (pr_proc res) /\
         elem_ids q1 !! i' = Some (pr_el res) /\
         dist q1 !! i' = Some (pr_dist res) /\
         forall k, k < D -> ref_pos q1 !! (i' * D + k) = Some (pr_r res k)) /\
    (forall i', i <= i' ->
       codes q1 !! i' = codes q !! i' /\ proc_ids q1 !! i' = proc_ids q !! i' /\
       elem_ids q1 !! i' = elem_ids q !! i' /\ dist q1 !! i' = dist q !! i') /\
    (forall k, i * D <= k -> ref_pos q1 !! k = ref_pos q !! k)).
  assert (I (0 + n) q') as HI; [|exact HI].
  apply (for_loop_inv I _ 0 n q q' Hrun).
  - split; [done|]. split; [intros; lia|]. done.
  - intros i q1 q2 Hi ((Hlc & Hlp & Hle & Hlr & Hld) & Hprev & Hrest & Hrr) Hone.
    unfold findpts_one in Hone.
    rewrite planar_reads in Hone by done.
    apply bind_Some in Hone as (xi & Hxi & Hone). cbn zeta in Hone.
    apply bind_Some in Hone as (c & Hc & Hone).
    apply bind_Some in Hone as (p & Hp & Hone).
    apply bind_Some in Hone as (e & He & Hone).
    apply bind_Some in Hone as (r & Hr & Hone).
    apply bind_Some in Hone as (ds & Hds & Hone). injection Hone as <-.
    rewrite at_stride_unsigned_1 in Hc, Hp, He. rewrite at_stride_double_1 in Hds.
    rewrite at_stride_double in Hr. cbn [Nat.add] in Hc, Hp, He, Hds, Hr.
    apply store_Some in Hc as [Hic ->]. apply store_Some in Hp as [Hip ->].
    apply store_Some in He as [Hie ->]. apply store_Some in Hds as [Hid ->].
    apply store_block in Hr as (Hlr' & Hin & Hout).
    unfold I. cbn [codes proc_ids elem_ids ref_pos dist].
    rewrite !length_insert. split; [by rewrite Hlr'|]. split; [|split].
    + intros i' Hi'. destruct (decide (i' = i)) as [->|Hne].
      * exists (findpts_point args xi). unfold point_result. rewrite Hxi.
        split; [done|]. rewrite !list_lookup_insert_eq by done. done.
      * destruct (Hprev i') as (res & Hres & Hc' & Hp' & He' & Hd' & Hk'); [lia|].
        exists res. rewrite !list_lookup_insert_ne by done.
        do 5 (split; [done|]). intros k Hk.
        rewrite Hout; [by apply Hk'|]. left. nia.
    + intros i' Hi'. rewrite !list_lookup_insert_ne by lia. apply Hrest. lia.
    + intros k Hk. rewrite Hout by lia. apply Hrr. lia.
Qed.

(** X1.  What [FindPoints] leaves behind.  With [n] the length of the
    query buffer divided by [dim]: the instance and the heap are as before,
    no result array changes its length, the code, process, element and
    distance found for query point [i] are at index [i] of their arrays and
    its reference coordinates at [i * dim ..], and every entry from [n] on
    (from [n * dim] on in [ref_pos]) is as it was. *)
Theorem FindPoints_results_by_point (point_pos : list R)
    (q q' : QueryArrays R) (s s' : State R) :
  FindPoints point_pos q s = Returns q' s' ->
  dim (this s) = 2%Z \/ dim (this s) = 3%Z ->
  let D := Z.to_nat (dim (this s)) in
  let n := length point_pos / D in
  this s' = this s /\ heap s' = heap s /\
  (length (codes q') = length (codes q) /\
   length (proc_ids q') = length (proc_ids q) /\
   length (elem_ids q') = length (elem_ids q) /\
   length (ref_pos q') = length (ref_pos q) /\
   length (dist q') = length (dist q)) /\
  exists fd args,
    engine_data (this s) = Some fd /\
    heap s !! fd = Some (FindptsData args) /\
    (forall i, i < n ->
       exists res, point_result args point_pos n D i = Some res /\
         codes q' !! i = Some (pr_code res) /\
         proc_ids q' !! i = Some (pr_proc res) /\
         elem_ids q' !! i = Some (pr_el res) /\
         dist q' !! i = Some (pr_dist res) /\
         forall k, k < D -> ref_pos q' !! (i * D + k) = Some (pr_r res k)) /\
    (forall i, n <= i ->
       codes q' !! i = codes q !! i /\ proc_ids q' !! i = proc_ids q !! i /\
       elem_ids q' !! i = elem_ids q !! i /\ dist q' !! i = dist q !! i) /\
    (forall k, n * D <= k -> ref_pos q' !! k = ref_pos q !! k).
Proof.
  intros H Hdim D n.
  destruct (FindPoints_Returns _ _ _ _ _ H Hdim) as (fd & args & Hfd & Hheap & _ & -> & Hloop).
  apply findpts_loop_results in Hloop as (Hlen & Hres & Hrest & Hrr); [|fold D; lia].
  split; [done|]. split; [done|]. split; [exact Hlen|].
  exists fd, args. auto.
Qed.

(** X2.  When [FindPoints] returns.  For [dim] 2 or 3 it returns exactly
    when the search structure of that dimension is allocated and each result
    array has room for [n] results ([n * dim] entries for [ref_pos]), [n]
    being the length of the query buffer divided by [dim]; it never resizes
    an array. *)
Theorem FindPoints_returns_iff (point_pos : list R) (q : QueryArrays R) (s : State R) :
  dim (this s) = 2%Z \/ dim (this s) = 3%Z ->
  let D := Z.to_nat (dim (this s)) in
  let n := length point_pos / D in
  returns (FindPoints point_pos q s) = true <->
  (exists fd args, engine_data (this s) = Some fd /\
                   heap s !! fd = Some (FindptsData args) /\
                   sa_dim args = engine_dim (this s)) /\
  n <= length (codes q) /\ n <= length (proc_ids q) /\ n <= length (elem_ids q) /\
  n * D <= length (ref_pos q) /\ n <= length (dist q).
Proof.
  intros Hdim D n. split.
  - intros Hret. destruct (FindPoints point_pos q s) as [q' s'| |] eqn:H; [|done|done].
    destruct (FindPoints_Returns _ _ _ _ _ H Hdim)
      as (fd & args & Hfd & Hheap & Hsa & _ & Hloop).
    apply findpts_loop_results in Hloop as ((Hlc & Hlp & Hle & Hlr & Hld) & Hres & _);
      [|fold D; lia].
    fold D n in Hres. split; [by exists fd, args|].
    destruct (decide (n = 0)) as [->|Hn]; [cbn; lia|].
    destruct (Hres (n - 1)) as (res & _ & Hc & Hp & He & Hd & Hr); [lia|].
    apply lookup_lt_Some in Hc, Hp, He, Hd.
    assert (0 < D) as HD by (unfold D; lia).
    specialize (Hr (D - 1) ltac:(lia)). apply lookup_lt_Some in Hr.
    rewrite Hlc in Hc. rewrite Hlp in Hp. rewrite Hle in He. rewrite Hld in Hd.
    rewrite Hlr in Hr. repeat split; lia || nia.
  - intros ((fd & args & Hfd & Hheap & Hsa) & Hc & Hp & He & Hr & Hd).
    destruct (FindPoints_returns point_pos q s fd args Hdim Hfd Hheap Hsa Hc Hp He Hr Hd)
      as (q' & s' & ->). done.
Qed.

End FindPointsResults.

(** One query point on the unit square, with room for one result. *)
Lemma FindPoints_results_by_point_witness :
  dim (this Example.ready_square) = 2%Z /\
  exists q' s',
    FindPoints [1#2; 1#3]%Q Example.one_point Example.ready_square = Returns q' s' /\
    this s' = this Example.ready_square.
Proof.
  split; [reflexivity|].
  assert (exists q' s', FindPoints [1#2; 1#3]%Q Example.one_point Example.ready_square
                        = Returns q' s') as (q' & s' & H)
    by (eexists _, _; lazy; reflexivity).
  exists q', s'. split; [exact H|].
  exact (proj1 (FindPoints_results_by_point _ _ _ _ _ H (or_introl eq_refl))).
Defined.

(** Five entries in two dimensions are two points: room for two results
    is enough, room for one is not. *)
Lemma FindPoints_returns_iff_witness :
  dim (this Example.ready_square) = 2%Z /\
  returns (FindPoints Example.five_entries (Example.room_for 2) Example.ready_square) = true /\
  returns (FindPoints Example.five_entries (Example.room_for 1) Example.ready_square) = false.
Proof.
  split; [reflexivity|]. split.
  - apply (FindPoints_returns_iff Example.five_entries (Example.room_for 2)
             Example.ready_square (or_introl eq_refl)).
    split; [eexists _, _; lazy; repeat split; reflexivity|].
    lazy. lia.
  - lazy. reflexivity.
Defined.

(** ** The nodal values of [GetNodeValues] *)

Section Gather.
Context {R : Type}.
Variables (cnt : nat) (E : nat -> nat -> option R).
Variable step : nat -> nat -> list R * nat -> option (list R * nat).
Hypothesis Hstep : forall i j nv pt,
  step i j (nv, pt) = (v ← E i j; nv' ← store nv pt v; Some (nv', S pt)).

(** The loop over the [cnt] values of element [i]. *)
Lemma gather_element i (buf0 b b' : list R) pt' :
  for_loop (step i) 0 cnt (b, i * cnt) = Some (b', pt') ->
  gathered cnt E (i * cnt) buf0 b ->
  pt' = S i * cnt /\ gathered cnt E (S i * cnt) buf0 b'.
Proof.
  intros Hrun Hg.
  pose (J := fun (j : nat) (st : list R * nat) =>
    st.2 = i * cnt + j /\ gathered cnt E (i * cnt + j) buf0 st.1).
  assert (J (0 + cnt) (b', pt')) as [Hpt Hg'].
  { apply (for_loop_inv J (step i) 0 cnt _ _ Hrun).
    - unfold J; cbn. by rewrite Nat.add_0_r.
    - intros j [b1 pt1] [b2 pt2] Hj [Hpt1 (Hl & Hin & Hout)] Hs. cbn in Hpt1, Hl, Hin, Hout.
      subst pt1. rewrite Hstep in Hs.
      apply bind_Some in Hs as (v & HE & Hs). apply bind_Some in Hs as (nv' & Hst & Hs).
      injection Hs as <- <-. apply store_Some in Hst as [Hlt ->].
      unfold J; cbn. split; [lia|]. split; [by rewrite length_insert|]. split.
      + intros i' j' Hj' Hlt'.
        destruct (decide (i' * cnt + j' = i * cnt + j)) as [Heq|Hne].
        * rewrite Heq. apply point_unique in Heq as [-> ->]; [|lia..].
          exists v. split; [done|]. by apply list_lookup_insert_eq.
        * destruct (Hin i' j') as (v' & HE' & Hv'); [done|lia|].
          exists v'. split; [done|]. by rewrite list_lookup_insert_ne.
      + intros k Hk. rewrite list_lookup_insert_ne by lia. apply Hout. lia. }
  cbn in Hpt, Hg'. split; [lia|]. by replace (S i * cnt) with (i * cnt + (0 + cnt)) by lia.
Qed.

(** The loop over the [NE] elements. *)
Lemma gather_elements NE (buf0 buf' : list R) pt' :
  for_loop (fun i st => for_loop (step i) 0 cnt st) 0 NE (buf0, 0) = Some (buf', pt') ->
  pt' = NE * cnt /\ gathered cnt E (NE * cnt) buf0 buf'.
Proof.
  intros Hrun.
  pose (I := fun (i : nat) (st : list R * nat) =>
    st.2 = i * cnt /\ gathered cnt E (i * cnt) buf0 st.1).
  assert (I (0 + NE) (buf', pt')) as HI; [|exact HI].
  apply (for_loop_inv I _ 0 NE _ _ Hrun).
  - unfold I; cbn. split; [done|]. split; [done|]. split; [intros; lia|done].
  - intros i [b q] [b' q'] Hi [Hq Hg] Hs. cbn in Hq, Hg. subst q.
    apply gather_element with (buf0 := buf0) in Hs as [-> Hg']; done.
Qed.

(** The loops run to their end when there is room and every value exists. *)
Lemma gather_total NE (buf0 : list R) :
  NE * cnt <= length buf0 ->
  (forall i j, i < NE -> j < cnt -> is_Some (E i j)) ->
  exists buf' pt',
    for_loop (fun i st => for_loop (step i) 0 cnt st) 0 NE (buf0, 0) = Some (buf', pt').
Proof.
  intros Hroom HE.
  pose (K := fun (n : nat) (st : list R * nat) => st.2 = n /\ length st.1 = length buf0).
  edestruct (for_loop_total (fun i st => K (i * cnt) st)
               (fun i st => for_loop (step i) 0 cnt st) 0 NE (buf0, 0))
    as ([buf' pt'] & Hst & _); [done| |by exists buf', pt'].
  intros i st Hi HK.
  replace (S i * cnt) with (i * cnt + (0 + cnt)) by lia.
  apply (for_loop_total (fun j st => K (i * cnt + j) st)).
  { by rewrite Nat.add_0_r. }
  intros j [b pt] Hj [Hpt Hb]. cbn in Hpt, Hb. subst pt. rewrite Hstep.
  destruct (HE i j) as [v ->]; [lia|lia|]. cbn [mbind option_bind].
  rewrite store_lt by nia. cbn [mbind option_bind].
  eexists. split; [done|]. unfold K; cbn. rewrite length_insert. split; [lia|done].
Qed.

(** Buffers of [NE * cnt] entries that hold every value are equal. *)
Lemma gathered_unique NE (b1 b2 r1 r2 : list R) :
  length b1 = NE * cnt -> length b2 = NE * cnt ->
  gathered cnt E (NE * cnt) b1 r1 -> gathered cnt E (NE * cnt) b2 r2 -> r1 = r2.
Proof.
  intros Hl1 Hl2 (Hr1 & Hin1 & _) (Hr2 & Hin2 & _). apply list_eq. intros k.
  destruct (decide (k < NE * cnt)) as [Hk|Hk].
  - assert (0 < cnt) by (destruct cnt; lia).
    pose (i := k / cnt). pose (j := k mod cnt).
    assert (k = i * cnt + j) as Hkij.
    { rewrite (Nat.mul_comm i cnt). apply Nat.div_mod. lia. }
    assert (j < cnt) by (apply Nat.mod_upper_bound; lia).
    destruct (Hin1 i j) as (v1 & HE1 & Hv1); [done|lia|].
    destruct (Hin2 i j) as (v2 & HE2 & Hv2); [done|lia|].
    rewrite Hkij, Hv1, Hv2. congruence.
  - rewrite !lookup_ge_None_2; [done|lia|lia].
Qed.

End Gather.

Section GetNodeValuesLayout.
Context {R : Type} `{!Collaborators R}.

(** [GetNodeValues] that returns, on quadrilaterals and hexahedra. *)
Lemma GetNodeValues_Returns_tensor gf_in nv0 (s s' : State R) nv (m : Mesh R) :
  GetNodeValues gf_in nv0 s = Returns nv s' ->
  mesh (this s) = Some m ->
  GetGeomType (GetFE0 m) = Geometry.SQUARE \/ GetGeomType (GetFE0 m) = Geometry.CUBE ->
  let cnt := length (GetNodesIR (GetFE0 m)) in
  s' = s /\ is_Some (GetNodes m) /\ is_Some (GetDofMap (GetFE0 m)) /\
  gathered cnt (nodal_value m gf_in) (GetNE m * cnt) (SetSize (GetNE m * cnt) nv0) nv.
Proof.
  intros H Hm Hgt cnt.
  pose proof (GetNodeValues_Returns_state _ _ _ _ _ H) as ->. split; [done|].
  unfold GetNodeValues in H.
  apply bind_Returns in H as (t & s1 & Ht & H). injection Ht as <- <-.
  apply bind_Returns in H as (m' & s1 & Hdef & H).
  apply defined_Returns in Hdef as [Hm' ->]. rewrite Hm in Hm'. injection Hm' as <-.
  cbn zeta in H.
  assert ((_ ← defined (GetNodes m);
           MFEM_VERIFY (bool_decide (is_Some (GetDofMap (GetFE0 m))))
                       "TensorBasis FiniteElement expected.";;
           dof_map ← defined (GetDofMap (GetFE0 m));
           '(node_vals, _) ← defined (
              for_loop (fun i st =>
                          let vals_el := GetValues m gf_in i (GetNodesIR (GetFE0 m)) in
                          for_loop (fun j '(node_vals, pt_id) =>
                                      k ← dof_map !! j;
                                      v ← vals_el !! k;
                                      nv ← store node_vals pt_id v;
                                      Some (nv, S pt_id)) 0 cnt st)
                       0 (GetNE m) (SetSize (GetNE m * cnt) nv0, 0));
           mret node_vals) s = Returns nv s) as Hrun.
  { destruct Hgt as [Hg | Hg]; rewrite Hg in H; exact H. }
  clear H.
  apply bind_Returns in Hrun as (data & s1 & Hdata & H).
  apply defined_Returns in Hdata as [Hdata ->].
  apply bind_Returns in H as (u & s1 & Hv & H). apply MFEM_VERIFY_Returns in Hv as [_ ->].
  apply bind_Returns in H as (dof_map & s1 & Hmap & H).
  apply defined_Returns in Hmap as [Hmap ->].
  apply bind_Returns in H as ([nv' pt] & s1 & Hloop & H).
  apply defined_Returns in Hloop as [Hloop ->]. injection H as <-.
  split; [by eexists|]. split; [by eexists|].
  eapply (gather_elements cnt (nodal_value m gf_in)
            (fun i j '(node_vals, pt_id) =>
               k ← dof_map !! j;
               v ← GetValues m gf_in i (GetNodesIR (GetFE0 m)) !! k;
               nv ← store node_vals pt_id v;
               Some (nv, S pt_id))) in Hloop as [_ Hg]; [exact Hg|].
  intros i j b pt0. unfold nodal_value. rewrite Hmap. cbn [mbind option_bind].
  destruct (dof_map !! j); reflexivity.
Qed.

(** [GetNodeValues] that returns, on triangles, tetrahedra and prisms. *)
Lemma GetNodeValues_Returns_simplex gf_in nv0 (s s' : State R) nv (m : Mesh R) :
  GetNodeValues gf_in nv0 s = Returns nv s' ->
  mesh (this s) = Some m ->
  GetGeomType (GetFE0 m) = Geometry.TRIANGLE \/
  GetGeomType (GetFE0 m) = Geometry.TETRAHEDRON \/
  GetGeomType (GetFE0 m) = Geometry.PRISM ->
  exists p ir,
    s' = s /\ ir_simplex (this s) = Some p /\ heap s !! p = Some (IntegrationRule ir) /\
    gathered (length ir) (table_value m gf_in ir) (GetNE m * length ir)
             (SetSize (GetNE m * length ir) nv0) nv.
Proof.
  intros H Hm Hgt.
  pose proof (GetNodeValues_Returns_state _ _ _ _ _ H) as ->.
  unfold GetNodeValues in H.
  apply bind_Returns in H as (t & s1 & Ht & H). injection Ht as <- <-.
  apply bind_Returns in H as (m' & s1 & Hdef & H).
  apply defined_Returns in Hdef as [Hm' ->]. rewrite Hm in Hm'. injection Hm' as <-.
  cbn zeta in H.
  assert ((p ← defined (ir_simplex (this s));
           o ← load p;
           ir ← match o with IntegrationRule ir => mret ir | _ => fault end;
           '(node_vals, _) ← defined (
              for_loop (fun j st =>
                          let vals_el := GetValues m gf_in j ir in
                          for_loop (fun i '(node_vals, pt_id) =>
                                      v ← vals_el !! i;
                                      nv ← store node_vals pt_id v;
                                      Some (nv, S pt_id)) 0 (length ir) st)
                       0 (GetNE m) (SetSize (GetNE m * length ir) nv0, 0));
           mret node_vals) s = Returns nv s) as Hrun.
  { destruct Hgt as [Hg | [Hg | Hg]]; rewrite Hg in H; exact H. }
  clear H.
  apply bind_Returns in Hrun as (p & s1 & Hp & H).
  apply defined_Returns in Hp as [Hp ->].
  apply bind_Returns in H as (o & s1 & Hload & H). unfold load in Hload.
  destruct (heap s !! p) as [o'|] eqn:Hheap; [|done]. injection Hload as <- <-.
  apply bind_Returns in H as (ir & s1 & Hir & H).
  destruct o' as [| |ir'|]; try done. injection Hir as <- <-.
  apply bind_Returns in H as ([nv' pt] & s1 & Hloop & H).
  apply defined_Returns in Hloop as [Hloop ->]. injection H as <-.
  exists p, ir'. do 3 (split; [done|]).
  eapply (gather_elements (length ir') (table_value m gf_in ir')
            (fun j i '(node_vals, pt_id) =>
               v ← GetValues m gf_in j ir' !! i;
               nv ← store node_vals pt_id v;
               Some (nv, S pt_id))) in Hloop as [_ Hg]; [exact Hg|].
  intros i j b pt0. reflexivity.
Qed.

(** [GetNodeValues] returns on the five supported geometries only. *)
Lemma GetNodeValues_Returns_mesh gf_in nv0 (s s' : State R) nv :
  GetNodeValues gf_in nv0 s = Returns nv s' ->
  exists m, mesh (this s) = Some m /\
    ((GetGeomType (GetFE0 m) = Geometry.SQUARE \/ GetGeomType (GetFE0 m) = Geometry.CUBE) \/
     (GetGeomType (GetFE0 m) = Geometry.TRIANGLE \/
      GetGeomType (GetFE0 m) = Geometry.TETRAHEDRON \/
      GetGeomType (GetFE0 m) = Geometry.PRISM)).
Proof.
  intros H. unfold GetNodeValues in H.
  apply bind_Returns in H as (t & s1 & Ht & H). injection Ht as <- <-.
  apply bind_Returns in H as (m & s1 & Hdef & H).
  apply defined_Returns in Hdef as [Hm ->]. exists m. split; [done|].
  cbn zeta in H. destruct (GetGeomType (GetFE0 m)); try done; auto.
Qed.

(** X3.  The nodal values that [GetNodeValues] hands to the engine on
    quadrilaterals and hexahedra.  The instance is not changed; the result
    has one value per node and element, element by element: entry
    [i * dof_cnt + j] is the value of the field in element [i] at the node
    that the dof map puts in lexicographic slot [j]. *)
Theorem GetNodeValues_tensor_layout gf_in nv0 (s s' : State R) nv (m : Mesh R) :
  GetNodeValues gf_in nv0 s = Returns nv s' ->
  mesh (this s) = Some m ->
  GetGeomType (GetFE0 m) = Geometry.SQUARE \/ GetGeomType (GetFE0 m) = Geometry.CUBE ->
  let ir := GetNodesIR (GetFE0 m) in
  let dof_cnt := length ir in
  s' = s /\ length nv = GetNE m * dof_cnt /\
  exists dof_map,
    GetDofMap (GetFE0 m) = Some dof_map /\
    forall i j, i < GetNE m -> j < dof_cnt ->
      exists k v, dof_map !! j = Some k /\
                  GetValues m gf_in i ir !! k = Some v /\
                  nv !! (i * dof_cnt + j) = Some v.
Proof.
  intros H Hm Hgt ir dof_cnt.
  destruct (GetNodeValues_Returns_tensor _ _ _ _ _ _ H Hm Hgt)
    as (-> & _ & [dof_map Hmap] & Hl & Hin & _).
  split; [done|]. split; [by rewrite Hl, length_SetSize|].
  exists dof_map. split; [done|]. intros i j Hi Hj.
  destruct (Hin i j) as (v & HE & Hv); [done|unfold dof_cnt, ir in *; nia|].
  unfold nodal_value in HE. rewrite Hmap in HE. cbn [mbind option_bind] in HE.
  apply bind_Some in HE as (k & Hk & HE). by exists k, v.
Qed.

(** X4.  The nodal values on triangles, tetrahedra and prisms.  The
    instance is not changed; the values are taken at the points of the table
    behind [ir_simplex], element by element and in the order of the table:
    entry [j * dof_cnt + i] is the value of the field in element [j] at
    point [i] of the table. *)
Theorem GetNodeValues_simplex_layout gf_in nv0 (s s' : State R) nv (m : Mesh R) :
  GetNodeValues gf_in nv0 s = Returns nv s' ->
  mesh (this s) = Some m ->
  GetGeomType (GetFE0 m) = Geometry.TRIANGLE \/
  GetGeomType (GetFE0 m) = Geometry.TETRAHEDRON \/
  GetGeomType (GetFE0 m) = Geometry.PRISM ->
  exists p ir,
    s' = s /\ ir_simplex (this s) = Some p /\ heap s !! p = Some (IntegrationRule ir) /\
    let dof_cnt := length ir in
    length nv = GetNE m * dof_cnt /\
    forall j i, j < GetNE m -> i < dof_cnt ->
      exists v, GetValues m gf_in j ir !! i = Some v /\
                nv !! (j * dof_cnt + i) = Some v.
Proof.
  intros H Hm Hgt.
  destruct (GetNodeValues_Returns_simplex _ _ _ _ _ _ H Hm Hgt)
    as (p & ir & -> & Hp & Hheap & Hl & Hin & _).
  exists p, ir. do 3 (split; [done|]). cbn zeta.
  split; [by rewrite Hl, length_SetSize|].
  intros j i Hj Hi. apply Hin; [done|nia].
Qed.

(** The values do not depend on the buffer that is passed. *)
Lemma GetNodeValues_any_buffer gf_in nv0 nv1 (s s' : State R) nv :
  GetNodeValues gf_in nv0 s = Returns nv s' ->
  GetNodeValues gf_in nv1 s = Returns nv s.
Proof.
  intros H.
  destruct (GetNodeValues_Returns_mesh _ _ _ _ _ H) as (m & Hm & [Hgt | Hgt]).
  - destruct (GetNodeValues_Returns_tensor _ _ _ _ _ _ H Hm Hgt)
      as (_ & Hnodes & [dof_map Hmap] & Hg).
    destruct (GetNodeValues_returns_tensor gf_in nv1 s m dof_map Hm Hgt Hnodes Hmap)
      as (nv' & H').
    { intros i j Hi Hj. destruct Hg as (_ & Hin & _).
      destruct (Hin i j) as (v & HE & _); [done|nia|].
      unfold nodal_value in HE. rewrite Hmap in HE. cbn [mbind option_bind] in HE.
      apply bind_Some in HE as (k & Hk & HE). exists k. split; [done|].
      by apply lookup_lt_Some in HE. }
    destruct (GetNodeValues_Returns_tensor _ _ _ _ _ _ H' Hm Hgt) as (_ & _ & _ & Hg').
    rewrite H'. f_equal.
    eapply gathered_unique; [| |exact Hg'|exact Hg]; apply length_SetSize.
  - destruct (GetNodeValues_Returns_simplex _ _ _ _ _ _ H Hm Hgt)
      as (p & ir & _ & Hp & Hheap & Hg).
    destruct (GetNodeValues_returns_simplex gf_in nv1 s m p ir Hm Hgt Hp Hheap)
      as (nv' & H').
    { intros j Hj. destruct Hg as (_ & Hin & _).
      destruct (decide (length ir = 0)) as [->|Hne]; [lia|].
      destruct (Hin j (length ir - 1)) as (v & HE & _); [lia|nia|].
      unfold table_value in HE. apply lookup_lt_Some in HE. lia. }
    destruct (GetNodeValues_Returns_simplex _ _ _ _ _ _ H' Hm Hgt)
      as (p' & ir' & _ & Hp' & Hheap' & Hg').
    rewrite Hp in Hp'. injection Hp' as <-. rewrite Hheap in Hheap'. injection Hheap' as <-.
    rewrite H'. f_equal.
    eapply gathered_unique; [| |exact Hg'|exact Hg]; apply length_SetSize.
Qed.

(** X5.  [GetNodeValues] overwrites its buffer: it leaves the instance
    as it was, and the values it returns do not depend on what [node_vals]
    held, or how long it was, when it was called, so that the one buffer
    [Interpolate] passes for every component carries nothing from one
    component to the next. *)
Theorem GetNodeValues_overwrites_buffer gf_in nv0 (s s' : State R) nv :
  GetNodeValues gf_in nv0 s = Returns nv s' ->
  s' = s /\ forall nv1, GetNodeValues gf_in nv1 s = Returns nv s.
Proof.
  intros H. split; [by apply GetNodeValues_Returns_state in H|].
  intros nv1. by apply (GetNodeValues_any_buffer gf_in nv0 nv1 s s').
Qed.

End GetNodeValuesLayout.

(** The four nodal values of a scalar field on the unit square. *)
Lemma GetNodeValues_tensor_layout_witness :
  exists nv,
    GetNodeValues [1; 2; 3; 4]%Q [] Example.ready_square = Returns nv Example.ready_square /\
    mesh (this Example.ready_square) = Some Example.unit_square /\
    length nv = 4.
Proof.
  assert (exists nv, GetNodeValues [1; 2; 3; 4]%Q [] Example.ready_square
                     = Returns nv Example.ready_square) as (nv & H)
    by (eexists; vm_compute; reflexivity).
  assert (mesh (this Example.ready_square) = Some Example.unit_square) as Hm
    by (vm_compute; reflexivity).
  exists nv. split; [exact H|]. split; [exact Hm|].
  exact (proj1 (proj2 (GetNodeValues_tensor_layout _ _ _ _ _ _ H Hm (or_introl eq_refl)))).
Defined.

(** The values of a field at the points of the table, on the triangle. *)
Lemma GetNodeValues_simplex_layout_witness :
  exists nv,
    GetNodeValues [5]%Q [] Example.ready_triangle = Returns nv Example.ready_triangle /\
    mesh (this Example.ready_triangle) = Some Example.unit_triangle /\
    exists p ir, ir_simplex (this Example.ready_triangle) = Some p /\
                 heap Example.ready_triangle !! p = Some (IntegrationRule ir).
Proof.
  assert (exists nv, GetNodeValues [5]%Q [] Example.ready_triangle
                     = Returns nv Example.ready_triangle) as (nv & H)
    by (eexists; vm_compute; reflexivity).
  assert (mesh (this Example.ready_triangle) = Some Example.unit_triangle) as Hm
    by (vm_compute; reflexivity).
  exists nv. split; [exact H|]. split; [exact Hm|].
  destruct (GetNodeValues_simplex_layout _ _ _ _ _ _ H Hm (or_introl eq_refl))
    as (p & ir & _ & Hp & Hheap & _).
  exists p, ir. split; [exact Hp|exact Hheap].
Defined.

(** A buffer that is too long and holds other values gives the same
    nodal values as an empty one. *)
Lemma GetNodeValues_overwrites_buffer_witness :
  exists nv,
    GetNodeValues [1; 2; 3; 4]%Q [] Example.ready_square = Returns nv Example.ready_square /\
    GetNodeValues [1; 2; 3; 4]%Q [9; 9; 9; 9; 9; 9]%Q Example.ready_square
    = Returns nv Example.ready_square.
Proof.
  assert (exists nv, GetNodeValues [1; 2; 3; 4]%Q [] Example.ready_square
                     = Returns nv Example.ready_square) as (nv & H)
    by (eexists; vm_compute; reflexivity).
  exists nv. split; [exact H|].
  exact (proj2 (GetNodeValues_overwrites_buffer _ _ _ _ _ H) [9; 9; 9; 9; 9; 9]%Q).
Defined.

(** ** The arguments of the engine's set-up *)

Section SetupArguments.
Context {R : Type} `{!Collaborators R}.

(** [Setup], step by step: the state [s1] in which the extractor leaves
    the instance, and the structure built from it. *)
Lemma Setup_Returns_args (m : Mesh R) bb_t newt_tol npt_max (s s' : State R) :
  Setup m bb_t newt_tol npt_max s = Returns tt s' ->
  exists s1,
    match GetGeomType (GetFE0 m) with
    | Geometry.TRIANGLE | Geometry.TETRAHEDRON | Geometry.PRISM =>
        GetSimplexNodalCoordinates
    | Geometry.SQUARE | Geometry.CUBE => GetQuadHexNodalCoordinates
    | _ => MFEM_ABORT "Element type not currently supported in FindPointsGSLIB."
    end {| this := set_dim (Dimension m) (set_mesh (Some m) (this s));
           heap := heap s; brk := brk s; calls := calls s |} = Returns tt s1 /\
    let dof1D := to_unsigned (GetOrder (GetFE0 m) + 1) in
    let pts_cnt := (Z.of_nat (length (gsl_mesh (this s1))) ÷ dim (this s1))%Z in
    let D := engine_dim (this s1) in
    let args :=
      {| sa_dim := D;
         sa_elx := take D [0; pts_cnt; 2 * pts_cnt]%Z;
         sa_mesh := gsl_mesh (this s1);
         sa_nr := replicate D dof1D;
         sa_nel := (pts_cnt ÷ int_pow dof1D (dim (this s1)))%Z;
         sa_mr := replicate D (to_unsigned (2 * dof1D));
         sa_bbox_tol := bb_t;
         sa_local_hash_size := pts_cnt;
         sa_global_hash_size := pts_cnt;
         sa_npt_max := npt_max;
         sa_newt_tol := newt_tol |} in
    dim (this s1) <> 0%Z /\
    int_pow dof1D (dim (this s1)) <> 0%Z /\
    s' = {| this := (if (dim (this s1) =? 2)%Z then set_fdata2D (Some (brk s1)) (this s1)
                     else set_fdata3D (Some (brk s1)) (this s1));
            heap := <[brk s1 := FindptsData args]> (heap s1);
            brk := S (brk s1);
            calls := calls s1 ++ [CallSetup D args (brk s1)] |}.
Proof.
  unfold Setup. intros H.
  apply bind_Returns in H as (u & s0 & Hv & H). apply MFEM_VERIFY_Returns in Hv as [Hnodes ->].
  apply bind_Returns in H as (u0 & s0 & Hv & H). apply MFEM_VERIFY_Returns in Hv as [Hgeom ->].
  apply bind_Returns in H as (u1 & s0 & Hmod & H). apply modify_this_Returns in Hmod. subst s0.
  apply bind_Returns in H as (u2 & s0 & Hmod & H). apply modify_this_Returns in Hmod. subst s0.
  cbn zeta in H.
  apply bind_Returns in H as ([] & s1 & Hext & H). cbn in Hext.
  apply bind_Returns in H as (t & s2 & Ht & H). injection Ht as <- <-.
  apply bind_Returns in H as (pts_cnt & s2 & Hdiv & H).
  apply int_div_Returns in Hdiv as (Hdim & -> & ->).
  apply bind_Returns in H as (NEtot & s2 & Hdiv & H).
  apply int_div_Returns in Hdiv as (Hpow & -> & ->).
  exists s1. split; [exact Hext|]. cbn zeta. split; [done|]. split; [done|].
  unfold engine_dim.
  destruct (dim (this s1) =? 2)%Z eqn:Hd2.
  - apply bind_Returns in H as (fd & s2 & Hsetup & H).
    unfold findpts_setup in Hsetup.
    apply bind_Returns in Hsetup as (h & s3 & Hnew & Hsetup).
    apply new_Returns in Hnew as [-> ->].
    apply bind_Returns in Hsetup as (u3 & s3 & Hrec & Hsetup).
    injection Hrec as <- <-. injection Hsetup as <- <-.
    apply modify_this_Returns in H. cbn in H. exact H.
  - apply bind_Returns in H as (fd & s2 & Hsetup & H).
    unfold findpts_setup in Hsetup.
    apply bind_Returns in Hsetup as (h & s3 & Hnew & Hsetup).
    apply new_Returns in Hnew as [-> ->].
    apply bind_Returns in Hsetup as (u3 & s3 & Hrec & Hsetup).
    injection Hrec as <- <-. injection Hsetup as <- <-.
    apply modify_this_Returns in H. cbn in H. exact H.
Qed.

(** What the extractors leave of the instance, and the length of the
    point cloud: [per_element] points for each of the [GetNE] elements. *)
Lemma extractor_Returns (m : Mesh R) (s0 s1 : State R) :
  mesh (this s0) = Some m -> dim (this s0) = Dimension m ->
  match GetGeomType (GetFE0 m) with
  | Geometry.TRIANGLE | Geometry.TETRAHEDRON | Geometry.PRISM =>
      GetSimplexNodalCoordinates
  | Geometry.SQUARE | Geometry.CUBE => GetQuadHexNodalCoordinates
  | _ => MFEM_ABORT "Element type not currently supported in FindPointsGSLIB."
  end s0 = Returns tt s1 ->
  mesh (this s1) = Some m /\ dim (this s1) = Dimension m /\
  gsl_comm (this s1) = gsl_comm (this s0) /\
  fdata2D (this s1) = fdata2D (this s0) /\ fdata3D (this s1) = fdata3D (this s0) /\
  calls s1 = calls s0 /\
  match GetGeomType (GetFE0 m) with
  | Geometry.SQUARE | Geometry.CUBE =>
      heap s1 = heap s0 /\ brk s1 = brk s0 /\
      ir_simplex (this s1) = ir_simplex (this s0) /\
      length (gsl_mesh (this s1))
      = GetNE m * GetDof (GetFE0 m) * Z.to_nat (Dimension m)
  | Geometry.TRIANGLE | Geometry.TETRAHEDRON | Geometry.PRISM =>
      exists mb NEsplit msplit ir,
        split_reference (GetGeomType (GetFE0 m)) = Some (mb, NEsplit) /\
        SetNodalFESpace mb (GetOrder (GetFE0 m)) (Dimension m) = inr msplit /\
        heap s1 = delete (brk s0)
                    (<[S (brk s0) := IntegrationRule ir]>
                       (<[brk s0 := SubMesh mb]> (heap s0))) /\
        brk s1 = S (S (brk s0)) /\
        ir_simplex (this s1) = Some (S (brk s0)) /\
        length (gsl_mesh (this s1))
        = GetNE m * (NEsplit * GetDof (GetFE0 msplit)) * Z.to_nat (Dimension m)
  | _ => False
  end.
Proof.
  intros Hm Hdim Hext.
  destruct (GetGeomType (GetFE0 m)) eqn:Hgt; try done.
  - apply GetSimplexNodalCoordinates_Returns in Hext
      as (m' & mb & NEsplit & msplit & dm & ir & buf & Hm' & Hsp & Hnod & _ & -> & _ & Hl & _).
    rewrite Hm in Hm'. injection Hm' as <-. rewrite Hdim in Hnod, Hl. rewrite Hgt in Hsp.
    cbn. do 6 (split; [done|]). exists mb, NEsplit, msplit, ir.
    do 5 (split; [done|]). rewrite Hl. lia.
  - apply GetQuadHexNodalCoordinates_Returns in Hext
      as (m' & dm & buf & Hm' & _ & -> & Hl & _).
    rewrite Hm in Hm'. injection Hm' as <-. rewrite Hdim in Hl.
    cbn. do 6 (split; [done|]). do 3 (split; [done|]). rewrite Hl. lia.
  - apply GetSimplexNodalCoordinates_Returns in Hext
      as (m' & mb & NEsplit & msplit & dm & ir & buf & Hm' & Hsp & Hnod & _ & -> & _ & Hl & _).
    rewrite Hm in Hm'. injection Hm' as <-. rewrite Hdim in Hnod, Hl. rewrite Hgt in Hsp.
    cbn. do 6 (split; [done|]). exists mb, NEsplit, msplit, ir.
    do 5 (split; [done|]). rewrite Hl. lia.
  - apply GetQuadHexNodalCoordinates_Returns in Hext
      as (m' & dm & buf & Hm' & _ & -> & Hl & _).
    rewrite Hm in Hm'. injection Hm' as <-. rewrite Hdim in Hl.
    cbn. do 6 (split; [done|]). do 3 (split; [done|]). rewrite Hl. lia.
  - apply GetSimplexNodalCoordinates_Returns in Hext
      as (m' & mb & NEsplit & msplit & dm & ir & buf & Hm' & Hsp & Hnod & _ & -> & _ & Hl & _).
    rewrite Hm in Hm'. injection Hm' as <-. rewrite Hdim in Hnod, Hl. rewrite Hgt in Hsp.
    cbn. do 6 (split; [done|]). exists mb, NEsplit, msplit, ir.
    do 5 (split; [done|]). rewrite Hl. lia.
Qed.

(** X6.  The one call [Setup] makes.  On a mesh of dimension 2 or 3 whose
    order fits its [unsigned] arithmetic, [Setup] leaves [mesh] and [dim]
    set and calls the engine's set-up routine of that dimension once, last,
    with: the point cloud as element coordinates, axis [d] starting at entry
    [d * pts_cnt]; [order + 1] nodes per direction; [2 * (order + 1)] for
    [mr]; [pts_cnt / (order + 1)^dim] elements; [pts_cnt] for both hash
    sizes; and [bb_t], [npt_max] and [newt_tol] as given.  The handle it
    keeps is the structure built from these. *)
Theorem Setup_engine_arguments (m : Mesh R) bb_t newt_tol npt_max (s s' : State R) :
  Setup m bb_t newt_tol npt_max s = Returns tt s' ->
  Dimension m = 2%Z \/ Dimension m = 3%Z ->
  (0 <= GetOrder (GetFE0 m))%Z ->
  (2 * (GetOrder (GetFE0 m) + 1) < 2 ^ 32)%Z ->
  let D := Z.to_nat (Dimension m) in
  let pts_cnt := Z.of_nat (length (gsl_mesh (this s')) / D) in
  let args := setup_arguments D (Dimension m) (gsl_mesh (this s')) pts_cnt
                (GetOrder (GetFE0 m) + 1) bb_t newt_tol npt_max in
  mesh (this s') = Some m /\ dim (this s') = Dimension m /\
  exists fd,
    calls s' = calls s ++ [CallSetup D args fd] /\
    engine_data (this s') = Some fd /\
    heap s' !! fd = Some (FindptsData args).
Proof.
  intros H Hdim Hord Hord2 D pts_cnt args.
  apply Setup_Returns_args in H as (s1 & Hext & H). cbn zeta in H.
  destruct H as (_ & _ & ->).
  apply extractor_Returns with (m := m) in Hext
    as (Hm1 & Hd1 & _ & _ & _ & Hc1 & _); [|done..].
  cbn in Hc1.
  assert (engine_dim (this s1) = D) as Hed.
  { unfold engine_dim, D. rewrite Hd1. by destruct Hdim as [-> | ->]. }
  assert (gsl_mesh (if (dim (this s1) =? 2)%Z then set_fdata2D (Some (brk s1)) (this s1)
                    else set_fdata3D (Some (brk s1)) (this s1)) = gsl_mesh (this s1)) as Hgm.
  { by destruct (dim (this s1) =? 2)%Z. }
  assert ((Z.of_nat (length (gsl_mesh (this s1))) ÷ dim (this s1))%Z
          = Z.of_nat (length (gsl_mesh (this s1)) / D)) as Hpc.
  { rewrite Hd1. replace (Dimension m) with (Z.of_nat D) by (unfold D; lia).
    apply quot_of_nat. unfold D. lia. }
  assert (to_unsigned (GetOrder (GetFE0 m) + 1) = (GetOrder (GetFE0 m) + 1)%Z) as Hu1.
  { unfold to_unsigned. apply Z.mod_small. lia. }
  assert (to_unsigned (2 * (GetOrder (GetFE0 m) + 1)) = (2 * (GetOrder (GetFE0 m) + 1))%Z)
    as Hu2.
  { unfold to_unsigned. apply Z.mod_small. lia. }
  unfold args, pts_cnt, setup_arguments.
  cbn [this heap brk calls]. rewrite Hgm, Hed, Hpc, Hu1, Hu2, Hd1, Hc1.
  unfold int_pow.
  split; [by destruct (Dimension m =? 2)%Z|].
  split; [by destruct (Dimension m =? 2)%Z|].
  exists (brk s1). split; [done|]. split.
  - unfold engine_data. by destruct (Dimension m =? 2)%Z eqn:E; cbn; rewrite Hd1, E.
  - by rewrite lookup_insert_eq.
Qed.

(** X7.  The number of elements the engine is told.  When the elements
    have [(order + 1)^dim] nodes each, the engine is set up for [GetNE]
    elements on quadrilaterals and hexahedra, and for
    [GetNE * NEsplit] on triangles, tetrahedra and prisms: every
    sub-element of the split counts as an element. *)
Theorem Setup_element_count (m : Mesh R) bb_t newt_tol npt_max (s s' : State R) fd args :
  Setup m bb_t newt_tol npt_max s = Returns tt s' ->
  Dimension m = 2%Z \/ Dimension m = 3%Z ->
  (0 <= GetOrder (GetFE0 m) < 2 ^ 32 - 1)%Z ->
  engine_data (this s') = Some fd ->
  heap s' !! fd = Some (FindptsData args) ->
  let nodes := ((GetOrder (GetFE0 m) + 1) ^ Dimension m)%Z in
  match GetGeomType (GetFE0 m) with
  | Geometry.SQUARE | Geometry.CUBE =>
      Z.of_nat (GetDof (GetFE0 m)) = nodes -> sa_nel args = Z.of_nat (GetNE m)
  | Geometry.TRIANGLE | Geometry.TETRAHEDRON | Geometry.PRISM =>
      exists mb NEsplit msplit,
        split_reference (GetGeomType (GetFE0 m)) = Some (mb, NEsplit) /\
        SetNodalFESpace mb (GetOrder (GetFE0 m)) (Dimension m) = inr msplit /\
        (Z.of_nat (GetDof (GetFE0 msplit)) = nodes ->
         sa_nel args = Z.of_nat (GetNE m * NEsplit))
  | _ => False
  end.
Proof.
  intros H Hdim Hord Hfd Hheap nodes.
  apply Setup_Returns_args in H as (s1 & Hext & H). cbn zeta in H.
  destruct H as (_ & _ & ->).
  apply extractor_Returns with (m := m) in Hext
    as (Hm1 & Hd1 & _ & _ & _ & _ & Hgeo); [|done..].
  assert (fd = brk s1) as ->.
  { unfold engine_data in Hfd. cbn [this] in Hfd.
    destruct (dim (this s1) =? 2)%Z eqn:E; cbn in Hfd; rewrite E in Hfd; cbn in Hfd;
      congruence. }
  cbn [heap] in Hheap. rewrite lookup_insert_eq in Hheap. injection Hheap as <-.
  cbn [sa_nel]. rewrite Hd1.
  assert (to_unsigned (GetOrder (GetFE0 m) + 1) = (GetOrder (GetFE0 m) + 1)%Z) as ->.
  { unfold to_unsigned. apply Z.mod_small. lia. }
  unfold int_pow. fold nodes.
  assert (0 < nodes)%Z as Hpos by (apply Z.pow_pos_nonneg; lia).
  assert (forall a b : nat, Z.of_nat b = nodes ->
            length (gsl_mesh (this s1)) = a * b * Z.to_nat (Dimension m) ->
            (Z.of_nat (length (gsl_mesh (this s1))) ÷ Dimension m ÷ nodes)%Z = Z.of_nat a)
    as Hcount.
  { intros a b Hb Hl. rewrite Hl, <- Hb.
    replace (Dimension m) with (Z.of_nat (Z.to_nat (Dimension m))) at 2 by lia.
    rewrite quot_of_nat by lia. rewrite Nat.div_mul by lia.
    rewrite quot_of_nat by lia. rewrite Nat.div_mul by lia. done. }
  destruct (GetGeomType (GetFE0 m)); try done.
  - destruct Hgeo as (mb & NEsplit & msplit & ir & Hsp & Hnod & _ & _ & _ & Hl).
    exists mb, NEsplit, msplit. do 2 (split; [done|]). intros Hn.
    apply (Hcount _ (GetDof (GetFE0 msplit)) Hn). rewrite Hl. lia.
  - destruct Hgeo as (_ & _ & _ & Hl). intros Hn. by apply (Hcount _ _ Hn).
  - destruct Hgeo as (mb & NEsplit & msplit & ir & Hsp & Hnod & _ & _ & _ & Hl).
    exists mb, NEsplit, msplit. do 2 (split; [done|]). intros Hn.
    apply (Hcount _ (GetDof (GetFE0 msplit)) Hn). rewrite Hl. lia.
  - destruct Hgeo as (_ & _ & _ & Hl). intros Hn. by apply (Hcount _ _ Hn).
  - destruct Hgeo as (mb & NEsplit & msplit & ir & Hsp & Hnod & _ & _ & _ & Hl).
    exists mb, NEsplit, msplit. do 2 (split; [done|]). intros Hn.
    apply (Hcount _ (GetDof (GetFE0 msplit)) Hn). rewrite Hl. lia.
Qed.

End SetupArguments.

(** The unit square: one element of order 1, four points. *)
Lemma Setup_engine_arguments_witness :
  Setup Example.unit_square (1#10)%Q (1#1000)%Q 256 construct
    = Returns tt Example.ready_square /\
  exists fd,
    calls Example.ready_square
    = [CallSetup 2 (setup_arguments 2 2 (gsl_mesh (this Example.ready_square)) 4 2
                      (1#10)%Q (1#1000)%Q 256) fd].
Proof.
  assert (Setup Example.unit_square (1#10)%Q (1#1000)%Q 256 construct
          = Returns tt Example.ready_square) as H by (vm_compute; reflexivity).
  split; [exact H|].
  pose proof (Setup_engine_arguments _ _ _ _ _ _ H (or_introl eq_refl)
                ltac:(cbn; lia) ltac:(cbn; lia)) as HH.
  cbv zeta in HH. destruct HH as (_ & _ & fd & Hc & _). exists fd. exact Hc.
Defined.

(** One triangle: the engine is set up for its three quadrilaterals. *)
Lemma Setup_element_count_witness :
  exists fd args,
    engine_data (this Example.ready_triangle) = Some fd /\
    heap Example.ready_triangle !! fd = Some (FindptsData args) /\
    sa_nel args = 3%Z.
Proof.
  assert (Setup Example.unit_triangle (1#10)%Q (1#1000)%Q 256 construct
          = Returns tt Example.ready_triangle) as H by (vm_compute; reflexivity).
  assert (exists fd args,
            engine_data (this Example.ready_triangle) = Some fd /\
            heap Example.ready_triangle !! fd = Some (FindptsData args))
    as (fd & args & Hfd & Hheap) by (eexists _, _; split; vm_compute; reflexivity).
  exists fd, args. do 2 (split; [done|]).
  pose proof (Setup_element_count _ _ _ _ _ _ fd args H (or_introl eq_refl)
                ltac:(cbn; lia) Hfd Hheap) as HH.
  cbv zeta in HH. change (GetGeomType (GetFE0 Example.unit_triangle))
    with Geometry.TRIANGLE in HH.
  destruct HH as (mb & NEsplit & msplit & Hsp & Hnod & Hn).
  injection Hsp as <- <-. injection Hnod as <-.
  exact (Hn eq_refl).
Defined.

(** ** The life of an instance *)

Section Lifecycle.
Context {R : Type} `{!Collaborators R}.

(** A NULL or released handle cannot be used. *)
Lemma the_findpts_data_dangling D fd (s : State R) :
  match fd with Some h => heap s !! h = None | None => True end ->
  the_findpts_data D fd s = Faults s.
Proof.
  intros Hd. unfold the_findpts_data, defined, load, fault, mbind, M_bind, mret, M_ret.
  destruct fd as [h|]; [|done]. by rewrite Hd.
Qed.

Lemma FindPoints_dangling (point_pos : list R) (q : QueryArrays R) (s : State R) :
  handle_dangling s -> dim (this s) <> 0%Z ->
  FindPoints point_pos q s
  = Faults {| this := this s; heap := heap s; brk := brk s;
              calls := calls s ++ [CallFind (engine_dim (this s))
                                     (Z.of_nat (length point_pos) ÷ dim (this s))
                                     (engine_data (this s))] |}.
Proof.
  intros Hd H0. rewrite (FindPoints_unfold _ _ _ H0). unfold findpts.
  unfold mbind at 1, M_bind at 1, record_call.
  unfold mbind at 1, M_bind at 1. by rewrite the_findpts_data_dangling.
Qed.

Lemma FreeData_dangling (s : State R) :
  handle_dangling s ->
  FreeData s
  = Faults {| this := this s; heap := heap s; brk := brk s;
              calls := calls s ++ [CallFree (engine_dim (this s)) (engine_data (this s))] |}.
Proof.
  intros Hd. rewrite FreeData_unfold. unfold findpts_free.
  unfold mbind at 1, M_bind at 1.
  unfold mbind at 1, M_bind at 1, record_call.
  unfold mbind at 1, M_bind at 1. by rewrite the_findpts_data_dangling.
Qed.

Lemma Interpolate_dangling (q : QueryArrays R) (field_in : GridFunction R)
    (field_out : list R) (s : State R) :
  handle_dangling s -> (0 < gf_VDim field_in)%Z ->
  returns (Interpolate q field_in field_out s) = false.
Proof.
  intros Hd HC.
  destruct (Interpolate q field_in field_out s) as [out' s'| |] eqn:H; [|done|done].
  exfalso. unfold Interpolate in H.
  apply bind_Returns in H as (t & s1 & Ht & H). injection Ht as <- <-.
  apply bind_Returns in H as (m & s1 & Hm & H). apply defined_Returns in Hm as [Hm ->].
  apply bind_Returns in H as (nd & s1 & Hnd & H). apply defined_Returns in Hnd as [Hnd ->].
  apply bind_Returns in H as (uf & s1 & Hfec & H).
  destruct (H1_FECollection (GetOrder (GetFE0 m)) (dim (this s))) as [e|uf'] eqn:HH1; [done|].
  injection Hfec as <- <-.
  cbn zeta in H.
  apply bind_Returns in H as (pc & s1 & Hdiv & H).
  apply int_div_Returns in Hdiv as (_ & -> & ->).
  apply bind_Returns in H as ([nv out1] & s1 & Hloop & H).
  destruct (Z.to_nat (gf_VDim field_in)) as [|C] eqn:HCn; [lia|].
  cbn [for_each] in Hloop.
  apply bind_Returns in Hloop as ([nv1 out2] & s2 & Hc & _).
  assert (exists pcn : nat,
            (Z.of_nat (length (gf_data field_in)) ÷ gf_VDim field_in)%Z = Z.of_nat pcn)
    as [pcn Hpc].
  { exists (Z.to_nat (Z.of_nat (length (gf_data field_in)) ÷ gf_VDim field_in)).
    rewrite Z2Nat.id; [done|]. apply Z.quot_pos; lia. }
  rewrite Hpc in Hc.
  apply Interpolate_component_Returns in Hc as (fd & args & Hfd & Hheap & _).
  unfold handle_dangling in Hd. rewrite Hfd in Hd. congruence.
Qed.

(** [FreeData] on an allocated structure, and [FreeData] that returns. *)
Lemma FreeData_live (s : State R) fd args :
  engine_data (this s) = Some fd ->
  heap s !! fd = Some (FindptsData args) ->
  sa_dim args = engine_dim (this s) ->
  FreeData s
  = Returns tt {| this := set_gsl_mesh [] (this s); heap := delete fd (heap s);
                  brk := brk s;
                  calls := calls s ++ [CallFree (engine_dim (this s)) (Some fd)] |}.
Proof.
  intros Hfd Hheap Hsa. rewrite FreeData_unfold, Hfd.
  unfold mbind, M_bind. by rewrite (findpts_free_live _ _ _ _ Hheap Hsa).
Qed.

Lemma FreeData_Returns (s s' : State R) :
  FreeData s = Returns tt s' ->
  exists fd args,
    engine_data (this s) = Some fd /\
    heap s !! fd = Some (FindptsData args) /\
    sa_dim args = engine_dim (this s) /\
    s' = {| this := set_gsl_mesh [] (this s); heap := delete fd (heap s); brk := brk s;
            calls := calls s ++ [CallFree (engine_dim (this s)) (Some fd)] |}.
Proof.
  intros H. pose proof H as H0. rewrite FreeData_unfold in H0.
  apply bind_Returns in H0 as (u & s1 & Hfree & _).
  unfold findpts_free in Hfree.
  apply bind_Returns in Hfree as (u1 & s2 & Hrec & Hfree).
  apply record_call_Returns in Hrec. subst s2.
  apply bind_Returns in Hfree as (args & s2 & Hdata & _).
  apply the_findpts_data_Returns in Hdata as (fd & Hfd & Hheap & Hsa & _).
  cbn [heap] in Hheap.
  exists fd, args. do 3 (split; [done|]).
  rewrite (FreeData_live _ _ _ Hfd Hheap Hsa) in H. by injection H as <-.
Qed.

(** The objects [Setup] leaves allocated. *)
Lemma Setup_state (m : Mesh R) bb_t newt_tol npt_max (s s' : State R) :
  Setup m bb_t newt_tol npt_max s = Returns tt s' ->
  exists args,
    gsl_comm (this s') = gsl_comm (this s) /\
    sa_dim args = engine_dim (this s') /\
    match GetGeomType (GetFE0 m) with
    | Geometry.SQUARE | Geometry.CUBE =>
        engine_data (this s') = Some (brk s) /\
        ir_simplex (this s') = ir_simplex (this s) /\
        heap s' = <[brk s := FindptsData args]> (heap s)
    | Geometry.TRIANGLE | Geometry.TETRAHEDRON | Geometry.PRISM =>
        exists mb ir,
          engine_data (this s') = Some (S (S (brk s))) /\
          ir_simplex (this s') = Some (S (brk s)) /\
          heap s' = <[S (S (brk s)) := FindptsData args]>
                      (delete (brk s)
                         (<[S (brk s) := IntegrationRule ir]>
                            (<[brk s := SubMesh mb]> (heap s))))
    | _ => False
    end.
Proof.
  intros H.
  apply Setup_Returns_args in H as (s1 & Hext & H). cbn zeta in H.
  destruct H as (_ & _ & Hs').
  apply extractor_Returns with (m := m) in Hext
    as (_ & _ & Hcomm & _ & _ & _ & Hgeo); [|done..].
  cbn [this gsl_comm set_dim set_mesh heap brk] in Hcomm, Hgeo.
  match type of Hs' with context [FindptsData ?a] => exists a end.
  subst s'. cbn [this heap sa_dim].
  assert (forall t : FindPointsGSLIB R,
            engine_data (if (dim t =? 2)%Z then set_fdata2D (Some (brk s1)) t
                         else set_fdata3D (Some (brk s1)) t) = Some (brk s1)) as Hed.
  { intros t. unfold engine_data. by destruct (dim t =? 2)%Z eqn:E; cbn; rewrite E. }
  assert (forall t : FindPointsGSLIB R,
            engine_dim (if (dim t =? 2)%Z then set_fdata2D (Some (brk s1)) t
                        else set_fdata3D (Some (brk s1)) t) = engine_dim t) as Hdm.
  { intros t. unfold engine_dim. by destruct (dim t =? 2)%Z eqn:E; cbn; rewrite E. }
  split; [by destruct (dim (this s1) =? 2)%Z|].
  split; [by rewrite Hdm|]. rewrite Hed.
  assert (forall t : FindPointsGSLIB R,
            ir_simplex (if (dim t =? 2)%Z then set_fdata2D (Some (brk s1)) t
                        else set_fdata3D (Some (brk s1)) t) = ir_simplex t) as Hir.
  { intros t. by destruct (dim t =? 2)%Z. }
  rewrite Hir.
  destruct (GetGeomType (GetFE0 m)); try done.
  - destruct Hgeo as (mb & NEsplit & msplit & ir & _ & _ & -> & -> & -> & _). by exists mb, ir.
  - destruct Hgeo as (-> & -> & -> & _). done.
  - destruct Hgeo as (mb & NEsplit & msplit & ir & _ & _ & -> & -> & -> & _). by exists mb, ir.
  - destruct Hgeo as (-> & -> & -> & _). done.
  - destruct Hgeo as (mb & NEsplit & msplit & ir & _ & _ & -> & -> & -> & _). by exists mb, ir.
Qed.

(** X8.  Before [Setup].  On a freshly constructed instance [dim] is -1
    and every pointer is NULL: [FindPoints] and [FreeData] take the
    three-dimensional branch and pass the NULL handle [fdata3D] to the
    engine ([FindPoints] with the negated length as number of points), and
    [Interpolate] dereferences the NULL mesh before any engine call.  None
    of them returns. *)
Theorem methods_before_Setup (point_pos : list R) (q : QueryArrays R)
    (field_in : GridFunction R) (field_out : list R) :
  let fresh : State R := construct in
  FindPoints point_pos q fresh
  = Faults {| this := this fresh; heap := heap fresh; brk := brk fresh;
              calls := [CallFind 3 (- Z.of_nat (length point_pos)) None] |} /\
  Interpolate q field_in field_out fresh = Faults fresh /\
  FreeData fresh
  = Faults {| this := this fresh; heap := heap fresh; brk := brk fresh;
              calls := [CallFree 3 None] |}.
Proof.
  cbv zeta. split; [|split].
  - rewrite FindPoints_dangling; [|done|done].
    change (dim (this (construct : State R))) with (- (1))%Z.
    rewrite Z.quot_opp_r, Z.quot_1_r by done. reflexivity.
  - reflexivity.
  - by rewrite FreeData_dangling.
Qed.

(** X9.  After [FreeData].  [FreeData] leaves the handle in place, so the
    instance still refers to the structure it has released: until [Setup] is
    called again, [FindPoints] passes the released structure to the engine
    and faults, and [Interpolate] of a field with at least one component does
    not return. *)
Theorem use_after_FreeData (s s' : State R) :
  FreeData s = Returns tt s' ->
  (forall point_pos q, faults (FindPoints point_pos q s') = true) /\
  (forall q field_in field_out, (0 < gf_VDim field_in)%Z ->
     returns (Interpolate q field_in field_out s') = false).
Proof.
  intros H. apply FreeData_Returns in H as (fd & args & Hfd & Hheap & Hsa & ->).
  assert (handle_dangling
            {| this := set_gsl_mesh [] (this s); heap := delete fd (heap s); brk := brk s;
               calls := calls s ++ [CallFree (engine_dim (this s)) (Some fd)] |}) as Hd.
  { unfold handle_dangling. cbn [this heap].
    replace (engine_data (set_gsl_mesh [] (this s))) with (Some fd) by done.
    apply lookup_delete_eq. }
  split.
  - intros point_pos q.
    destruct (decide (dim (this s) = 0%Z)) as [H0|H0].
    + unfold FindPoints, get_this, int_div, mbind, M_bind. cbn [this set_gsl_mesh dim].
      by rewrite H0.
    + by rewrite FindPoints_dangling.
  - intros q field_in field_out HC. by apply Interpolate_dangling.
Qed.

(** The destructor on an instance whose communicator and table are
    allocated. *)
Lemma destruct_live (s : State R) c :
  gsl_comm (this s) = Some c -> is_Some (heap s !! c) ->
  match ir_simplex (this s) with
  | Some p => p <> c /\ is_Some (heap s !! p)
  | None => True
  end ->
  destruct_ s
  = Returns tt {| this := this s;
                  heap := match ir_simplex (this s) with
                          | Some p => delete p (delete c (heap s))
                          | None => delete c (heap s)
                          end;
                  brk := brk s; calls := calls s |}.
Proof.
  intros Hc [o Ho] Hir.
  unfold destruct_, get_this, mbind, M_bind. rewrite Hc. cbn [delete_ptr].
  unfold release at 1. rewrite Ho.
  destruct (ir_simplex (this s)) as [p|]; cbn [delete_ptr]; [|done].
  destruct Hir as [Hne [o' Ho']]. unfold release. cbn [heap].
  rewrite lookup_delete_ne by done. by rewrite Ho'.
Qed.

Lemma supported_geometry (m : Mesh R) :
  tensor_mesh m \/ simplex_mesh m ->
  match GetGeomType (GetFE0 m) with
  | Geometry.POINT | Geometry.SEGMENT => False
  | _ => True
  end.
Proof.
  intros [(_ & [-> | ->] & _) | (_ & _ & _ & _ & _ & mb & NEsplit & msplit & Hsp & _)];
    [done|done|].
  by destruct (GetGeomType (GetFE0 m)).
Qed.

Lemma Setup_accepts (m : Mesh R) bb_t newt_tol npt_max (s : State R) :
  tensor_mesh m \/ simplex_mesh m ->
  exists s', Setup m bb_t newt_tol npt_max s = Returns tt s'.
Proof.
  intros [Hm | Hm];
    [by apply Setup_accepts_tensor_mesh | by apply Setup_accepts_simplex_mesh].
Qed.

#[local] Ltac by_key k i := destruct (decide (k = i)) as [->|]; [by simplify_map_eq|].

(** The heap after construction and one [Setup]: the communicator, the
    search structure and, on triangles, tetrahedra and prisms, the
    integration-point table. *)
Lemma Setup_construct (m : Mesh R) bb_t newt_tol npt_max (s1 : State R) :
  Setup m bb_t newt_tol npt_max construct = Returns tt s1 ->
  exists fd args,
    engine_data (this s1) = Some fd /\ sa_dim args = engine_dim (this s1) /\
    gsl_comm (this s1) = Some 0 /\ fd <> 0 /\
    ((ir_simplex (this s1) = None /\
      heap s1 = <[fd := FindptsData args]> {[0 := Comm]}) \/
     (exists p ir, ir_simplex (this s1) = Some p /\ p <> 0 /\ p <> fd /\
        heap s1 = <[fd := FindptsData args]> (<[p := IntegrationRule ir]> {[0 := Comm]}))).
Proof.
  intros H1.
  destruct (Setup_state _ _ _ _ _ _ H1) as (args & Hcomm & Hsa & Hgeo).
  cbn [this construct gsl_comm brk heap ir_simplex] in Hcomm, Hgeo.
  assert (forall mb ir,
            (<[3 := FindptsData args]>
               (delete 1 (<[2 := IntegrationRule ir]> (<[1 := SubMesh mb]> {[0 := Comm]})))
             : gmap nat (object R))
            = <[3 := FindptsData args]> (<[2 := IntegrationRule ir]> {[0 := Comm]}))
    as Hsub.
  { intros mb ir. rewrite delete_insert_ne, delete_insert_eq by done.
    by rewrite delete_singleton_ne. }
  destruct (GetGeomType (GetFE0 m)); try done;
    first [ destruct Hgeo as (mb & ir & Hfd & Hir & Hh); rewrite Hsub in Hh;
            exists 3, args; do 3 (split; [done|]); split; [lia|];
            right; exists 2, ir; split; [done|]; split; [lia|]; split; [lia|done]
          | destruct Hgeo as (Hfd & Hir & Hh);
            exists 1, args; do 3 (split; [done|]); split; [lia|]; by left ].
Qed.

(** X10.  One full life of an instance.  Construction, [Setup] on a
    consistent mesh, [FreeData] and destruction all return, and nothing that
    the instance allocated is left: the communicator, the search structure,
    the integration-point table and the reference sub-mesh have all been
    released. *)
Theorem lifecycle_releases_everything (m : Mesh R) bb_t newt_tol npt_max :
  tensor_mesh m \/ simplex_mesh m ->
  exists s1 s2 s3 : State R,
    Setup m bb_t newt_tol npt_max construct = Returns tt s1 /\
    FreeData s1 = Returns tt s2 /\
    destruct_ s2 = Returns tt s3 /\
    heap s3 = ∅.
Proof.
  intros Hm.
  destruct (Setup_accepts m bb_t newt_tol npt_max construct Hm) as [s1 H1].
  destruct (Setup_construct _ _ _ _ _ H1) as (fd & args & Hfd & Hsa & Hcomm & Hne & Hheap).
  assert (heap s1 !! fd = Some (FindptsData args)) as Hlive.
  { destruct Hheap as [[_ ->] | (p & ir & _ & _ & _ & ->)]; by rewrite lookup_insert_eq. }
  eexists s1, _, _. split; [exact H1|].
  split; [exact (FreeData_live _ _ _ Hfd Hlive Hsa)|].
  destruct Hheap as [[Hir Hh] | (p & ir & Hir & Hp0 & Hpfd & Hh)].
  - split.
    + apply (destruct_live _ 0); cbn [this heap set_gsl_mesh gsl_comm ir_simplex];
        [done| |by rewrite Hir].
      rewrite Hh, lookup_delete_ne, lookup_insert_ne, lookup_singleton_eq by done.
      by eexists.
    + cbn [this heap set_gsl_mesh ir_simplex]. rewrite Hir, Hh.
      apply map_eq. intros k. by_key k 0. by_key k fd. by simplify_map_eq.
  - split.
    + apply (destruct_live _ 0); cbn [this heap set_gsl_mesh gsl_comm ir_simplex];
        [done| |rewrite Hir; split; [done|]].
      * rewrite Hh, lookup_delete_ne, !lookup_insert_ne, lookup_singleton_eq by done.
        by eexists.
      * rewrite Hh, lookup_delete_ne, lookup_insert_ne, lookup_insert_eq by done.
        by eexists.
    + cbn [this heap set_gsl_mesh ir_simplex]. rewrite Hir, Hh.
      apply map_eq. intros k. by_key k 0. by_key k fd. by_key k p. by simplify_map_eq.
Qed.

(** X11.  The destructor does not release the search structure.  After
    construction and [Setup], destruction without [FreeData] returns and
    releases the communicator and the integration-point table; the search
    structure is the one object left allocated. *)
Theorem destructor_keeps_search_structure (m : Mesh R) bb_t newt_tol npt_max :
  tensor_mesh m \/ simplex_mesh m ->
  exists (s1 s3 : State R) fd args,
    Setup m bb_t newt_tol npt_max construct = Returns tt s1 /\
    engine_data (this s1) = Some fd /\
    destruct_ s1 = Returns tt s3 /\
    heap s3 = {[fd := FindptsData args]}.
Proof.
  intros Hm.
  destruct (Setup_accepts m bb_t newt_tol npt_max construct Hm) as [s1 H1].
  destruct (Setup_construct _ _ _ _ _ H1) as (fd & args & Hfd & Hsa & Hcomm & Hne & Hheap).
  eexists s1, _, fd, args. split; [exact H1|]. split; [exact Hfd|].
  destruct Hheap as [[Hir Hh] | (p & ir & Hir & Hp0 & Hpfd & Hh)].
  - split.
    + apply (destruct_live _ 0); [done| |by rewrite Hir].
      rewrite Hh, lookup_insert_ne, lookup_singleton_eq by done. by eexists.
    + cbn [heap]. rewrite Hir, Hh.
      apply map_eq. intros k. by_key k 0. by_key k fd. by simplify_map_eq.
  - split.
    + apply (destruct_live _ 0); [done| |rewrite Hir; split; [done|]].
      * rewrite Hh, !lookup_insert_ne, lookup_singleton_eq by done. by eexists.
      * rewrite Hh, lookup_insert_ne, lookup_insert_eq by done. by eexists.
    + cbn [heap]. rewrite Hir, Hh.
      apply map_eq. intros k. by_key k 0. by_key k fd. by_key k p. by simplify_map_eq.
Qed.

(** X12.  [Setup] and [FreeData] in turn.  From a state in which no
    search structure is allocated, [Setup] leaves exactly one, the one the
    instance refers to; [FreeData] then returns and leaves none, which is
    the state from which [Setup] can be called again. *)
Theorem Setup_FreeData_alternate (m : Mesh R) bb_t newt_tol npt_max (s s1 : State R) :
  heap_ok s -> no_findpts_data s ->
  Setup m bb_t newt_tol npt_max s = Returns tt s1 ->
  heap_ok s1 /\ one_findpts_data s1 /\
  exists s2, FreeData s1 = Returns tt s2 /\ heap_ok s2 /\ no_findpts_data s2.
Proof.
  intros Hok Hnone H1.
  destruct (Setup_heap _ _ _ _ _ _ H1 Hok) as (Hok1 & _ & _).
  destruct (Setup_state _ _ _ _ _ _ H1) as (args & _ & Hsa & Hgeo).
  assert (exists fd, engine_data (this s1) = Some fd /\
                     heap s1 !! fd = Some (FindptsData args) /\
                     forall p args', heap s1 !! p = Some (FindptsData args') -> p = fd)
    as (fd & Hfd & Hlive & Honly).
  { destruct (GetGeomType (GetFE0 m)); try done;
      first [ destruct Hgeo as (mb & ir & Hfd & _ & Hh); exists (S (S (brk s)))
            | destruct Hgeo as (Hfd & _ & Hh); exists (brk s) ];
      (split; [done|]); rewrite Hh; (split; [by rewrite lookup_insert_eq|]);
      intros p args' Hp;
      match goal with |- p = ?fd => destruct (decide (p = fd)) as [|Hne]; [done|] end;
      exfalso; rewrite lookup_insert_ne in Hp by done;
      try (destruct (decide (p = brk s)) as [->|];
           [by rewrite lookup_delete_eq in Hp|];
           rewrite lookup_delete_ne in Hp by done;
           destruct (decide (p = S (brk s))) as [->|];
           [by rewrite lookup_insert_eq in Hp|];
           rewrite !lookup_insert_ne in Hp by done);
      by apply Hnone in Hp. }
  split; [done|]. split; [by exists fd, args|].
  eexists. split; [exact (FreeData_live _ _ _ Hfd Hlive Hsa)|]. split.
  - intros p Hp. cbn [heap brk] in *. apply lookup_delete_None. right. by apply Hok1.
  - intros p args' Hp. cbn [heap] in Hp.
    destruct (decide (p = fd)) as [->|Hne]; [by rewrite lookup_delete_eq in Hp|].
    rewrite lookup_delete_ne in Hp by done. by apply Honly in Hp.
Qed.

End Lifecycle.

(** The unit square, set up and freed: a query that follows faults. *)
Lemma use_after_FreeData_witness :
  exists s',
    FreeData Example.ready_square = Returns tt s' /\
    faults (FindPoints [1#2; 1#3]%Q Example.one_point s') = true.
Proof.
  assert (exists s', FreeData Example.ready_square = Returns tt s') as (s' & H)
    by (eexists; vm_compute; reflexivity).
  exists s'. split; [exact H|].
  exact (proj1 (use_after_FreeData _ _ H) _ _).
Defined.

(** The life of an instance on the unit square. *)
Lemma lifecycle_releases_everything_witness :
  tensor_mesh Example.unit_square /\
  exists s1 s2 s3 : State Q,
    Setup Example.unit_square (1#10)%Q (1#1000)%Q 256 construct = Returns tt s1 /\
    FreeData s1 = Returns tt s2 /\
    destruct_ s2 = Returns tt s3 /\
    heap s3 = ∅.
Proof.
  split; [exact unit_square_tensor_mesh|].
  exact (lifecycle_releases_everything Example.unit_square _ _ _
           (or_introl unit_square_tensor_mesh)).
Defined.

(** Destruction without [FreeData] on the triangle. *)
Lemma destructor_keeps_search_structure_witness :
  simplex_mesh Example.unit_triangle /\
  exists (s1 s3 : State Q) fd args,
    Setup Example.unit_triangle (1#10)%Q (1#1000)%Q 256 construct = Returns tt s1 /\
    engine_data (this s1) = Some fd /\
    destruct_ s1 = Returns tt s3 /\
    heap s3 = {[fd := FindptsData args]}.
Proof.
  split; [exact unit_triangle_simplex_mesh|].
  exact (destructor_keeps_search_structure Example.unit_triangle _ _ _
           (or_intror unit_triangle_simplex_mesh)).
Defined.

(** [Setup] on the constructed instance, then [FreeData]. *)
Lemma Setup_FreeData_alternate_witness :
  heap_ok (construct : State Q) /\ no_findpts_data (construct : State Q) /\
  Setup Example.unit_square (1#10)%Q (1#1000)%Q 256 construct
    = Returns tt Example.ready_square /\
  one_findpts_data Example.ready_square.
Proof.
  assert (heap_ok (construct : State Q)) as Hok.
  { intros p Hp. cbn in Hp |- *. apply lookup_singleton_ne. lia. }
  assert (no_findpts_data (construct : State Q)) as Hnone.
  { intros p args Hp. cbn in Hp. apply lookup_singleton_Some in Hp as [_ ?]. done. }
  assert (Setup Example.unit_square (1#10)%Q (1#1000)%Q 256 construct
          = Returns tt Example.ready_square) as H1 by (vm_compute; reflexivity).
  do 3 (split; [done|]).
  exact (proj1 (proj2 (Setup_FreeData_alternate _ _ _ _ _ _ Hok Hnone H1))).
Defined.

(** ** [Interpolate]: frame and precondition *)

Section InterpolateMore.
Context {R : Type} `{!Collaborators R}.

(** The structure that one turn of the loop over the components uses. *)
Lemma Interpolate_component_structure (q : QueryArrays R) field_in pc i st st'
    (s s' : State R) :
  Interpolate_component q field_in pc i st s = Returns st' s' ->
  exists fd args,
    engine_data (this s) = Some fd /\
    heap s !! fd = Some (FindptsData args) /\
    sa_dim args = engine_dim (this s).
Proof.
  unfold Interpolate_component. destruct st as [nv out]. intros H.
  apply bind_Returns in H as (t & s1 & Ht & H). injection Ht as <- <-.
  apply bind_Returns in H as (off & s1 & Hoff & H).
  apply as_index_Returns in Hoff as (_ & -> & ->).
  apply bind_Returns in H as (nv1 & s1 & Hnv & H).
  pose proof (GetNodeValues_Returns_state _ _ _ _ _ Hnv) as ->.
  apply bind_Returns in H as (o1 & s1 & Hev & _).
  assert (exists off', findpts_eval (engine_dim (this s)) out off' sizeof_double q
            sizeof_unsigned sizeof_unsigned sizeof_unsigned
            (sizeof_double * Z.to_nat (dim (this s))) pc nv1
            (engine_data (this s)) s = Returns o1 s1) as [off' Hev'].
  { eexists. unfold engine_dim, engine_data. destruct (dim (this s) =? 2)%Z; exact Hev. }
  apply findpts_eval_Returns in Hev' as (h & args & Hfd & Hheap & Hsa & _).
  by exists h, args.
Qed.

(** X13.  What [Interpolate] leaves untouched.  It makes one engine call
    per component and changes nothing else: the instance and the heap are as
    before, and with [C] components and [pc] the size of the field divided
    by [C], every entry of the output from [C * pc] on is as it was. *)
Theorem Interpolate_frame (q : QueryArrays R) (field_in : GridFunction R)
    (field_out out' : list R) (s s' : State R) :
  Interpolate q field_in field_out s = Returns out' s' ->
  let C := Z.to_nat (gf_VDim field_in) in
  let pc := length (gf_data field_in) / C in
  this s' = this s /\ heap s' = heap s /\
  length (calls s') = length (calls s) + C /\
  firstn (length (calls s)) (calls s') = calls s /\
  forall idx, C * pc <= idx -> out' !! idx = field_out !! idx.
Proof.
  intros H C pc. unfold Interpolate in H.
  apply bind_Returns in H as (t & s1 & Ht & H). injection Ht as <- <-.
  apply bind_Returns in H as (m & s1 & Hm & H). apply defined_Returns in Hm as [_ ->].
  apply bind_Returns in H as (nd & s1 & Hnd & H). apply defined_Returns in Hnd as [Hnd ->].
  apply bind_Returns in H as (uf & s1 & Hfec & H).
  destruct (H1_FECollection (GetOrder (GetFE0 m)) (dim (this s))) as [e|uf'] eqn:HH1; [done|].
  injection Hfec as <- <-.
  cbn zeta in H.
  apply bind_Returns in H as (pcz & s1 & Hdiv & H).
  apply int_div_Returns in Hdiv as (Hnz & -> & ->).
  apply bind_Returns in H as ([nvf outf] & s1 & Hloop & H). injection H as <- <-.
  fold C in Hloop.
  pose (I := fun (c : nat) (st : list R * list R) (u : State R) =>
    this u = this s /\ heap u = heap s /\
    length (calls u) = length (calls s) + c /\
    firstn (length (calls s)) (calls u) = calls s /\
    forall idx, C * pc <= idx -> st.2 !! idx = field_out !! idx).
  assert (I (0 + C) (nvf, outf) s1) as HI; [|exact HI].
  apply (for_each_inv I _ 0 C _ _ _ _ Hloop).
  - unfold I; cbn. split; [done|]. split; [done|]. split; [lia|].
    split; [apply firstn_all|done].
  - intros c [nv out] u [nv' out'0] u' Hc (Hthis & Hheap & Hcalls & Hpre & Hrest) Hbody.
    assert (0 < C) as HC by lia.
    assert (gf_VDim field_in = Z.of_nat C) as HCz by (unfold C; lia).
    rewrite HCz, (quot_of_nat _ C HC) in Hbody. fold pc in Hbody.
    apply Interpolate_component_Returns in Hbody
      as (fd & args & _ & _ & _ & -> & _ & _ & Hout).
    cbn [fst snd] in *. unfold I; cbn [fst snd this heap calls].
    split; [done|]. split; [done|].
    split; [rewrite length_app; cbn; lia|]. split.
    + rewrite take_app_le by lia. exact Hpre.
    + intros idx Hidx. rewrite Hout by (right; nia). by apply Hrest.
Qed.

(** X14.  When [Interpolate] returns.  For a field of [C >= 1]
    components, with [pc] its size divided by [C]: exactly when the mesh is
    set and has nodes, the library builds the scalar H1 space of the
    element's order on it, the search structure of the instance's dimension
    is allocated, the nodal values of every component can be taken, the
    arrays of query results hold at least [pc] results, and the output has
    at least [C * pc] entries.  The room needed is counted in [pc], not in
    query points, and no array is resized. *)
Theorem Interpolate_returns_iff (q : QueryArrays R) (field_in : GridFunction R)
    (field_out : list R) (s : State R) :
  (0 < gf_VDim field_in)%Z ->
  let C := Z.to_nat (gf_VDim field_in) in
  let pc := length (gf_data field_in) / C in
  returns (Interpolate q field_in field_out s) = true <->
  (exists m, mesh (this s) = Some m /\ is_Some (GetNodes m) /\
             H1_FECollection (GetOrder (GetFE0 m)) (dim (this s)) = inr tt) /\
  (exists fd args, engine_data (this s) = Some fd /\
                   heap s !! fd = Some (FindptsData args) /\
                   sa_dim args = engine_dim (this s)) /\
  (forall c, c < C ->
     returns (GetNodeValues (drop (c * pc) (gf_data field_in)) [] s) = true) /\
  pc <= length (codes q) /\ pc <= length (proc_ids q) /\ pc <= length (elem_ids q) /\
  (forall k, k < pc ->
     k * Z.to_nat (dim (this s)) + engine_dim (this s) <= length (ref_pos q)) /\
  C * pc <= length field_out.
Proof.
  intros HCpos C pc.
  assert (0 < C) as HC by (unfold C; lia).
  assert (gf_VDim field_in = Z.of_nat C) as HCz by (unfold C; lia).
  split.
  - intros Hret.
    destruct (Interpolate q field_in field_out s) as [out' s'| |] eqn:H; [|done|done].
    clear Hret. unfold Interpolate in H.
    apply bind_Returns in H as (t & s1 & Ht & H). injection Ht as <- <-.
    apply bind_Returns in H as (m & s1 & Hm & H). apply defined_Returns in Hm as [Hm ->].
    apply bind_Returns in H as (nd & s1 & Hnd & H). apply defined_Returns in Hnd as [Hnd ->].
    apply bind_Returns in H as (uf & s1 & Hfec & H).
    destruct (H1_FECollection (GetOrder (GetFE0 m)) (dim (this s))) as [e|uf'] eqn:HH1; [done|].
    injection Hfec as <- <-.
    cbn zeta in H.
    apply bind_Returns in H as (pcz & s1 & Hdiv & H).
    apply int_div_Returns in Hdiv as (Hnz & -> & ->).
    apply bind_Returns in H as ([nvf outf] & s1 & Hloop & H). injection H as <- <-.
    fold C in Hloop. rewrite HCz, (quot_of_nat _ C HC) in Hloop. fold pc in Hloop.
    pose (I := fun (c : nat) (st : list R * list R) (u : State R) =>
      this u = this s /\ heap u = heap s /\
      length st.2 = length field_out /\
      forall c', c' < c ->
        (exists fd args, engine_data (this s) = Some fd /\
                         heap s !! fd = Some (FindptsData args) /\
                         sa_dim args = engine_dim (this s)) /\
        returns (GetNodeValues (drop (c' * pc) (gf_data field_in)) [] s) = true /\
        forall k, k < pc ->
          c' * pc + k < length field_out /\
          is_Some (codes q !! k) /\ is_Some (proc_ids q !! k) /\
          is_Some (elem_ids q !! k) /\
          is_Some (result_coordinates q (dim (this s)) (engine_dim (this s)) k)).
    assert (I (0 + C) (nvf, outf) s1) as (_ & _ & _ & Hall).
    { apply (for_each_inv I _ 0 C _ _ _ _ Hloop).
      - unfold I; cbn. do 3 (split; [done|]). intros; lia.
      - intros c [nv out] u [nv' out'0] u' Hc (Hthis & Hheap & Hl & Hprev) Hbody.
        pose proof (Interpolate_component_structure _ _ _ _ _ _ _ _ Hbody)
          as (fd & args & Hfd & Hh & Hsa).
        apply Interpolate_component_Returns in Hbody
          as (fd' & args' & _ & _ & Hnv & -> & Hl' & Hin & _).
        cbn [fst snd] in *. unfold I; cbn [fst snd this heap calls].
        rewrite Hthis, Hheap in *.
        split; [done|]. split; [done|]. split; [congruence|].
        intros c' Hc'. destruct (decide (c' = c)) as [->|Hne]; [|apply Hprev; lia].
        split; [by exists fd, args|]. split.
        + apply (GetNodeValues_same_objects _ _ s u) in Hnv; [|done..].
          by rewrite (GetNodeValues_any_buffer _ _ [] _ _ _ Hnv).
        + intros k Hk.
          destruct (Hin k Hk) as (Hb & code & proc & el & r & -> & -> & -> & -> & _).
          split; [lia|]. by repeat split; eexists. }
    split; [exists m; split; [done|]; split; [by eexists|]; by destruct uf'|].
    destruct (Hall 0 HC) as (Hstruct & _ & _). split; [exact Hstruct|].
    split; [intros c Hc; by destruct (Hall c Hc) as (_ & ? & _)|].
    assert (forall k, k < pc ->
              k < length (codes q) /\ k < length (proc_ids q) /\ k < length (elem_ids q) /\
              k * Z.to_nat (dim (this s)) + engine_dim (this s) <= length (ref_pos q))
      as Hrows.
    { intros k Hk. destruct (Hall 0 HC) as (_ & _ & Hk0).
      destruct (Hk0 k Hk) as (_ & Hc & Hp & He & Hr).
      apply lookup_lt_is_Some in Hc, Hp, He. do 3 (split; [done|]).
      unfold result_coordinates in Hr. apply mapM_is_Some in Hr.
      assert (0 < engine_dim (this s)) as HD.
      { unfold engine_dim. destruct (dim (this s) =? 2)%Z; lia. }
      rewrite Forall_forall in Hr. specialize (Hr (engine_dim (this s) - 1)).
      cbn in Hr. rewrite elem_of_seq in Hr. specialize (Hr ltac:(lia)).
      apply lookup_lt_is_Some in Hr. lia. }
    assert (forall a, (forall k, k < pc -> k < a) -> pc <= a) as Hle.
    { intros a Ha. destruct pc as [|pc']; [lia|]. specialize (Ha pc'). lia. }
    split; [apply Hle; intros k Hk; by destruct (Hrows k Hk) as (? & _)|].
    split; [apply Hle; intros k Hk; by destruct (Hrows k Hk) as (_ & ? & _)|].
    split; [apply Hle; intros k Hk; by destruct (Hrows k Hk) as (_ & _ & ? & _)|].
    split; [intros k Hk; by destruct (Hrows k Hk) as (_ & _ & _ & ?)|].
    destruct pc as [|pc']; [lia|].
    destruct (Hall (C - 1) ltac:(lia)) as (_ & _ & Hk).
    destruct (Hk pc' ltac:(lia)) as (Hb & _). nia.
  - intros ((m & Hm & Hnodes & HH1) & (fd & args & Hfd & Hheap & Hsa) & Hnv & Hc & Hp & He
             & Hr & Ho).
    destruct (Interpolate_returns q field_in field_out s m fd args Hm Hnodes HH1 Hfd Hheap
                Hsa HCpos)
      as (out' & s' & ->); try done.
    intros c nv0 Hc'. specialize (Hnv c Hc').
    destruct (GetNodeValues (drop (c * _) (gf_data field_in)) [] s) as [nv u| |] eqn:Hrun;
      [|done|done].
    exists nv. by apply (GetNodeValues_any_buffer _ [] nv0 _ u).
Qed.

End InterpolateMore.

(** Six query results and a scalar field of four values on the unit
    square: the last two entries of the output are as they were. *)
Lemma Interpolate_frame_witness :
  exists out' s',
    Interpolate (Example.room_for 6) Example.field4 (replicate 6 (-7)%Q)
                Example.ready_square = Returns out' s' /\
    this s' = this Example.ready_square.
Proof.
  assert (exists out' s',
            Interpolate (Example.room_for 6) Example.field4 (replicate 6 (-7)%Q)
                        Example.ready_square = Returns out' s') as (out' & s' & H)
    by (eexists _, _; vm_compute; reflexivity).
  exists out', s'. split; [exact H|].
  exact (proj1 (Interpolate_frame _ _ _ _ _ _ H)).
Defined.

(** A scalar field of four values needs room for four results, whatever
    the number of query points: six results are enough, one is not. *)
Lemma Interpolate_returns_iff_witness :
  (0 < gf_VDim Example.field4)%Z /\
  returns (Interpolate (Example.room_for 6) Example.field4 (replicate 6 (-7)%Q)
             Example.ready_square) = true /\
  4 <= length (codes (Example.room_for 6)).
Proof.
  assert (0 < gf_VDim Example.field4)%Z as Hpos by done.
  assert (returns (Interpolate (Example.room_for 6) Example.field4 (replicate 6 (-7)%Q)
                     Example.ready_square) = true) as H by (vm_compute; reflexivity).
  split; [exact Hpos|]. split; [exact H|].
  destruct (proj1 (Interpolate_returns_iff _ _ _ _ Hpos) H) as (_ & _ & _ & Hc & _).
  exact Hc.
Defined.

(** ** The errors [Setup] reports *)

Section SetupAborts.
Context {R : Type} `{!Collaborators R}.

(** Where [Setup] and its extractors can abort. *)
Lemma defined_no_abort {A} (o : option A) (s : State R) msg s' :
  defined o s <> Aborts msg s'.
Proof. by destruct o. Qed.

Lemma MFEM_VERIFY_Aborts c msg0 (s : State R) msg s' :
  MFEM_VERIFY c msg0 s = Aborts msg s' <-> c = false /\ msg = msg0 /\ s' = s.
Proof.
  destruct c; cbn; unfold mret, M_ret, MFEM_ABORT; split; intros; destruct_and?;
    simplify_eq; done.
Qed.

Lemma GetQuadHexNodalCoordinates_Aborts (s : State R) msg s' :
  GetQuadHexNodalCoordinates s = Aborts msg s' ->
  exists m, mesh (this s) = Some m /\ is_Some (GetNodes m) /\
            GetDofMap (GetFE0 m) = None /\
            msg = "TensorBasis FiniteElement expected."%string.
Proof.
  unfold GetQuadHexNodalCoordinates. intros H.
  apply bind_Aborts in H as [H | (t & s1 & Ht & H)]; [done|]. injection Ht as <- <-.
  apply bind_Aborts in H as [H | (m & s1 & Hm & H)]; [by apply defined_no_abort in H|].
  apply defined_Returns in Hm as [Hm ->]. cbn zeta in H.
  apply bind_Aborts in H as [H | (data & s1 & Hd & H)]; [by apply defined_no_abort in H|].
  apply defined_Returns in Hd as [Hd ->].
  apply bind_Aborts in H as [H | (u & s1 & Hmod & H)]; [done|].
  apply modify_this_Returns in Hmod. subst s1.
  apply bind_Aborts in H as [H | (u1 & s1 & Hv & H)].
  { apply MFEM_VERIFY_Aborts in H as (Hb & -> & _).
    apply bool_decide_eq_false in Hb. exists m. split; [done|]. split; [by eexists|].
    split; [|done]. by apply eq_None_not_Some. }
  apply MFEM_VERIFY_Returns in Hv as [_ ->].
  apply bind_Aborts in H as [H | (dm & s1 & Hdm & H)]; [by apply defined_no_abort in H|].
  apply defined_Returns in Hdm as [_ ->].
  apply bind_Aborts in H as [H | (t2 & s1 & Ht2 & H)]; [done|]. injection Ht2 as <- <-.
  apply bind_Aborts in H as [H | ([buf pt] & s1 & Hl & H)]; [by apply defined_no_abort in H|].
  done.
Qed.

Lemma GetSimplexNodalCoordinates_Aborts (s : State R) msg s' :
  GetSimplexNodalCoordinates s = Aborts msg s' ->
  exists m mb NEsplit,
    mesh (this s) = Some m /\
    split_reference (GetGeomType (GetFE0 m)) = Some (mb, NEsplit) /\
    match SetNodalFESpace mb (GetOrder (GetFE0 m)) (dim (this s)) with
    | inl msg' => msg = msg'
    | inr msplit => GetDofMap (GetFE0 msplit) = None /\
                    msg = "TensorBasis FiniteElement expected."%string
    end.
Proof.
  unfold GetSimplexNodalCoordinates. intros H.
  apply bind_Aborts in H as [H | (t & s1 & Ht & H)]; [done|]. injection Ht as <- <-.
  apply bind_Aborts in H as [H | (m & s1 & Hm & H)]; [by apply defined_no_abort in H|].
  apply defined_Returns in Hm as [Hm ->]. cbn zeta in H.
  apply bind_Aborts in H as [H | ([mb NEsplit] & s1 & Hsp & H)];
    [by apply defined_no_abort in H|].
  apply defined_Returns in Hsp as [Hsp ->].
  apply bind_Aborts in H as [H | (p0 & s1 & Hnew & H)]; [done|].
  apply new_Returns in Hnew as [-> ->].
  exists m, mb, NEsplit. do 2 (split; [done|]).
  apply bind_Aborts in H as [H | (msplit & s1 & Hnod & H)].
  { destruct (SetNodalFESpace mb (GetOrder (GetFE0 m)) (dim (this s))); [|done].
    by injection H as <- _. }
  destruct (SetNodalFESpace mb (GetOrder (GetFE0 m)) (dim (this s))) as [|msplit'];
    [done|]. injection Hnod as -> <-.
  apply bind_Aborts in H as [H | (u1 & s1 & Hv & H)].
  { apply MFEM_VERIFY_Aborts in H as (Hb & -> & _).
    apply bool_decide_eq_false in Hb. split; [|done]. by apply eq_None_not_Some. }
  exfalso. apply MFEM_VERIFY_Returns in Hv as [_ ->].
  apply bind_Aborts in H as [H | (dm & s1 & Hdm & H)]; [by apply defined_no_abort in H|].
  apply defined_Returns in Hdm as [_ ->].
  apply bind_Aborts in H as [H | (p & s1 & Hnew & H)]; [done|].
  apply new_Returns in Hnew as [-> ->].
  apply bind_Aborts in H as [H | (u2 & s1 & Hmod & H)]; [done|].
  apply modify_this_Returns in Hmod. subst s1.
  apply bind_Aborts in H as [H | ([[irl ir] pt] & s1 & Hl & H)];
    [by apply defined_no_abort in H|].
  apply defined_Returns in Hl as [_ ->].
  apply bind_Aborts in H as [H | (u3 & s1 & Hov & H)].
  { unfold overwrite in H. by destruct (heap _ !! _). }
  apply bind_Aborts in H as [H | (u4 & s2 & Hmod & H)]; [done|].
  apply bind_Aborts in H as [H | (t2 & s3 & Ht2 & H)]; [done|].
  apply bind_Aborts in H as [H | ([buf pt'] & s4 & Hl & H)];
    [by apply defined_no_abort in H|].
  apply bind_Aborts in H as [H | (u5 & s5 & Hmod2 & H)]; [done|].
  unfold release in H. by destruct (heap _ !! _).
Qed.

Lemma Setup_Aborts_refusal (m : Mesh R) bb_t newt_tol npt_max (s : State R) msg s' :
  Setup m bb_t newt_tol npt_max s = Aborts msg s' -> Setup_refusal m = Some msg.
Proof.
  unfold Setup_refusal. revert s'.
  intros s' H. unfold Setup in H.
  apply bind_Aborts in H as [H | (u & s0 & Hv & H)].
  { apply MFEM_VERIFY_Aborts in H as (Hb & -> & _).
    apply bool_decide_eq_false in Hb. apply eq_None_not_Some in Hb. by rewrite Hb. }
  apply MFEM_VERIFY_Returns in Hv as [Hnodes ->].
  apply bool_decide_eq_true in Hnodes as [data Hnodes]. rewrite Hnodes.
  apply bind_Aborts in H as [H | (u0 & s0 & Hv & H)].
  { apply MFEM_VERIFY_Aborts in H as (Hb & -> & _). by rewrite Hb. }
  apply MFEM_VERIFY_Returns in Hv as [Hgeom ->]. rewrite Hgeom.
  apply bind_Aborts in H as [H | (u1 & s0 & Hmod & H)]; [done|].
  apply modify_this_Returns in Hmod. subst s0.
  apply bind_Aborts in H as [H | (u2 & s0 & Hmod & H)]; [done|].
  apply modify_this_Returns in Hmod. subst s0. cbn zeta in H.
  apply bind_Aborts in H as [H | (u3 & s1 & Hext & H)].
  + cbn [this] in H.
    destruct (GetGeomType (GetFE0 m)) eqn:Hgt;
      first [ by injection H as <- _
            | apply GetQuadHexNodalCoordinates_Aborts in H
                as (m' & Hm' & _ & Hmap & ->);
              injection Hm' as <-; by rewrite Hmap
            | apply GetSimplexNodalCoordinates_Aborts in H
                as (m' & mb & NEsplit & Hm' & Hsp & Hnod);
              injection Hm' as <-; rewrite Hgt in Hsp; rewrite Hsp;
              cbn [this dim set_dim] in Hnod;
              destruct (SetNodalFESpace mb (GetOrder (GetFE0 m)) (Dimension m));
              [by subst|]; destruct Hnod as [Hmap ->]; by rewrite Hmap ].
  + exfalso.
    apply bind_Aborts in H as [H | (t & s2 & Ht & H)]; [done|]. injection Ht as <- <-.
    apply bind_Aborts in H as [H | (pts & s2 & Hdiv & H)].
    { unfold int_div in H. by destruct (_ =? 0)%Z. }
    apply int_div_Returns in Hdiv as (_ & -> & ->).
    apply bind_Aborts in H as [H | (ne & s2 & Hdiv & H)].
    { unfold int_div in H. by destruct (_ =? 0)%Z. }
    apply int_div_Returns in Hdiv as (_ & -> & ->).
    destruct (dim (this s1) =? 2)%Z;
      (apply bind_Aborts in H as [H | (fd & s2 & Hs & H)]; [|done]);
      unfold findpts_setup in H;
      (apply bind_Aborts in H as [H | (h & s2 & Hnew & H)]; [done|]);
      (apply bind_Aborts in H as [H | (u4 & s3 & Hrec & H)]; done).
Qed.

Lemma Setup_refusal_Aborts (m : Mesh R) bb_t newt_tol npt_max (s : State R) msg :
  Setup_refusal m = Some msg -> exists s', Setup m bb_t newt_tol npt_max s = Aborts msg s'.
Proof.
  unfold Setup_refusal.
  intros Href. unfold Setup.
  destruct (GetNodes m) as [data|] eqn:Hnodes; cycle 1.
  { injection Href as <-. by exists s. }
  destruct (GetNumGeometries m =? 1)%Z eqn:Hgeom; cycle 1.
  { injection Href as <-. by exists s. }
  unfold mbind at 1 2 3 4 5, M_bind at 1 2 3 4 5, MFEM_VERIFY, mret, M_ret, modify_this.
  rewrite bool_decide_eq_true_2 by (by eexists). cbn zeta.
  destruct (GetGeomType (GetFE0 m)) eqn:Hgt.
  1,2: injection Href as <-; by eexists.
  1,3,5: destruct (split_reference _) as [[mb NEsplit]|] eqn:Hsp; [|done];
    destruct (SetNodalFESpace mb (GetOrder (GetFE0 m)) (Dimension m)) as [e|msplit]
      eqn:Hfes;
    [ injection Href as <-
    | destruct (GetDofMap (GetFE0 msplit)) eqn:Hmap; [done|]; injection Href as <- ];
    eexists;
    unfold GetSimplexNodalCoordinates, mbind, M_bind, get_this, defined, new,
      MFEM_VERIFY, MFEM_ABORT, mret, M_ret; cbn;
    rewrite Hgt, Hsp; cbn; rewrite Hfes; cbn;
    rewrite ?Hmap; reflexivity.
  all: destruct (GetDofMap (GetFE0 m)) eqn:Hmap; [done|]; injection Href as <-;
    eexists;
    unfold GetQuadHexNodalCoordinates, mbind, M_bind, get_this, defined,
      modify_this, MFEM_VERIFY, MFEM_ABORT, mret, M_ret; cbn;
    rewrite Hnodes; cbn; rewrite Hmap; reflexivity.
Qed.

(** X15.  The errors [Setup] reports.  [Setup] aborts exactly when the
    mesh has no nodes, has more than one geometry, has elements that are not
    quadrilaterals, hexahedra, triangles, tetrahedra or prisms, or has a
    basis that is not a tensor-product one (or, on triangles, tetrahedra and
    prisms, when the library refuses to curve the reference sub-mesh), and
    the message is that of the first of these checks that fails.  Nothing
    else makes [Setup] abort. *)
Theorem Setup_aborts_iff (m : Mesh R) bb_t newt_tol npt_max (s : State R) msg :
  (exists s', Setup m bb_t newt_tol npt_max s = Aborts msg s') <->
  Setup_refusal m = Some msg.
Proof.
  split.
  - intros [s' H]. by apply Setup_Aborts_refusal in H.
  - apply Setup_refusal_Aborts.
Qed.

End SetupAborts.

(** ** Configuration errors, and the state they leave *)

Section ConfigurationErrors.
Context {R : Type} `{!Collaborators R}.


End ConfigurationErrors.


(** ** [Setup] and what follows *)

Section SetupComposition.
Context {R : Type} `{!Collaborators R}.

(** X16.  [Setup] makes the instance ready for [FindPoints].  After a
    [Setup] that returned on a mesh of dimension 2 or 3, [FindPoints]
    returns for every query buffer, given result arrays with room for the
    [n] points of the buffer. *)
Theorem Setup_then_FindPoints_returns (m : Mesh R) bb_t newt_tol npt_max
    (s s' : State R) (point_pos : list R) (q : QueryArrays R) :
  Setup m bb_t newt_tol npt_max s = Returns tt s' ->
  Dimension m = 2%Z \/ Dimension m = 3%Z ->
  let D := Z.to_nat (Dimension m) in
  let n := length point_pos / D in
  n <= length (codes q) -> n <= length (proc_ids q) -> n <= length (elem_ids q) ->
  n * D <= length (ref_pos q) -> n <= length (dist q) ->
  exists q' s'', FindPoints point_pos q s' = Returns q' s''.
Proof.
  intros H Hdim D n Hc Hp He Hr Hd.
  destruct (Setup_state _ _ _ _ _ _ H) as (args & _ & Hsa & Hgeo).
  assert (dim (this s') = Dimension m) as Hd'.
  { apply Setup_Returns_args in H as (s1 & Hext & H). cbn zeta in H.
    destruct H as (_ & _ & ->).
    apply extractor_Returns with (m := m) in Hext as (_ & Hd1 & _); [|done..].
    cbn [this]. by destruct (dim (this s1) =? 2)%Z. }
  assert (exists fd, engine_data (this s') = Some fd /\
                     heap s' !! fd = Some (FindptsData args)) as (fd & Hfd & Hheap).
  { destruct (GetGeomType (GetFE0 m)); try done;
      first [ destruct Hgeo as (mb & ir & Hfd & _ & ->)
            | destruct Hgeo as (Hfd & _ & ->) ];
      eexists; (split; [exact Hfd|]); by rewrite lookup_insert_eq. }
  apply (FindPoints_returns point_pos q s' fd args); rewrite ?Hd'; done.
Qed.

(** X17.  An order that gives no node.  [Setup] does not examine the
    order: when [dof1D], that is [order + 1] as [unsigned], is 0 (order -1)
    on a mesh of dimension 2 or 3, the number of elements is a division by
    [0^dim], and [Setup] does not return. *)
Theorem Setup_no_node_per_direction (m : Mesh R) bb_t newt_tol npt_max (s : State R) :
  to_unsigned (GetOrder (GetFE0 m) + 1) = 0%Z ->
  Dimension m = 2%Z \/ Dimension m = 3%Z ->
  returns (Setup m bb_t newt_tol npt_max s) = false.
Proof.
  intros Hord Hdim.
  destruct (Setup m bb_t newt_tol npt_max s) as [[] s'| |] eqn:H; [|done|done].
  exfalso.
  apply Setup_Returns_args in H as (s1 & Hext & H). cbn zeta in H.
  destruct H as (_ & Hpow & _).
  apply extractor_Returns with (m := m) in Hext as (_ & Hd1 & _); [|done..].
  apply Hpow. rewrite Hord, Hd1. unfold int_pow. by destruct Hdim as [-> | ->].
Qed.

End SetupComposition.

(** The unit square, then a query of five entries with room for two
    results. *)
Lemma Setup_then_FindPoints_returns_witness :
  Setup Example.unit_square (1#10)%Q (1#1000)%Q 256 construct
    = Returns tt Example.ready_square /\
  exists q' s'',
    FindPoints Example.five_entries (Example.room_for 2) Example.ready_square
    = Returns q' s''.
Proof.
  assert (Setup Example.unit_square (1#10)%Q (1#1000)%Q 256 construct
          = Returns tt Example.ready_square) as H by (vm_compute; reflexivity).
  split; [exact H|].
  apply (Setup_then_FindPoints_returns _ _ _ _ _ _ Example.five_entries
           (Example.room_for 2) H (or_introl eq_refl)); vm_compute; lia.
Defined.

(** A quadrilateral that reports order -1. *)
Lemma Setup_no_node_per_direction_witness :
  to_unsigned (GetOrder (GetFE0 Scenario.order_minus1_square) + 1) = 0%Z /\
  returns (Setup Scenario.order_minus1_square (1#10)%Q (1#1000)%Q 256 construct) = false.
Proof.
  split; [reflexivity|].
  exact (Setup_no_node_per_direction Scenario.order_minus1_square _ _ _ construct
           eq_refl (or_introl eq_refl)).
Defined.

(** ** [Interpolate] after [Setup] *)

Section InterpolateAborts.
Context {R : Type} `{!Collaborators R}.







End InterpolateAborts.


(** ** Nodal values and point cloud *)

Section Alignment.
Context {R : Type} `{!Collaborators R}.

(** X19.  Nodal values and point cloud go by the same index, on
    quadrilaterals and hexahedra.  After [Setup], for an element whose
    table of nodes has one point per dof, entry [i * dof_cnt + j] of the
    nodal values and point [i * dof_cnt + j] of the point cloud both belong
    to node [dof_map[j]] of element [i]: the one is the value of the field
    there, the other its coordinates. *)
Theorem nodal_values_follow_point_cloud_tensor (m : Mesh R) bb_t newt_tol npt_max
    (s s' s'' : State R) gf_in nv0 nv :
  Setup m bb_t newt_tol npt_max s = Returns tt s' ->
  GetGeomType (GetFE0 m) = Geometry.SQUARE \/ GetGeomType (GetFE0 m) = Geometry.CUBE ->
  length (GetNodesIR (GetFE0 m)) = GetDof (GetFE0 m) ->
  GetNodeValues gf_in nv0 s' = Returns nv s'' ->
  let D := Z.to_nat (Dimension m) in
  let dof_cnt := GetDof (GetFE0 m) in
  let P := GetNE m * dof_cnt in
  length nv = P /\ length (gsl_mesh (this s')) = P * D /\
  exists dof_map,
    GetDofMap (GetFE0 m) = Some dof_map /\
    forall i j, i < GetNE m -> j < dof_cnt ->
      exists k v,
        dof_map !! j = Some k /\
        GetValues m gf_in i (GetNodesIR (GetFE0 m)) !! k = Some v /\
        nv !! (i * dof_cnt + j) = Some v /\
        forall d, d < D ->
          exists x, nodal_coordinate m D i j d = Some x /\
                    gsl_mesh (this s') !! (P * d + (i * dof_cnt + j)) = Some x.
Proof.
  intros H Hgt Hir Hnv D dof_cnt P.
  apply Setup_Returns in H as (s1 & args & _ & _ & Hext & _ & _ & ->).
  assert (GetQuadHexNodalCoordinates
            {| this := set_dim (Dimension m) (set_mesh (Some m) (this s));
               heap := heap s; brk := brk s; calls := calls s |} = Returns tt s1) as Hq.
  { destruct Hgt as [Hg | Hg]; rewrite Hg in Hext; exact Hext. }
  clear Hext.
  apply GetQuadHexNodalCoordinates_Returns in Hq
    as (m' & dof_map & buf & Hm & Hmap & -> & Hl & Hf).
  cbn in Hm, Hmap, Hl, Hf. injection Hm as <-. fold D dof_cnt P in Hl, Hf.
  assert (gsl_mesh (this
            {| this := (if (Dimension m =? 2)%Z
                        then set_fdata2D (Some (brk s))
                               (set_gsl_mesh buf (set_dim (Dimension m)
                                                    (set_mesh (Some m) (this s))))
                        else set_fdata3D (Some (brk s))
                               (set_gsl_mesh buf (set_dim (Dimension m)
                                                    (set_mesh (Some m) (this s)))));
               heap := <[brk s := FindptsData args]> (heap s);
               brk := S (brk s);
               calls := calls s ++ [CallSetup (sa_dim args) args (brk s)] |}) = buf)
    as Hbuf.
  { cbn. by destruct (Dimension m =? 2)%Z. }
  cbn in Hnv |- *.
  apply GetNodeValues_Returns_tensor with (m := m) in Hnv
    as (_ & _ & _ & Hlen & Hin & _);
    [|cbn; by destruct (Dimension m =? 2)%Z|done].
  rewrite length_SetSize in Hlen. rewrite Hir in Hlen, Hin. fold dof_cnt P in Hlen, Hin.
  cbn in Hbuf. rewrite Hbuf.
  split; [done|]. split; [lia|].
  exists dof_map. split; [done|].
  intros i j Hi Hj.
  destruct (Hin i j) as (v & HE & Hv); [done|unfold P; nia|].
  unfold nodal_value in HE. rewrite Hmap in HE. cbn [mbind option_bind] in HE.
  apply bind_Some in HE as (k & Hk & HE).
  exists k, v. do 3 (split; [done|]).
  intros d Hd. destruct (Hf i j d) as (x & Hx & Hb); [done|unfold P; nia|done|].
  by exists x.
Qed.

(** X20.  Nodal values and point cloud go by the same index, on
    triangles, tetrahedra and prisms.  After [Setup], entry
    [j * dof_cnt + i] of the nodal values and point [j * dof_cnt + i] of the
    point cloud both belong to point [i] of the one table behind
    [ir_simplex], in element [j]: the one is the value of the field there,
    the other its image under the geometric map of the element. *)
Theorem nodal_values_follow_point_cloud_simplex (m : Mesh R) bb_t newt_tol npt_max
    (s s' s'' : State R) gf_in nv0 nv :
  Setup m bb_t newt_tol npt_max s = Returns tt s' ->
  GetGeomType (GetFE0 m) = Geometry.TRIANGLE \/
  GetGeomType (GetFE0 m) = Geometry.TETRAHEDRON \/
  GetGeomType (GetFE0 m) = Geometry.PRISM ->
  GetNodeValues gf_in nv0 s' = Returns nv s'' ->
  let D := Z.to_nat (Dimension m) in
  exists p ir,
    ir_simplex (this s') = Some p /\ heap s' !! p = Some (IntegrationRule ir) /\
    let dof_cnt := length ir in
    let P := GetNE m * dof_cnt in
    length nv = P /\ length (gsl_mesh (this s')) = P * D /\
    forall j i, j < GetNE m -> i < dof_cnt ->
      exists ip v,
        ir !! i = Some ip /\
        GetValues m gf_in j ir !! i = Some v /\
        nv !! (j * dof_cnt + i) = Some v /\
        forall d, d < D ->
          exists x, GetVectorValue m j ip !! d = Some x /\
                    gsl_mesh (this s') !! (P * d + (j * dof_cnt + i)) = Some x.
Proof.
  intros H Hgt Hnv D.
  apply Setup_Returns in H as (s1 & args & _ & _ & Hext & _ & _ & ->).
  assert (GetSimplexNodalCoordinates
            {| this := set_dim (Dimension m) (set_mesh (Some m) (this s));
               heap := heap s; brk := brk s; calls := calls s |} = Returns tt s1) as Hs.
  { destruct Hgt as [Hg|[Hg|Hg]]; rewrite Hg in Hext; exact Hext. }
  clear Hext.
  apply GetSimplexNodalCoordinates_Returns in Hs
    as (m' & mb & NEsplit & msplit & dof_map & ir & b & Hm & Hsp & Hfes & _ & -> & Ht & Hl & Hf).
  cbn in Hm, Hsp, Hfes, Ht, Hl, Hf. injection Hm as <-.
  destruct Ht as (Hlen & _ & _). fold D in Hl, Hf.
  set (cnt := NEsplit * GetDof (GetFE0 msplit)) in *.
  cbn in Hnv |- *.
  assert (forall t : FindPointsGSLIB R,
            gsl_mesh (if (Dimension m =? 2)%Z then set_fdata2D (Some (S (S (brk s)))) t
                      else set_fdata3D (Some (S (S (brk s)))) t) = gsl_mesh t) as Hgm.
  { intros t. by destruct (Dimension m =? 2)%Z. }
  apply GetNodeValues_Returns_simplex with (m := m) in Hnv
    as (p' & ir' & _ & Hp' & Hheap' & Hlen' & Hin & _);
    [|cbn; by destruct (Dimension m =? 2)%Z|done].
  assert (p' = S (brk s)) as ->.
  { cbn in Hp'. destruct (Dimension m =? 2)%Z; cbn in Hp'; congruence. }
  cbn in Hheap'.
  rewrite lookup_insert_ne, lookup_delete_ne, lookup_insert_eq in Hheap' by lia.
  injection Hheap' as <-.
  exists (S (brk s)), ir.
  split; [by destruct (Dimension m =? 2)%Z|].
  split; [by rewrite lookup_insert_ne, lookup_delete_ne, lookup_insert_eq by lia|].
  rewrite Hgm. cbn [gsl_mesh set_gsl_mesh]. rewrite length_SetSize in Hlen'.
  rewrite Hlen in *.
  split; [done|]. split; [lia|].
  intros j i Hj Hi.
  destruct (Hin j i) as (v & HE & Hv); [done|nia|].
  assert (is_Some (ir !! i)) as [ip Hip] by (apply lookup_lt_is_Some; lia).
  exists ip, v. do 3 (split; [done|]).
  intros d Hd. destruct (Hf j i d) as (x & Hx & Hb); [done|nia|done|].
  unfold physical_coordinate in Hx. rewrite Hip in Hx. cbn [mbind option_bind] in Hx.
  exists x. split; [done|]. by rewrite (Nat.mul_comm (GetNE m)).
Qed.

End Alignment.

(** The unit square: four nodal values for four points. *)
Lemma nodal_values_follow_point_cloud_tensor_witness :
  Setup Example.unit_square (1#10)%Q (1#1000)%Q 256 construct
    = Returns tt Example.ready_square /\
  length (GetNodesIR (GetFE0 Example.unit_square)) = GetDof (GetFE0 Example.unit_square) /\
  exists nv,
    GetNodeValues [1; 2; 3; 4]%Q [] Example.ready_square = Returns nv Example.ready_square /\
    length nv = 4 /\ length (gsl_mesh (this Example.ready_square)) = 8.
Proof.
  assert (Setup Example.unit_square (1#10)%Q (1#1000)%Q 256 construct
          = Returns tt Example.ready_square) as H by (vm_compute; reflexivity).
  assert (exists nv, GetNodeValues [1; 2; 3; 4]%Q [] Example.ready_square
                     = Returns nv Example.ready_square) as (nv & Hnv)
    by (eexists; vm_compute; reflexivity).
  split; [exact H|]. split; [reflexivity|]. exists nv. split; [exact Hnv|].
  pose proof (nodal_values_follow_point_cloud_tensor _ _ _ _ _ _ _ _ _ _ H (or_introl eq_refl)
                eq_refl Hnv) as HH.
  cbv zeta in HH. destruct HH as (Hl & Hc & _). split; [exact Hl|exact Hc].
Defined.

(** The triangle: twelve nodal values for the twelve points of its three
    quadrilaterals. *)
Lemma nodal_values_follow_point_cloud_simplex_witness :
  Setup Example.unit_triangle (1#10)%Q (1#1000)%Q 256 construct
    = Returns tt Example.ready_triangle /\
  exists nv p ir,
    GetNodeValues [5]%Q [] Example.ready_triangle = Returns nv Example.ready_triangle /\
    ir_simplex (this Example.ready_triangle) = Some p /\
    heap Example.ready_triangle !! p = Some (IntegrationRule ir) /\
    length nv = 1 * length ir.
Proof.
  assert (Setup Example.unit_triangle (1#10)%Q (1#1000)%Q 256 construct
          = Returns tt Example.ready_triangle) as H by (vm_compute; reflexivity).
  assert (exists nv, GetNodeValues [5]%Q [] Example.ready_triangle
                     = Returns nv Example.ready_triangle) as (nv & Hnv)
    by (eexists; vm_compute; reflexivity).
  split; [exact H|].
  pose proof (nodal_values_follow_point_cloud_simplex _ _ _ _ _ _ _ _ _ _ H
                (or_introl eq_refl) Hnv) as HH.
  cbv zeta in HH. destruct HH as (p & ir & Hp & Hheap & Hl & _).
  exists nv, p, ir. do 3 (split; [done|]). exact Hl.
Defined.

(** ** From query point to interpolated value *)

Section SearchThenInterpolate.
Context {R : Type} `{!Collaborators R}.

(** The values [Interpolate] leaves in its output, component by
    component. *)
Lemma Interpolate_Returns_values (q : QueryArrays R) (field_in : GridFunction R)
    (field_out out' : list R) (s s' : State R) :
  Interpolate q field_in field_out s = Returns out' s' ->
  let C := Z.to_nat (gf_VDim field_in) in
  let pc := length (gf_data field_in) / C in
  forall c, c < C ->
    exists fd args nv,
      engine_data (this s) = Some fd /\
      heap s !! fd = Some (FindptsData args) /\
      GetNodeValues (drop (c * pc) (gf_data field_in)) [] s = Returns nv s /\
      forall k, k < pc ->
        exists code proc el r,
          codes q !! k = Some code /\ proc_ids q !! k = Some proc /\
          elem_ids q !! k = Some el /\
          result_coordinates q (dim (this s)) (engine_dim (this s)) k = Some r /\
          out' !! (c * pc + k) = Some (findpts_eval_point args code proc el r nv).
Proof.
  intros H C pc. unfold Interpolate in H.
  apply bind_Returns in H as (t & s1 & Ht & H). injection Ht as <- <-.
  apply bind_Returns in H as (m & s1 & Hm & H). apply defined_Returns in Hm as [_ ->].
  apply bind_Returns in H as (nd & s1 & Hnd & H). apply defined_Returns in Hnd as [Hnd ->].
  apply bind_Returns in H as (uf & s1 & Hfec & H).
  destruct (H1_FECollection (GetOrder (GetFE0 m)) (dim (this s))) as [e|uf'] eqn:HH1; [done|].
  injection Hfec as <- <-.
  cbn zeta in H.
  apply bind_Returns in H as (pcz & s1 & Hdiv & H).
  apply int_div_Returns in Hdiv as (Hnz & -> & ->).
  apply bind_Returns in H as ([nvf outf] & s1 & Hloop & H). injection H as <- <-.
  fold C in Hloop.
  pose (I := fun (c : nat) (st : list R * list R) (u : State R) =>
    this u = this s /\ heap u = heap s /\
    forall c', c' < c ->
      exists fd args nv,
        engine_data (this s) = Some fd /\
        heap s !! fd = Some (FindptsData args) /\
        GetNodeValues (drop (c' * pc) (gf_data field_in)) [] s = Returns nv s /\
        forall k, k < pc ->
          exists code proc el r,
            codes q !! k = Some code /\ proc_ids q !! k = Some proc /\
            elem_ids q !! k = Some el /\
            result_coordinates q (dim (this s)) (engine_dim (this s)) k = Some r /\
            st.2 !! (c' * pc + k) = Some (findpts_eval_point args code proc el r nv)).
  assert (I (0 + C) (nvf, outf) s1) as (_ & _ & Hall); [|exact Hall].
  apply (for_each_inv I _ 0 C _ _ _ _ Hloop).
  - unfold I; cbn. do 2 (split; [done|]). intros; lia.
  - intros c [nv out] u [nv' out'0] u' Hc (Hthis & Hheap & Hprev) Hbody.
    assert (0 < C) as HC by lia.
    assert (gf_VDim field_in = Z.of_nat C) as HCz by (unfold C; lia).
    rewrite HCz, (quot_of_nat _ C HC) in Hbody. fold pc in Hbody.
    apply Interpolate_component_Returns in Hbody
      as (fd & args & Hfd & Hh & Hnv & -> & _ & Hin & Hout).
    cbn [fst snd] in *. unfold I; cbn [fst snd this heap calls].
    rewrite Hthis, Hheap in *.
    do 2 (split; [done|]).
    intros c' Hc'. destruct (decide (c' = c)) as [->|Hne].
    + exists fd, args, nv'. do 2 (split; [done|]). split.
      * apply (GetNodeValues_same_objects _ _ s u) in Hnv; [|done..].
        by apply (GetNodeValues_any_buffer _ nv [] s s).
      * intros k Hk. destruct (Hin k Hk) as [_ Hk']. exact Hk'.
    + destruct (Hprev c') as (fd' & args' & nv1 & ? & ? & ? & Hvals); [lia|].
      exists fd', args', nv1. do 3 (split; [done|]).
      intros k Hk. destruct (Hvals k Hk) as (code & proc & el & r & ? & ? & ? & ? & Hv).
      exists code, proc, el, r. do 4 (split; [done|]).
      rewrite Hout; [done|]. left. nia.
Qed.

(** [mapM] over lookups that are known entry by entry. *)
Lemma mapM_lookups {A} (l : list A) (g : nat -> A) base D r :
  mapM (fun j => l !! (base + j)) (seq 0 D) = Some r ->
  (forall j, j < D -> l !! (base + j) = Some (g j)) ->
  r = g <$> seq 0 D.
Proof.
  intros Hr Hg. apply mapM_Some in Hr.
  apply list_eq. intros j. rewrite list_lookup_fmap.
  destruct (decide (j < D)) as [Hj|Hj].
  - rewrite lookup_seq_lt by done. cbn.
    destruct (Forall2_lookup_l _ _ _ j j Hr) as (y & Hy & Hl).
    { by rewrite lookup_seq_lt. }
    rewrite Hy. cbn in Hl. rewrite Hg in Hl by done. by injection Hl as <-.
  - rewrite lookup_seq_ge by lia. cbn. apply lookup_ge_None.
    apply Forall2_length in Hr. rewrite length_seq in Hr. lia.
Qed.

(** X21.  From query point to interpolated value.  [Interpolate] reads
    the query results in the layout in which [FindPoints] writes them: after
    a [FindPoints] of [n] points in dimension 2 or 3, the value that
    [Interpolate] leaves at entry [c * pc + k] of its output, for [k] below
    [n], is the engine's evaluation of the nodal values of component [c] at
    the code, process, element and [dim] reference coordinates that
    [FindPoints] found for query point [k]. *)
Theorem FindPoints_then_Interpolate (point_pos : list R) (q q' : QueryArrays R)
    (field_in : GridFunction R) (field_out out' : list R) (s s1 s2 : State R) :
  FindPoints point_pos q s = Returns q' s1 ->
  dim (this s) = 2%Z \/ dim (this s) = 3%Z ->
  Interpolate q' field_in field_out s1 = Returns out' s2 ->
  let D := Z.to_nat (dim (this s)) in
  let n := length point_pos / D in
  let C := Z.to_nat (gf_VDim field_in) in
  let pc := length (gf_data field_in) / C in
  exists fd args,
    engine_data (this s) = Some fd /\
    heap s !! fd = Some (FindptsData args) /\
    forall c, c < C ->
      exists nv,
        GetNodeValues (drop (c * pc) (gf_data field_in)) [] s = Returns nv s /\
        forall k, k < pc -> k < n ->
          exists res,
            point_result args point_pos n D k = Some res /\
            out' !! (c * pc + k)
            = Some (findpts_eval_point args (pr_code res) (pr_proc res) (pr_el res)
                      (pr_r res <$> seq 0 D) nv).
Proof.
  intros Hfind Hdim Hint D n C pc.
  destruct (FindPoints_Returns _ _ _ _ _ Hfind Hdim)
    as (fd & args & Hfd & Hheap & _ & -> & Hloop).
  apply findpts_loop_results in Hloop as (_ & Hres & _); [|fold D; lia].
  fold D n in Hres.
  assert (engine_dim (this s) = D) as Hed.
  { unfold engine_dim, D. by destruct Hdim as [-> | ->]. }
  exists fd, args. do 2 (split; [done|]).
  intros c Hc.
  destruct (Interpolate_Returns_values _ _ _ _ _ _ Hint c Hc)
    as (fd' & args' & nv & Hfd' & Hheap' & Hnv & Hvals).
  cbn [this heap] in Hfd', Hheap', Hvals.
  rewrite Hfd in Hfd'. injection Hfd' as <-.
  rewrite Hheap in Hheap'. injection Hheap' as <-.
  exists nv. split.
  { by apply (GetNodeValues_same_objects _ _ s) in Hnv. }
  intros k Hk Hkn.
  destruct (Hres k Hkn) as (res & Hres_k & Hcode & Hproc & Hel & _ & Hr).
  destruct (Hvals k Hk) as (code & proc & el & r & Hc' & Hp' & He' & Hr' & Hout).
  rewrite Hcode in Hc'. injection Hc' as <-.
  rewrite Hproc in Hp'. injection Hp' as <-.
  rewrite Hel in He'. injection He' as <-.
  unfold result_coordinates in Hr'. rewrite Hed in Hr'. fold D in Hr'.
  apply mapM_lookups with (g := pr_r res) in Hr'; [|exact Hr]. subst r.
  exists res. split; [done|]. exact Hout.
Qed.

End SearchThenInterpolate.

(** Four query points on the unit square, then a scalar field of four
    values. *)
Lemma FindPoints_then_Interpolate_witness :
  dim (this Example.ready_square) = 2%Z /\
  exists q' s1 out' s2,
    FindPoints [0; 1; 1; 0; 0; 0; 1; 1]%Q (Example.room_for 4) Example.ready_square
    = Returns q' s1 /\
    Interpolate q' Example.field4 (replicate 4 0%Q) s1 = Returns out' s2 /\
    exists fd args, engine_data (this Example.ready_square) = Some fd /\
                    heap Example.ready_square !! fd = Some (FindptsData args).
Proof.
  split; [reflexivity|].
  assert (exists q' s1,
            FindPoints [0; 1; 1; 0; 0; 0; 1; 1]%Q (Example.room_for 4) Example.ready_square
            = Returns q' s1) as (q' & s1 & Hf)
    by (eexists _, _; vm_compute; reflexivity).
  assert (exists out' s2,
            Interpolate
              (match FindPoints [0; 1; 1; 0; 0; 0; 1; 1]%Q (Example.room_for 4)
                       Example.ready_square with
               | Returns q' _ => q'
               | _ => Example.room_for 4
               end) Example.field4 (replicate 4 0%Q)
              (final (FindPoints [0; 1; 1; 0; 0; 0; 1; 1]%Q (Example.room_for 4)
                        Example.ready_square))
            = Returns out' s2) as (out' & s2 & Hi)
    by (eexists _, _; vm_compute; reflexivity).
  rewrite Hf in Hi. cbn [final] in Hi.
  exists q', s1, out', s2. split; [exact Hf|]. split; [exact Hi|].
  destruct (FindPoints_then_Interpolate _ _ _ _ _ _ _ _ _ Hf (or_introl eq_refl) Hi)
    as (fd & args & Hfd & Hheap & _).
  exists fd, args. split; [exact Hfd|exact Hheap].
Defined.
